(** * RVVM: hart core, CSR file, JIT code cache and command line

    A shallow embedding of the parts of RVVM that its specification makes
    statements about:

    - [Riscv32]: trap delivery, the hot loop and the outer run loop of
      [src/riscv32.c];
    - [Csr]: the CSR read-modify-write entry point of [riscv_csr.c];
    - [Rvjit]: block registry, dirty-page tracking and cache flush of
      [src/rvjit/rvjit.c];
    - [Main]: argument parsing and exit codes of [src/main.c];
    - [BlkIo]: the block device interface of [blk_io.h];
    - [Riscv32Opcodes]: the opcode table of [src/riscv32.c];
    - [RvjitLinker]: [rvjit_block_finalize] of [src/rvjit/rvjit.c] with
      the emitter and the native linker.

    Machine words are integers in [Z] with the wrap-around written out. *)

From Stdlib Require Import ZArith Lia Bool List String Ascii.
From stdpp Require Import base gmap list.
From coqutil Require Import Z.bitblast.

Local Open Scope Z_scope.

(** ** Words and bit fields *)

Definition wrap32 (x : Z) : Z := x mod 2 ^ 32.
Definition wrap64 (x : Z) : Z := x mod 2 ^ 64.

(** [a << n] on a 32-bit operand: the mathematical shift, reduced to the
    width of the type.  (C leaves a count of 32 or more undefined; here
    the bits shifted out are lost.) *)
Definition shl32 (a n : Z) : Z := wrap32 (Z.shiftl a n).

(** Modelled from the spec: [cut_bits]/[bit_cut] live in a header that is
    not part of the sources; "bit_cut(word, start, width) returns width
    bits starting at start". *)
Definition cut_bits (val begin size : Z) : Z :=
  Z.land (Z.shiftr val begin) (Z.ones size).

(** Modelled from the spec: [replace_bits]/[bit_replace], "returns the
    word with those bits replaced". *)
Definition replace_bits (val begin size rep : Z) : Z :=
  Z.lor (Z.land val (Z.lnot (Z.shiftl (Z.ones size) begin)))
        (Z.shiftl (Z.land rep (Z.ones size)) begin).

Definition bit_cut := cut_bits.
Definition bit_replace := replace_bits.

(** An array indexed by a small integer, as a total function. *)
Definition store {A : Type} (f : nat -> A) (i : nat) (v : A) : nat -> A :=
  fun j => if Nat.eqb j i then v else f j.

Definition storeZ {A : Type} (f : Z -> A) (i : Z) (v : A) : Z -> A :=
  fun j => if Z.eqb j i then v else f j.

(** ** src/riscv32.c *)

Module Riscv32.

Definition PRIVILEGE_USER : nat := 0.
Definition PRIVILEGE_SUPERVISOR : nat := 1.
Definition PRIVILEGE_HYPERVISOR : nat := 2.
Definition PRIVILEGE_MACHINE : nat := 3.

Definition REGISTER_ZERO : Z := 0.
Definition REGISTER_PC : Z := 32.

Definition INTERRUPT_MASK : Z := 0x80000000.
Definition TRAP_ILL_INSTR : Z := 2.
Definition RISCV32I_OPCODE_MASK : Z := 3.
Definition MMU_EXEC : Z := 4.

(** [vm->csr]: the per-privilege arrays and [status].  [ideleg] is part
    of the bank in the data model; [riscv32_trap] never reads it. *)
Record csr_bank := {
  csr_status : Z;
  csr_edeleg : nat -> Z;
  csr_ideleg : nat -> Z;
  csr_tvec : nat -> Z;
  csr_epc : nat -> Z;
  csr_cause : nat -> Z;
  csr_tval : nat -> Z
}.

(** A TLB slot: the tag word and the host page it points to, read by
    offset. *)
Record tlb_entry := {
  tlb_pte : Z;
  tlb_ptr : Z -> Z
}.

Record vm_state := {
  registers : Z -> Z;
  priv_mode : nat;
  wait_event : Z;
  csr : csr_bank;
  tlb : Z -> tlb_entry
}.

Definition set_registers (vm : vm_state) (r : Z -> Z) : vm_state :=
  {| registers := r; priv_mode := priv_mode vm; wait_event := wait_event vm;
     csr := csr vm; tlb := tlb vm |}.

Definition set_wait_event (vm : vm_state) (w : Z) : vm_state :=
  {| registers := registers vm; priv_mode := priv_mode vm; wait_event := w;
     csr := csr vm; tlb := tlb vm |}.

(** The register accessors are declared in a header outside the sources.
    The loops below call the writer to put zero into register 0 and to
    set the PC, and read and advance the PC in [vm->registers] directly:
    the writer is a store into that array, at index 0 as at any other.
    What an opcode handler does with a destination register 0 is not in
    the sources; see [Riscv32Samples.writes_to_zero_discarded]. *)
Definition riscv32i_read_register_u (vm : vm_state) (reg : Z) : Z :=
  registers vm reg.

Definition riscv32i_write_register_u (vm : vm_state) (reg data : Z) : vm_state :=
  set_registers vm (storeZ (registers vm) reg data).

Definition riscv32_break (vm : vm_state) : vm_state := set_wait_event vm 0.

(** The delegation walk of [riscv32_trap]:
    [for (priv = MACHINE; priv > vm->priv_mode; --priv)
       if ((edeleg[priv] & (1 << cause)) == 0) break;] *)
Fixpoint trap_walk (edeleg : nat -> Z) (pm : nat) (cause : Z) (priv : nat) : nat :=
  match priv with
  | O => O
  | S below =>
      if Nat.ltb pm priv then
        if Z.land (edeleg priv) (shl32 1 cause) =? 0 then priv
        else trap_walk edeleg pm cause below
      else priv
  end.

Definition trap_target (vm : vm_state) (cause : Z) : nat :=
  trap_walk (csr_edeleg (csr vm)) (priv_mode vm) cause PRIVILEGE_MACHINE.

(** The status update of [riscv32_trap] for target [priv]. *)
Definition trap_status (status : Z) (pm priv : nat) : Z :=
  if Nat.eqb priv PRIVILEGE_MACHINE then
    let s1 := replace_bits status 11 2 (Z.of_nat pm) in
    let s2 := replace_bits s1 7 1 (cut_bits s1 3 1) in
    Z.land s2 0xFFFFFFF7
  else if Nat.eqb priv PRIVILEGE_SUPERVISOR then
    let s1 := replace_bits status 8 1 (Z.of_nat pm) in
    let s2 := replace_bits s1 5 1 (cut_bits s1 1 1) in
    Z.land s2 0xFFFFFFFD
  else status.

Definition riscv32_trap (vm : vm_state) (cause tval : Z) : vm_state :=
  let priv := trap_target vm cause in
  let c := csr vm in
  let c' := {| csr_status := trap_status (csr_status c) (priv_mode vm) priv;
               csr_edeleg := csr_edeleg c;
               csr_ideleg := csr_ideleg c;
               csr_tvec := csr_tvec c;
               csr_epc := store (csr_epc c) priv (riscv32i_read_register_u vm REGISTER_PC);
               csr_cause := store (csr_cause c) priv cause;
               csr_tval := store (csr_tval c) priv tval |} in
  riscv32_break
    {| registers := registers vm; priv_mode := priv; wait_event := wait_event vm;
       csr := c'; tlb := tlb vm |}.

Definition riscv32_interrupt (vm : vm_state) (cause : Z) : vm_state :=
  riscv32_trap vm (Z.lor INTERRUPT_MASK cause) 0.

Definition riscv32_illegal_insn (vm : vm_state) (instruction : Z) : vm_state :=
  riscv32_trap vm TRAP_ILL_INSTR instruction.

Definition riscv32c_illegal_insn (vm : vm_state) (instruction : Z) : vm_state :=
  riscv32_trap vm TRAP_ILL_INSTR (instruction mod 2 ^ 16).

(** Little-endian load of the four fetched bytes. *)
Definition read_uint32_le (b : list Z) : Z :=
  nth 0 b 0 + nth 1 b 0 * 2 ^ 8 + nth 2 b 0 * 2 ^ 16 + nth 3 b 0 * 2 ^ 24.

(** The PC selection at the end of an iteration of [riscv32_run]. *)
Definition run_vector (vm : vm_state) : vm_state :=
  let tv := csr_tvec (csr vm) (priv_mode vm) in
  let ca := csr_cause (csr vm) (priv_mode vm) in
  if negb (Z.land ca INTERRUPT_MASK =? 0) && negb (Z.land tv 1 =? 0) then
    let pc := wrap32 (wrap32 (Z.land tv (Z.lnot 3)) + shl32 ca 2) in
    riscv32i_write_register_u vm REGISTER_PC pc
  else
    riscv32i_write_register_u vm REGISTER_PC (wrap32 (Z.land tv (Z.lnot 3))).

Section Interpreter.

(** The opcode handlers, the TLB helpers and the page walker are
    defined outside the sources; the loop is parametric in them.  The
    handlers have the type of the entries of [riscv32_opcodes]. *)
Variable riscv32i_emulate : vm_state -> Z -> vm_state.
Variable riscv32c_emulate : vm_state -> Z -> vm_state.
Variable tlb_hash : Z -> Z.
Variable tlb_check : tlb_entry -> Z -> Z -> bool.
Variable block_inside_page : Z -> Z -> bool.
(** [riscv32_mmu_op vm addr size access]: the state it leaves (it may
    trap) and the bytes it read when it succeeds. *)
Variable riscv32_mmu_op : vm_state -> Z -> Z -> Z -> vm_state * option (list Z).

Definition pc_advance (vm : vm_state) (n : Z) : vm_state :=
  set_registers vm
    (storeZ (registers vm) REGISTER_PC (wrap32 (registers vm REGISTER_PC + n))).

Definition riscv32_exec_instruction (vm : vm_state) (instruction : Z) : vm_state :=
  if negb (Z.land instruction RISCV32I_OPCODE_MASK =? RISCV32I_OPCODE_MASK) then
    pc_advance (riscv32c_emulate vm instruction) 2
  else
    pc_advance (riscv32i_emulate vm instruction) 4.

(** First half of the loop body: zero register 0, then fetch.  Returns
    the state the instruction will run on and the instruction, if the
    fetch succeeded. *)
Definition hot_fetch (vm : vm_state) : vm_state * option Z :=
  let vm := riscv32i_write_register_u vm REGISTER_ZERO 0 in
  let inst_addr := registers vm REGISTER_PC in
  let tlb_key := tlb_hash inst_addr in
  if tlb_check (tlb vm tlb_key) inst_addr MMU_EXEC && block_inside_page inst_addr 4 then
    let p := tlb_ptr (tlb vm tlb_key) in
    let off := Z.land inst_addr 0xFFF in
    (vm, Some (read_uint32_le [p off; p (off + 1); p (off + 2); p (off + 3)]))
  else
    match riscv32_mmu_op vm inst_addr 4 MMU_EXEC with
    | (vm', Some bytes) => (vm', Some (read_uint32_le bytes))
    | (vm', None) => (vm', None)
    end.

(** One iteration of the body of [while (vm->wait_event)]. *)
Definition hot_step (vm : vm_state) : vm_state :=
  match hot_fetch vm with
  | (vm', Some instruction) => riscv32_exec_instruction vm' instruction
  | (vm', None) => vm'
  end.

(** [riscv32_run_till_event] with a bound on the number of
    iterations; [None] when the bound is reached before an event. *)
Fixpoint riscv32_run_till_event (fuel : nat) (vm : vm_state) : option vm_state :=
  if wait_event vm =? 0 then Some vm
  else match fuel with
       | O => None
       | S fuel' => riscv32_run_till_event fuel' (hot_step vm)
       end.

(** One iteration of the [while (true)] of [riscv32_run]. *)
Definition riscv32_run_iteration (fuel : nat) (vm : vm_state) : option vm_state :=
  match riscv32_run_till_event fuel (set_wait_event vm 1) with
  | Some vm' => Some (run_vector vm')
  | None => None
  end.

End Interpreter.

End Riscv32.

(** ** riscv_csr.c *)

Module Csr.

(** [maxlen_t] is the 64-bit host word of a build with RV64 enabled. *)
Definition maxlen_max : Z := 2 ^ 64 - 1.

(** [(int32_t)x] stored back into a [maxlen_t]. *)
Definition sext32 (x : Z) : Z :=
  let lo := x mod 2 ^ 32 in
  if lo <? 2 ^ 31 then lo else lo + (2 ^ 64 - 2 ^ 32).

Definition PRIVILEGE_USER : nat := 0.
Definition PRIVILEGE_SUPERVISOR : nat := 1.
Definition PRIVILEGE_HYPERVISOR : nat := 2.
Definition PRIVILEGE_MACHINE : nat := 3.

Inductive csr_op_kind := CSR_SWAP | CSR_SETBITS | CSR_CLEARBITS.

(** CSR numbers.  The header that names them is not part of the sources;
    the numbers are those of the RISC-V privileged architecture, which
    the numeric cases of the dispatch (0x3A0.., 0xB03..) follow too. *)
Abbreviation CSR_FFLAGS := (0x001).
Abbreviation CSR_FRM := (0x002).
Abbreviation CSR_FCSR := (0x003).
Abbreviation CSR_SEED := (0x015).
Abbreviation CSR_CYCLE := (0xC00).
Abbreviation CSR_TIME := (0xC01).
Abbreviation CSR_INSTRET := (0xC02).
Abbreviation CSR_CYCLEH := (0xC80).
Abbreviation CSR_TIMEH := (0xC81).
Abbreviation CSR_INSTRETH := (0xC82).
Abbreviation CSR_SSTATUS := (0x100).
Abbreviation CSR_SIE := (0x104).
Abbreviation CSR_STVEC := (0x105).
Abbreviation CSR_SCOUNTEREN := (0x106).
Abbreviation CSR_SENVCFG := (0x10A).
Abbreviation CSR_SSCRATCH := (0x140).
Abbreviation CSR_SEPC := (0x141).
Abbreviation CSR_SCAUSE := (0x142).
Abbreviation CSR_STVAL := (0x143).
Abbreviation CSR_SIP := (0x144).
Abbreviation CSR_STIMECMP := (0x14D).
Abbreviation CSR_STIMECMPH := (0x15D).
Abbreviation CSR_SATP := (0x180).
Abbreviation CSR_MVENDORID := (0xF11).
Abbreviation CSR_MARCHID := (0xF12).
Abbreviation CSR_MIMPID := (0xF13).
Abbreviation CSR_MHARTID := (0xF14).
Abbreviation CSR_MSTATUS := (0x300).
Abbreviation CSR_MISA := (0x301).
Abbreviation CSR_MEDELEG := (0x302).
Abbreviation CSR_MIDELEG := (0x303).
Abbreviation CSR_MIE := (0x304).
Abbreviation CSR_MTVEC := (0x305).
Abbreviation CSR_MCOUNTEREN := (0x306).
Abbreviation CSR_MENVCFG := (0x30A).
Abbreviation CSR_MSTATUSH := (0x310).
Abbreviation CSR_MENVCFGH := (0x31A).
Abbreviation CSR_MCOUNTINHIBIT := (0x320).
Abbreviation CSR_MSCRATCH := (0x340).
Abbreviation CSR_MEPC := (0x341).
Abbreviation CSR_MCAUSE := (0x342).
Abbreviation CSR_MTVAL := (0x343).
Abbreviation CSR_MIP := (0x344).
Abbreviation CSR_MSECCFG := (0x747).
Abbreviation CSR_MSECCFGH := (0x757).
Abbreviation CSR_MCYCLE := (0xB00).
Abbreviation CSR_MINSTRET := (0xB02).
Abbreviation CSR_MCYCLEH := (0xB80).
Abbreviation CSR_MINSTRETH := (0xB82).

Definition CSR_MISA_RV32 : Z := 0x40000000.
Definition CSR_MISA_RV64 : Z := 0x8000000000000000.
Definition CSR_STATUS_TVM : Z := 0x100000.

Definition CSR_SATP_MODE_PHYS : Z := 0.
Definition CSR_SATP_MODE_SV32 : Z := 1.
Definition CSR_SATP_MODE_SV39 : Z := 8.
Definition CSR_SATP_MODE_SV48 : Z := 9.
Definition CSR_SATP_MODE_SV57 : Z := 10.
Definition MMU_PAGE_SHIFT : Z := 12.

Definition FS_OFF : Z := 0.
Definition FS_INITIAL : Z := 1.
Definition FS_CLEAN : Z := 2.
Definition FS_DIRTY : Z := 3.

Definition FFLAG_NX : Z := 1.
Definition FFLAG_UF : Z := 2.
Definition FFLAG_OF : Z := 4.
Definition FFLAG_DZ : Z := 8.
Definition FFLAG_NV : Z := 16.

Definition RM_RNE : Z := 0.
Definition RM_RTZ : Z := 1.
Definition RM_RDN : Z := 2.
Definition RM_RUP : Z := 3.
Definition RM_RMM : Z := 4.

Definition INTERRUPT_STIMER : Z := 5.

Definition bit_mask (n : Z) : Z := Z.ones n.

(** The host floating-point environment: the raised exception flags and
    the rounding direction. *)
Inductive host_round := FE_TONEAREST | FE_TOWARDZERO | FE_DOWNWARD | FE_UPWARD.

Record host_fenv := {
  fe_inexact : bool;
  fe_underflow : bool;
  fe_overflow : bool;
  fe_divbyzero : bool;
  fe_invalid : bool;
  fe_round : host_round
}.

Record csr_file := {
  status : Z;
  isa : Z;
  ie : Z;
  ip : Z;
  edeleg : nat -> Z;
  ideleg : nat -> Z;
  tvec : nat -> Z;
  scratch : nat -> Z;
  epc : nat -> Z;
  cause : nat -> Z;
  tval : nat -> Z;
  counteren : nat -> Z;
  envcfg : nat -> Z;
  mseccfg : Z;
  hartid : Z;
  fcsr : Z
}.

Record hart := {
  rv64 : bool;
  priv_mode : Z;
  csr : csr_file;
  mmu_mode : Z;
  root_page_table : Z;
  stimecmp : Z;
  machine_rv64 : bool;
  fenv : host_fenv
}.

Definition with_csr (vm : hart) (c : csr_file) : hart :=
  {| rv64 := rv64 vm; priv_mode := priv_mode vm; csr := c;
     mmu_mode := mmu_mode vm; root_page_table := root_page_table vm;
     stimecmp := stimecmp vm; machine_rv64 := machine_rv64 vm; fenv := fenv vm |}.

Definition with_mmu (vm : hart) (mode root : Z) : hart :=
  {| rv64 := rv64 vm; priv_mode := priv_mode vm; csr := csr vm;
     mmu_mode := mode; root_page_table := root;
     stimecmp := stimecmp vm; machine_rv64 := machine_rv64 vm; fenv := fenv vm |}.

Definition with_stimecmp (vm : hart) (t : Z) : hart :=
  {| rv64 := rv64 vm; priv_mode := priv_mode vm; csr := csr vm;
     mmu_mode := mmu_mode vm; root_page_table := root_page_table vm;
     stimecmp := t; machine_rv64 := machine_rv64 vm; fenv := fenv vm |}.

Definition with_fenv (vm : hart) (f : host_fenv) : hart :=
  {| rv64 := rv64 vm; priv_mode := priv_mode vm; csr := csr vm;
     mmu_mode := mmu_mode vm; root_page_table := root_page_table vm;
     stimecmp := stimecmp vm; machine_rv64 := machine_rv64 vm; fenv := f |}.

Definition csr_set_status (c : csr_file) (v : Z) : csr_file :=
  {| status := v; isa := isa c; ie := ie c; ip := ip c; edeleg := edeleg c;
     ideleg := ideleg c; tvec := tvec c; scratch := scratch c; epc := epc c;
     cause := cause c; tval := tval c; counteren := counteren c;
     envcfg := envcfg c; mseccfg := mseccfg c; hartid := hartid c; fcsr := fcsr c |}.

Definition csr_set_isa (c : csr_file) (v : Z) : csr_file :=
  {| status := status c; isa := v; ie := ie c; ip := ip c; edeleg := edeleg c;
     ideleg := ideleg c; tvec := tvec c; scratch := scratch c; epc := epc c;
     cause := cause c; tval := tval c; counteren := counteren c;
     envcfg := envcfg c; mseccfg := mseccfg c; hartid := hartid c; fcsr := fcsr c |}.

Definition csr_set_ie (c : csr_file) (v : Z) : csr_file :=
  {| status := status c; isa := isa c; ie := v; ip := ip c; edeleg := edeleg c;
     ideleg := ideleg c; tvec := tvec c; scratch := scratch c; epc := epc c;
     cause := cause c; tval := tval c; counteren := counteren c;
     envcfg := envcfg c; mseccfg := mseccfg c; hartid := hartid c; fcsr := fcsr c |}.

Definition csr_set_ip (c : csr_file) (v : Z) : csr_file :=
  {| status := status c; isa := isa c; ie := ie c; ip := v; edeleg := edeleg c;
     ideleg := ideleg c; tvec := tvec c; scratch := scratch c; epc := epc c;
     cause := cause c; tval := tval c; counteren := counteren c;
     envcfg := envcfg c; mseccfg := mseccfg c; hartid := hartid c; fcsr := fcsr c |}.

Definition csr_set_edeleg (c : csr_file) (v : nat -> Z) : csr_file :=
  {| status := status c; isa := isa c; ie := ie c; ip := ip c; edeleg := v;
     ideleg := ideleg c; tvec := tvec c; scratch := scratch c; epc := epc c;
     cause := cause c; tval := tval c; counteren := counteren c;
     envcfg := envcfg c; mseccfg := mseccfg c; hartid := hartid c; fcsr := fcsr c |}.

Definition csr_set_ideleg (c : csr_file) (v : nat -> Z) : csr_file :=
  {| status := status c; isa := isa c; ie := ie c; ip := ip c; edeleg := edeleg c;
     ideleg := v; tvec := tvec c; scratch := scratch c; epc := epc c;
     cause := cause c; tval := tval c; counteren := counteren c;
     envcfg := envcfg c; mseccfg := mseccfg c; hartid := hartid c; fcsr := fcsr c |}.

Definition csr_set_tvec (c : csr_file) (v : nat -> Z) : csr_file :=
  {| status := status c; isa := isa c; ie := ie c; ip := ip c; edeleg := edeleg c;
     ideleg := ideleg c; tvec := v; scratch := scratch c; epc := epc c;
     cause := cause c; tval := tval c; counteren := counteren c;
     envcfg := envcfg c; mseccfg := mseccfg c; hartid := hartid c; fcsr := fcsr c |}.

Definition csr_set_scratch (c : csr_file) (v : nat -> Z) : csr_file :=
  {| status := status c; isa := isa c; ie := ie c; ip := ip c; edeleg := edeleg c;
     ideleg := ideleg c; tvec := tvec c; scratch := v; epc := epc c;
     cause := cause c; tval := tval c; counteren := counteren c;
     envcfg := envcfg c; mseccfg := mseccfg c; hartid := hartid c; fcsr := fcsr c |}.

Definition csr_set_epc (c : csr_file) (v : nat -> Z) : csr_file :=
  {| status := status c; isa := isa c; ie := ie c; ip := ip c; edeleg := edeleg c;
     ideleg := ideleg c; tvec := tvec c; scratch := scratch c; epc := v;
     cause := cause c; tval := tval c; counteren := counteren c;
     envcfg := envcfg c; mseccfg := mseccfg c; hartid := hartid c; fcsr := fcsr c |}.

Definition csr_set_cause (c : csr_file) (v : nat -> Z) : csr_file :=
  {| status := status c; isa := isa c; ie := ie c; ip := ip c; edeleg := edeleg c;
     ideleg := ideleg c; tvec := tvec c; scratch := scratch c; epc := epc c;
     cause := v; tval := tval c; counteren := counteren c;
     envcfg := envcfg c; mseccfg := mseccfg c; hartid := hartid c; fcsr := fcsr c |}.

Definition csr_set_tval (c : csr_file) (v : nat -> Z) : csr_file :=
  {| status := status c; isa := isa c; ie := ie c; ip := ip c; edeleg := edeleg c;
     ideleg := ideleg c; tvec := tvec c; scratch := scratch c; epc := epc c;
     cause := cause c; tval := v; counteren := counteren c;
     envcfg := envcfg c; mseccfg := mseccfg c; hartid := hartid c; fcsr := fcsr c |}.

Definition csr_set_counteren (c : csr_file) (v : nat -> Z) : csr_file :=
  {| status := status c; isa := isa c; ie := ie c; ip := ip c; edeleg := edeleg c;
     ideleg := ideleg c; tvec := tvec c; scratch := scratch c; epc := epc c;
     cause := cause c; tval := tval c; counteren := v;
     envcfg := envcfg c; mseccfg := mseccfg c; hartid := hartid c; fcsr := fcsr c |}.

Definition csr_set_envcfg (c : csr_file) (v : nat -> Z) : csr_file :=
  {| status := status c; isa := isa c; ie := ie c; ip := ip c; edeleg := edeleg c;
     ideleg := ideleg c; tvec := tvec c; scratch := scratch c; epc := epc c;
     cause := cause c; tval := tval c; counteren := counteren c;
     envcfg := v; mseccfg := mseccfg c; hartid := hartid c; fcsr := fcsr c |}.

Definition csr_set_mseccfg (c : csr_file) (v : Z) : csr_file :=
  {| status := status c; isa := isa c; ie := ie c; ip := ip c; edeleg := edeleg c;
     ideleg := ideleg c; tvec := tvec c; scratch := scratch c; epc := epc c;
     cause := cause c; tval := tval c; counteren := counteren c;
     envcfg := envcfg c; mseccfg := v; hartid := hartid c; fcsr := fcsr c |}.

Definition csr_set_fcsr (c : csr_file) (v : Z) : csr_file :=
  {| status := status c; isa := isa c; ie := ie c; ip := ip c; edeleg := edeleg c;
     ideleg := ideleg c; tvec := tvec c; scratch := scratch c; epc := epc c;
     cause := cause c; tval := tval c; counteren := counteren c;
     envcfg := envcfg c; mseccfg := mseccfg c; hartid := hartid c; fcsr := v |}.

(** What a CSR routine hands back: its boolean result, the hart as it
    leaves it, and the word left in [*dest]. *)
Record csr_ret := {
  ok : bool;
  hart_of : hart;
  dest_of : Z
}.

Definition ret (b : bool) (vm : hart) (d : Z) : csr_ret :=
  {| ok := b; hart_of := vm; dest_of := d |}.

(** Modelled from the spec: [riscv_csr_readonly] is declared in a header
    outside the sources; "CSR is read-only (upper two bits of csr_id =
    11)". *)
Definition riscv_csr_readonly (csr_id : Z) : bool :=
  bit_cut csr_id 10 2 =? 3.

(** Modelled from the spec: [riscv_csr_privilege], "(csr_id >> 8) & 3". *)
Definition riscv_csr_privilege (csr_id : Z) : Z :=
  Z.land (Z.shiftr csr_id 8) 3.

(** [riscv_mkmisa] on an ISA string without an "rv32"/"rv64" prefix, as
    [riscv_csr_misa] calls it: one bit per lower-case letter up to the
    first underscore.  The shift is done in [int]. *)
Fixpoint riscv_mkmisa (str : string) : Z :=
  match str with
  | EmptyString => 0
  | String ch rest =>
      if Ascii.eqb ch "_"%char then 0
      else
        let n := Z.of_nat (nat_of_ascii ch) in
        if (97 <=? n) && (n <=? 122)
        then Z.lor (wrap64 (Z.shiftl 1 (n - 97))) (riscv_mkmisa rest)
        else riscv_mkmisa rest
  end.

(** [riscv_csr_helper_masked] on the cell [*csr]: the new cell and the
    word left in [*dest]. *)
Definition riscv_csr_helper_masked (is64 : bool) (csr_v dest mask : Z)
    (op : csr_op_kind) : Z * Z :=
  let tmp := csr_v in
  let mask := if is64 then mask else Z.land mask 0xFFFFFFFF in
  let csr' :=
    match op with
    | CSR_SWAP => Z.lor (Z.land csr_v (Z.lnot mask)) (Z.land dest mask)
    | CSR_SETBITS => Z.lor csr_v (Z.land dest mask)
    | CSR_CLEARBITS => Z.land csr_v (Z.lnot (Z.land dest mask))
    end in
  (csr', Z.land tmp mask).

Definition riscv_csr_helper (is64 : bool) (csr_v dest : Z) (op : csr_op_kind) : Z * Z :=
  if is64 then
    let tmp := csr_v in
    let csr' :=
      match op with
      | CSR_SWAP => dest
      | CSR_SETBITS => Z.lor csr_v dest
      | CSR_CLEARBITS => Z.land csr_v (Z.lnot dest)
      end in
    (csr', tmp)
  else riscv_csr_helper_masked is64 csr_v dest maxlen_max op.

Definition riscv_csr_helper_l (is64 : bool) (csr_v dest mask : Z)
    (op : csr_op_kind) : Z * Z :=
  let '(tmp, dest') := riscv_csr_helper_masked is64 csr_v dest mask op in
  if is64 then (tmp, dest') else (bit_replace csr_v 0 32 tmp, dest').

(** [None] is the [return false] of the RV64 case, which leaves [*csr]
    and [*dest] alone. *)
Definition riscv_csr_helper_h (is64 : bool) (csr_v dest mask : Z)
    (op : csr_op_kind) : option (Z * Z) :=
  if negb is64 then
    let '(tmp, dest') :=
      riscv_csr_helper_masked is64 (Z.shiftr csr_v 32) dest (Z.shiftr mask 32) op in
    Some (bit_replace csr_v 32 32 tmp, dest')
  else None.

Definition riscv_csr_const (vm : hart) (val : Z) : csr_ret := ret true vm val.
Definition riscv_csr_zero (vm : hart) : csr_ret := riscv_csr_const vm 0.
Definition riscv_csr_zero_h (vm : hart) (dest : Z) : csr_ret :=
  if negb (rv64 vm) then riscv_csr_const vm 0 else ret false vm dest.

Definition riscv_csr_sd_bit (vm : hart) : Z :=
  if rv64 vm then 0x8000000000000000 else 0x80000000.

Definition EVAL_MAX (a b : Z) : Z := if a <? b then b else a.

Definition fpu_get_exceptions (f : host_fenv) : Z :=
  let r0 := 0 in
  let r1 := if fe_inexact f then Z.lor r0 FFLAG_NX else r0 in
  let r2 := if fe_underflow f then Z.lor r1 FFLAG_UF else r1 in
  let r3 := if fe_overflow f then Z.lor r2 FFLAG_OF else r2 in
  let r4 := if fe_divbyzero f then Z.lor r3 FFLAG_DZ else r3 in
  if fe_invalid f then Z.lor r4 FFLAG_NV else r4.

Definition feclearexcept_all (f : host_fenv) : host_fenv :=
  {| fe_inexact := false; fe_underflow := false; fe_overflow := false;
     fe_divbyzero := false; fe_invalid := false; fe_round := fe_round f |}.

Definition fesetround (f : host_fenv) (r : host_round) : host_fenv :=
  {| fe_inexact := fe_inexact f; fe_underflow := fe_underflow f;
     fe_overflow := fe_overflow f; fe_divbyzero := fe_divbyzero f;
     fe_invalid := fe_invalid f; fe_round := r |}.

Definition fpu_set_rm (f : host_fenv) (newrm : Z) : host_fenv :=
  match newrm with
  | 0 => fesetround f FE_TONEAREST
  | 1 => fesetround f FE_TOWARDZERO
  | 2 => fesetround f FE_DOWNWARD
  | 3 => fesetround f FE_UPWARD
  | 4 => fesetround f FE_TONEAREST
  | _ => f
  end.

Definition riscv_csr_set_fcsr (vm : hart) (fcsr_v : Z) : hart :=
  if negb (fcsr_v =? fcsr (csr vm)) then
    let f1 :=
      if negb (Z.land (Z.lnot (bit_cut fcsr_v 0 5)) (fpu_get_exceptions (fenv vm)) =? 0)
      then feclearexcept_all (fenv vm) else fenv vm in
    let f2 :=
      if negb (bit_cut fcsr_v 5 3 =? bit_cut (fcsr (csr vm)) 5 3)
      then fpu_set_rm f1 (bit_cut fcsr_v 5 3) else f1 in
    with_csr (with_fenv vm f2) (csr_set_fcsr (csr vm) fcsr_v)
  else vm.

(** Everything the CSR file reaches outside riscv_csr.c: build options,
    the write masks of the CSR header, command-line switches, and the
    hart, timer and interrupt routines of other translation units. *)
Record csr_env := {
  USE_FPU : bool;
  USE_PRECISE_FS : bool;
  CSR_SSTATUS_MASK : Z;
  CSR_MSTATUS_MASK : Z;
  CSR_SEIP_MASK : Z;
  CSR_MEIP_MASK : Z;
  CSR_COUNTEREN_MASK : Z;
  CSR_SENVCFG_MASK : Z;
  CSR_MENVCFG_MASK : Z;
  CSR_MSECCFG_MASK : Z;
  CSR_MEDELEG_MASK : Z;
  CSR_MIDELEG_MASK : Z;
  rvvm_has_arg : string -> bool;
  rvvm_mimpid : Z;
  riscv_csr_timer_enabled : hart -> bool;
  riscv_csr_seed_enabled : hart -> bool;
  riscv_csr_sstc_enabled : hart -> bool;
  fpu_is_enabled : hart -> bool;
  rvtimer_get : hart -> Z;
  rvvm_randombytes : hart -> Z;
  riscv_interrupts_raised : hart -> Z;
  rvtimecmp_pending : hart -> bool;
  riscv_hart_check_interrupts : hart -> hart;
  riscv_update_xlen : hart -> hart;
  riscv_tlb_flush : hart -> hart;
  riscv_interrupt : hart -> Z -> hart;
  riscv_interrupt_clear : hart -> Z -> hart
}.

Definition riscv_csr_time (E : csr_env) (vm : hart) (dest : Z) : csr_ret :=
  if riscv_csr_timer_enabled E vm then riscv_csr_const vm (rvtimer_get E vm)
  else ret false vm dest.

Definition riscv_csr_timeh (E : csr_env) (vm : hart) (dest : Z) : csr_ret :=
  if negb (rv64 vm) && riscv_csr_timer_enabled E vm
  then riscv_csr_const vm (Z.shiftr (rvtimer_get E vm) 32)
  else ret false vm dest.

Definition riscv_csr_seed (E : csr_env) (vm : hart) (dest : Z) : csr_ret :=
  if riscv_csr_seed_enabled E vm
  then riscv_csr_const vm (rvvm_randombytes E vm mod 2 ^ 16)
  else ret false vm dest.

Definition riscv_csr_misa (E : csr_env) (vm : hart) (dest : Z) (op : csr_op_kind) : csr_ret :=
  let misa0 :=
    Z.lor (isa (csr vm))
          (riscv_mkmisa (if USE_FPU E then "imafdcbsu" else "imacbsu")%string) in
  let '(misa, dest') := riscv_csr_helper (rv64 vm) misa0 dest op in
  let vm' :=
    if negb (Z.land (isa (csr vm)) CSR_MISA_RV64 =? 0)
       && negb (Z.land misa CSR_MISA_RV32 =? 0) then
      riscv_update_xlen E (with_csr vm (csr_set_isa (csr vm) CSR_MISA_RV32))
    else if negb (Z.land (isa (csr vm)) CSR_MISA_RV32 =? 0)
            && negb (Z.land misa (Z.shiftr CSR_MISA_RV64 32) =? 0) then
      if machine_rv64 vm
      then riscv_update_xlen E (with_csr vm (csr_set_isa (csr vm) CSR_MISA_RV64))
      else vm
    else vm in
  ret true vm' dest'.

(** The field validation of [riscv_csr_status], applied to the word the
    masked helper produced. *)
Definition status_validate (E : csr_env) (vm : hart) (status0 : Z) : Z :=
  let s1 :=
    if machine_rv64 vm then
      let uxl := bit_cut status0 32 2 in
      let sa := if negb (uxl =? 1) && negb (uxl =? 2)
                then bit_replace status0 32 2 2 else status0 in
      let sxl := bit_cut sa 34 2 in
      if negb (sxl =? 1) && negb (sxl =? 2) then bit_replace sa 34 2 2 else sa
    else status0 in
  let mpp := bit_cut s1 11 2 in
  let s2 := if mpp =? 2 then bit_replace s1 11 2 0 else s1 in
  let fs0 := bit_cut s2 13 2 in
  let '(fs, s3) :=
    if USE_FPU E then
      if negb (USE_PRECISE_FS E) && negb (fs0 =? FS_OFF) && negb (fs0 =? FS_DIRTY)
      then (FS_DIRTY, bit_replace s2 13 2 FS_DIRTY) else (fs0, s2)
    else
      if negb (fs0 =? FS_OFF) then (FS_OFF, bit_replace s2 13 2 FS_OFF) else (fs0, s2) in
  let vs0 := bit_cut s3 9 2 in
  let '(vs, s4) :=
    if negb (vs0 =? FS_OFF) then (FS_OFF, bit_replace s3 9 2 FS_OFF) else (vs0, s3) in
  let xs := EVAL_MAX fs vs in
  bit_replace s4 15 2 xs.

Definition riscv_csr_status (E : csr_env) (vm : hart) (dest mask : Z)
    (op : csr_op_kind) : csr_ret :=
  let old_status := status (csr vm) in
  let '(status0, dest0) := riscv_csr_helper_masked (rv64 vm) old_status dest mask op in
  let status' := status_validate E vm status0 in
  let vm1 := with_csr vm (csr_set_status (csr vm) status') in
  let dest1 :=
    if bit_cut old_status 15 2 =? FS_DIRTY
    then Z.lor dest0 (riscv_csr_sd_bit vm1) else dest0 in
  let vm2 :=
    if negb (Z.land (bit_cut status' 0 4) (Z.lnot (bit_cut old_status 0 4)) =? 0)
    then riscv_hart_check_interrupts E vm1 else vm1 in
  ret true vm2 dest1.

Definition riscv_csr_ie (E : csr_env) (vm : hart) (dest mask : Z)
    (op : csr_op_kind) : csr_ret :=
  let '(v, dest') := riscv_csr_helper_masked (rv64 vm) (ie (csr vm)) dest mask op in
  ret true (riscv_hart_check_interrupts E (with_csr vm (csr_set_ie (csr vm) v))) dest'.

Definition riscv_csr_ip (E : csr_env) (vm : hart) (dest mask : Z)
    (op : csr_op_kind) : csr_ret :=
  let '(v, dest') := riscv_csr_helper_masked (rv64 vm) (ip (csr vm)) dest mask op in
  let vm1 := with_csr vm (csr_set_ip (csr vm) v) in
  let dest'' := Z.lor dest' (Z.land (riscv_interrupts_raised E vm1) mask) in
  ret true (riscv_hart_check_interrupts E vm1) dest''.

Definition riscv_csr_stimecmp_set (E : csr_env) (vm : hart) (t : Z) : hart :=
  let vm1 := with_stimecmp vm t in
  if rvtimecmp_pending E vm1 then riscv_interrupt E vm1 INTERRUPT_STIMER
  else riscv_interrupt_clear E vm1 INTERRUPT_STIMER.

Definition riscv_csr_stimecmp (E : csr_env) (vm : hart) (dest : Z)
    (op : csr_op_kind) : csr_ret :=
  if riscv_csr_sstc_enabled E vm then
    let '(t, dest') := riscv_csr_helper_l (rv64 vm) (stimecmp vm) dest maxlen_max op in
    ret true (riscv_csr_stimecmp_set E vm t) dest'
  else ret false vm dest.

Definition riscv_csr_stimecmph (E : csr_env) (vm : hart) (dest : Z)
    (op : csr_op_kind) : csr_ret :=
  if negb (rv64 vm) && riscv_csr_sstc_enabled E vm then
    match riscv_csr_helper_h (rv64 vm) (stimecmp vm) dest maxlen_max op with
    | Some (t, dest') => ret true (riscv_csr_stimecmp_set E vm t) dest'
    | None => ret true (riscv_csr_stimecmp_set E vm (stimecmp vm)) dest
    end
  else ret false vm dest.

(** The mode [riscv_csr_satp] keeps on RV64 for the four mode bits
    written. *)
Definition satp_mode64 (E : csr_env) (m : Z) : Z :=
  if (m <? CSR_SATP_MODE_SV39) || (m >? CSR_SATP_MODE_SV57)
     || ((m =? CSR_SATP_MODE_SV48) && negb (rvvm_has_arg E "sv48"))
     || ((m =? CSR_SATP_MODE_SV57) && negb (rvvm_has_arg E "sv57"))
  then CSR_SATP_MODE_PHYS else m.

Definition riscv_csr_satp (E : csr_env) (vm : hart) (dest : Z)
    (op : csr_op_kind) : csr_ret :=
  let prev_mmu := mmu_mode vm in
  if negb (Z.land (status (csr vm)) CSR_STATUS_TVM =? 0) then ret false vm dest
  else
    let '(vm1, dest') :=
      if rv64 vm then
        let satp0 := Z.lor (wrap64 (Z.shiftl (mmu_mode vm) 60))
                           (Z.shiftr (root_page_table vm) MMU_PAGE_SHIFT) in
        let '(satp, d) := riscv_csr_helper (rv64 vm) satp0 dest op in
        (with_mmu vm (satp_mode64 E (bit_cut satp 60 4))
                     (wrap64 (Z.shiftl (Z.land satp (bit_mask 44)) MMU_PAGE_SHIFT)), d)
      else
        let satp0 := Z.lor (wrap64 (Z.shiftl (mmu_mode vm) 31))
                           (Z.shiftr (root_page_table vm) MMU_PAGE_SHIFT) in
        let '(satp, d) := riscv_csr_helper (rv64 vm) satp0 dest op in
        (with_mmu vm (bit_cut satp 31 1)
                     (wrap64 (Z.shiftl (Z.land satp (bit_mask 22)) MMU_PAGE_SHIFT)), d) in
    if negb (Bool.eqb (negb (mmu_mode vm1 =? 0)) (negb (prev_mmu =? 0)))
    then ret true (riscv_tlb_flush E vm1) dest'
    else ret true vm1 dest'.

Definition fcsr_merge_host (vm : hart) : hart :=
  with_csr vm (csr_set_fcsr (csr vm)
                 (Z.lor (fcsr (csr vm)) (fpu_get_exceptions (fenv vm)))).

Definition riscv_csr_fflags (E : csr_env) (vm : hart) (dest : Z)
    (op : csr_op_kind) : csr_ret :=
  if negb (fpu_is_enabled E vm) then ret false vm dest
  else
    let vm1 := fcsr_merge_host vm in
    let '(f, dest') := riscv_csr_helper_masked (rv64 vm1) (fcsr (csr vm1)) dest 0x1F op in
    ret true (riscv_csr_set_fcsr vm1 f) dest'.

Definition riscv_csr_frm (E : csr_env) (vm : hart) (dest : Z)
    (op : csr_op_kind) : csr_ret :=
  if negb (fpu_is_enabled E vm) then ret false vm dest
  else
    let f0 := fcsr (csr vm) in
    let '(frm, dest') := riscv_csr_helper_masked (rv64 vm) (Z.shiftr f0 5) dest 0x7 op in
    ret true (riscv_csr_set_fcsr vm (bit_replace f0 5 3 frm)) dest'.

Definition riscv_csr_fcsr (E : csr_env) (vm : hart) (dest : Z)
    (op : csr_op_kind) : csr_ret :=
  if negb (fpu_is_enabled E vm) then ret false vm dest
  else
    let vm1 := fcsr_merge_host vm in
    let '(f, dest') := riscv_csr_helper_masked (rv64 vm1) (fcsr (csr vm1)) dest 0xFF op in
    ret true (riscv_csr_set_fcsr vm1 f) dest'.

(** A dispatch case [riscv_csr_helper(vm, &vm->csr.field[priv], dest, op)]. *)
Definition csr_direct (get : csr_file -> nat -> Z)
    (set : csr_file -> (nat -> Z) -> csr_file) (priv : nat)
    (vm : hart) (dest : Z) (op : csr_op_kind) : csr_ret :=
  let '(v, dest') := riscv_csr_helper (rv64 vm) (get (csr vm) priv) dest op in
  ret true (with_csr vm (set (csr vm) (store (get (csr vm)) priv v))) dest'.

(** A dispatch case [riscv_csr_helper_masked(vm, &vm->csr.field[priv], dest, mask, op)]. *)
Definition csr_masked (get : csr_file -> nat -> Z)
    (set : csr_file -> (nat -> Z) -> csr_file) (priv : nat) (mask : Z)
    (vm : hart) (dest : Z) (op : csr_op_kind) : csr_ret :=
  let '(v, dest') := riscv_csr_helper_masked (rv64 vm) (get (csr vm) priv) dest mask op in
  ret true (with_csr vm (set (csr vm) (store (get (csr vm)) priv v))) dest'.

Definition csr_envcfg_l (priv : nat) (mask : Z)
    (vm : hart) (dest : Z) (op : csr_op_kind) : csr_ret :=
  let '(v, dest') := riscv_csr_helper_l (rv64 vm) (envcfg (csr vm) priv) dest mask op in
  ret true (with_csr vm (csr_set_envcfg (csr vm) (store (envcfg (csr vm)) priv v))) dest'.

Definition csr_envcfg_h (priv : nat) (mask : Z)
    (vm : hart) (dest : Z) (op : csr_op_kind) : csr_ret :=
  match riscv_csr_helper_h (rv64 vm) (envcfg (csr vm) priv) dest mask op with
  | Some (v, dest') =>
      ret true (with_csr vm (csr_set_envcfg (csr vm) (store (envcfg (csr vm)) priv v))) dest'
  | None => ret false vm dest
  end.

Definition csr_mseccfg_l (mask : Z) (vm : hart) (dest : Z) (op : csr_op_kind) : csr_ret :=
  let '(v, dest') := riscv_csr_helper_l (rv64 vm) (mseccfg (csr vm)) dest mask op in
  ret true (with_csr vm (csr_set_mseccfg (csr vm) v)) dest'.

Definition csr_mseccfg_h (mask : Z) (vm : hart) (dest : Z) (op : csr_op_kind) : csr_ret :=
  match riscv_csr_helper_h (rv64 vm) (mseccfg (csr vm)) dest mask op with
  | Some (v, dest') => ret true (with_csr vm (csr_set_mseccfg (csr vm) v)) dest'
  | None => ret false vm dest
  end.

Definition riscv_csr_op_internal (E : csr_env) (vm : hart) (csr_id dest : Z)
    (op : csr_op_kind) : csr_ret :=
  match csr_id with
  (* User Floating-Point CSRs *)
  | CSR_FFLAGS => if USE_FPU E then riscv_csr_fflags E vm dest op else ret false vm dest
  | CSR_FRM => if USE_FPU E then riscv_csr_frm E vm dest op else ret false vm dest
  | CSR_FCSR => if USE_FPU E then riscv_csr_fcsr E vm dest op else ret false vm dest
  (* Unprivileged Entropy Source CSR *)
  | CSR_SEED => riscv_csr_seed E vm dest
  (* User Counters / Timers *)
  | CSR_CYCLE => riscv_csr_zero vm
  | CSR_CYCLEH => riscv_csr_zero_h vm dest
  | CSR_TIME => riscv_csr_time E vm dest
  | CSR_TIMEH => riscv_csr_timeh E vm dest
  | CSR_INSTRET => riscv_csr_zero vm
  | CSR_INSTRETH => riscv_csr_zero_h vm dest
  (* Supervisor Trap Setup *)
  | CSR_SSTATUS => riscv_csr_status E vm dest (CSR_SSTATUS_MASK E) op
  | CSR_SIE => riscv_csr_ie E vm dest (CSR_SEIP_MASK E) op
  | CSR_STVEC => csr_direct tvec csr_set_tvec PRIVILEGE_SUPERVISOR vm dest op
  | CSR_SCOUNTEREN =>
      csr_masked counteren csr_set_counteren PRIVILEGE_SUPERVISOR
                 (CSR_COUNTEREN_MASK E) vm dest op
  (* Supervisor Configuration *)
  | CSR_SENVCFG => csr_envcfg_l PRIVILEGE_SUPERVISOR (CSR_SENVCFG_MASK E) vm dest op
  (* Supervisor Trap Handling *)
  | CSR_SSCRATCH => csr_direct scratch csr_set_scratch PRIVILEGE_SUPERVISOR vm dest op
  | CSR_SEPC => csr_direct epc csr_set_epc PRIVILEGE_SUPERVISOR vm dest op
  | CSR_SCAUSE => csr_direct cause csr_set_cause PRIVILEGE_SUPERVISOR vm dest op
  | CSR_STVAL => csr_direct tval csr_set_tval PRIVILEGE_SUPERVISOR vm dest op
  | CSR_SIP => riscv_csr_ip E vm dest (CSR_SEIP_MASK E) op
  | CSR_STIMECMP => riscv_csr_stimecmp E vm dest op
  | CSR_STIMECMPH => riscv_csr_stimecmph E vm dest op
  (* Supervisor Protection and Translation *)
  | CSR_SATP => riscv_csr_satp E vm dest op
  (* Machine Information Registers *)
  | CSR_MVENDORID => riscv_csr_zero vm
  | CSR_MARCHID => riscv_csr_const vm 0x5256564D
  | CSR_MIMPID => riscv_csr_const vm (rvvm_mimpid E)
  | CSR_MHARTID => riscv_csr_const vm (hartid (csr vm))
  (* Machine Trap Setup *)
  | CSR_MSTATUS => riscv_csr_status E vm dest (CSR_MSTATUS_MASK E) op
  | CSR_MSTATUSH => riscv_csr_zero vm
  | CSR_MISA => riscv_csr_misa E vm dest op
  | CSR_MEDELEG =>
      csr_masked edeleg csr_set_edeleg PRIVILEGE_MACHINE (CSR_MEDELEG_MASK E) vm dest op
  | CSR_MIDELEG =>
      csr_masked ideleg csr_set_ideleg PRIVILEGE_MACHINE (CSR_MIDELEG_MASK E) vm dest op
  | CSR_MIE => riscv_csr_ie E vm dest (CSR_MEIP_MASK E) op
  | CSR_MTVEC => csr_direct tvec csr_set_tvec PRIVILEGE_MACHINE vm dest op
  | CSR_MCOUNTEREN =>
      csr_masked counteren csr_set_counteren PRIVILEGE_MACHINE
                 (CSR_COUNTEREN_MASK E) vm dest op
  (* Machine Trap Handling *)
  | CSR_MSCRATCH => csr_direct scratch csr_set_scratch PRIVILEGE_MACHINE vm dest op
  | CSR_MEPC => csr_direct epc csr_set_epc PRIVILEGE_MACHINE vm dest op
  | CSR_MCAUSE => csr_direct cause csr_set_cause PRIVILEGE_MACHINE vm dest op
  | CSR_MTVAL => csr_direct tval csr_set_tval PRIVILEGE_MACHINE vm dest op
  | CSR_MIP => riscv_csr_ip E vm dest (CSR_MEIP_MASK E) op
  (* Machine Configuration *)
  | CSR_MENVCFG => csr_envcfg_l PRIVILEGE_MACHINE (CSR_MENVCFG_MASK E) vm dest op
  | CSR_MENVCFGH => csr_envcfg_h PRIVILEGE_MACHINE (CSR_MENVCFG_MASK E) vm dest op
  | CSR_MSECCFG => csr_mseccfg_l (CSR_MSECCFG_MASK E) vm dest op
  | CSR_MSECCFGH => csr_mseccfg_h (CSR_MSECCFG_MASK E) vm dest op
  (* Machine Memory Protection: pmpcfg0..3, pmpaddr0..15 *)
  | 0x3A0 | 0x3A1 | 0x3A2 | 0x3A3 => riscv_csr_zero vm
  | 0x3B0 | 0x3B1 | 0x3B2 | 0x3B3 | 0x3B4 | 0x3B5 | 0x3B6 | 0x3B7
    | 0x3B8 | 0x3B9 | 0x3BA | 0x3BB | 0x3BC | 0x3BD | 0x3BE | 0x3BF => riscv_csr_zero vm
  (* Machine Counters/Timers: mcycle, minstret, mhpmcounter3..31 *)
  | CSR_MCYCLE | CSR_MINSTRET
    | 0xB03 | 0xB04 | 0xB05 | 0xB06 | 0xB07 | 0xB08 | 0xB09 | 0xB0A
    | 0xB0B | 0xB0C | 0xB0D | 0xB0E | 0xB0F | 0xB10 | 0xB11 | 0xB12
    | 0xB13 | 0xB14 | 0xB15 | 0xB16 | 0xB17 | 0xB18 | 0xB19 | 0xB1A
    | 0xB1B | 0xB1C | 0xB1D | 0xB1E | 0xB1F => riscv_csr_zero vm
  | CSR_MCYCLEH | CSR_MINSTRETH
    | 0xB83 | 0xB84 | 0xB85 | 0xB86 | 0xB87 | 0xB88 | 0xB89 | 0xB8A
    | 0xB8B | 0xB8C | 0xB8D | 0xB8E | 0xB8F | 0xB90 | 0xB91 | 0xB92
    | 0xB93 | 0xB94 | 0xB95 | 0xB96 | 0xB97 | 0xB98 | 0xB99 | 0xB9A
    | 0xB9B | 0xB9C | 0xB9D | 0xB9E | 0xB9F => riscv_csr_zero_h vm dest
  (* Machine Counter Setup *)
  | CSR_MCOUNTINHIBIT => riscv_csr_zero vm
  | _ => ret false vm dest
  end.

Definition is_swap (op : csr_op_kind) : bool :=
  match op with CSR_SWAP => true | _ => false end.

Definition riscv_csr_op (E : csr_env) (vm : hart) (csr_id dest : Z)
    (op : csr_op_kind) : csr_ret :=
  if riscv_csr_readonly csr_id && (is_swap op || negb (dest =? 0)) then ret false vm dest
  else if riscv_csr_privilege csr_id >? priv_mode vm then ret false vm dest
  else
    let r := riscv_csr_op_internal E vm csr_id dest op in
    if negb (rv64 (hart_of r)) then ret (ok r) (hart_of r) (sext32 (dest_of r)) else r.

End Csr.

(** ** src/rvjit/rvjit.c *)

Module Rvjit.

Inductive linkage_t := LINKAGE_NONE | LINKAGE_TAIL | LINKAGE_JMP.

(** [block->heap].  [heap_bytes] is the content of the code heap by host
    address; [blocks] maps a physical PC to its entry point and
    [block_links] a physical PC to the patch sites waiting for it.  The
    two bit matrices are [None] while the pointer is NULL. *)
Record rvjit_heap := {
  heap_data : Z;
  heap_code : Z;
  heap_size : Z;
  heap_curr : Z;
  heap_bytes : gmap Z Z;
  blocks : gmap Z Z;
  block_links : gmap Z (list Z);
  dirty_pages : option (list Z);
  jited_pages : option (list Z);
  dirty_mask : Z
}.

Section Block.

(** Modelled from the spec: [rvjit_emit_init] and the fields of the
    block it touches belong to the emitter header, which is not part of
    the sources; "block_init: reset the per-block emit buffer and link
    list".  The emitter state is one field, put back to a fixed initial
    value. *)
Variable emit_t : Type.
Variable rvjit_emit_init_state : emit_t.

Record rvjit_block := {
  heap : rvjit_heap;
  code : list Z;
  size : Z;
  linkage : linkage_t;
  links : list (Z * Z);
  phys_pc : Z;
  rv64 : bool;
  emit : emit_t
}.

Definition with_heap (b : rvjit_block) (h : rvjit_heap) : rvjit_block :=
  {| heap := h; code := code b; size := size b; linkage := linkage b;
     links := links b; phys_pc := phys_pc b; rv64 := rv64 b; emit := emit b |}.

Definition heap_set_dirty (h : rvjit_heap) (d : option (list Z)) : rvjit_heap :=
  {| heap_data := heap_data h; heap_code := heap_code h; heap_size := heap_size h;
     heap_curr := heap_curr h; heap_bytes := heap_bytes h; blocks := blocks h;
     block_links := block_links h; dirty_pages := d;
     jited_pages := jited_pages h; dirty_mask := dirty_mask h |}.

Definition heap_set_jited (h : rvjit_heap) (j : option (list Z)) : rvjit_heap :=
  {| heap_data := heap_data h; heap_code := heap_code h; heap_size := heap_size h;
     heap_curr := heap_curr h; heap_bytes := heap_bytes h; blocks := blocks h;
     block_links := block_links h; dirty_pages := dirty_pages h;
     jited_pages := j; dirty_mask := dirty_mask h |}.

Definition heap_set_maps (h : rvjit_heap) (bl : gmap Z Z) (ln : gmap Z (list Z))
    : rvjit_heap :=
  {| heap_data := heap_data h; heap_code := heap_code h; heap_size := heap_size h;
     heap_curr := heap_curr h; heap_bytes := heap_bytes h; blocks := bl;
     block_links := ln; dirty_pages := dirty_pages h;
     jited_pages := jited_pages h; dirty_mask := dirty_mask h |}.

(** A word of a bit matrix and a store into it.  The arrays have
    [dirty_mask + 1] words, so the masked offset is in range; outside the
    array the model reads zero and stores nothing. *)
Definition word_at (a : option (list Z)) (i : Z) : Z :=
  match a with
  | Some l => default 0 (l !! Z.to_nat i)
  | None => 0
  end.

Definition word_set (a : option (list Z)) (i v : Z) : option (list Z) :=
  match a with
  | Some l => Some (<[Z.to_nat i := v]> l)
  | None => None
  end.

Definition page_offset (h : rvjit_heap) (addr : Z) : Z :=
  Z.land (Z.shiftr addr 17) (dirty_mask h).

Definition page_bit (addr : Z) : Z :=
  shl32 1 (Z.land (Z.shiftr addr 12) 0x1F).

Definition not32 (m : Z) : Z := wrap32 (Z.lnot m).

Definition rvjit_mark_jited_page (b : rvjit_block) (addr : Z) : rvjit_block :=
  match jited_pages (heap b) with
  | None => b
  | Some _ =>
      let offset := page_offset (heap b) addr in
      let mask := page_bit addr in
      with_heap b (heap_set_jited (heap b)
        (word_set (jited_pages (heap b)) offset
                  (Z.lor (word_at (jited_pages (heap b)) offset) mask)))
  end.

Definition rvjit_mark_dirty_page (b : rvjit_block) (addr : Z) : rvjit_block :=
  let h := heap b in
  let offset := page_offset h addr in
  let mask := page_bit addr in
  if negb (Z.land (word_at (jited_pages h) offset) mask =? 0) then
    let h1 := heap_set_dirty h
                (word_set (dirty_pages h) offset
                          (Z.lor (word_at (dirty_pages h) offset) mask)) in
    let h2 := heap_set_jited h1
                (word_set (jited_pages h1) offset
                          (Z.land (word_at (jited_pages h1) offset) (not32 mask))) in
    with_heap b h2
  else b.

(** The loop [for (i = 0; i < size; i += 4096)] of
    [rvjit_mark_dirty_mem], [n] iterations from offset [i]. *)
Fixpoint mark_dirty_loop (n : nat) (b : rvjit_block) (addr i : Z) : rvjit_block :=
  match n with
  | O => b
  | S n' => mark_dirty_loop n' (rvjit_mark_dirty_page b (addr + i)) addr (i + 4096)
  end.

(** Number of iterations of that loop: the [i] in [0, 4096, ...] below
    [size]. *)
Definition mark_dirty_count (size : Z) : nat := Z.to_nat ((size + 4095) / 4096).

Definition rvjit_mark_dirty_mem (b : rvjit_block) (addr size : Z) : rvjit_block :=
  match dirty_pages (heap b) with
  | None => b
  | Some _ => mark_dirty_loop (mark_dirty_count size) b addr 0
  end.

(** [rvjit_page_needs_flush]: the answer and the heap after the
    read-and-clear of the dirty bit. *)
Definition rvjit_page_needs_flush (b : rvjit_block) (addr : Z) : bool * rvjit_block :=
  let h := heap b in
  let offset := page_offset h addr in
  let mask := page_bit addr in
  match dirty_pages h with
  | None => (false, b)
  | Some _ =>
      let old := word_at (dirty_pages h) offset in
      if negb (Z.land old mask =? 0) then
        (negb (Z.land old mask =? 0),
         with_heap b (heap_set_dirty h
           (word_set (dirty_pages h) offset (Z.land old (not32 mask)))))
      else (false, b)
  end.

(** The loop [for (i = 0; i < 4096; ++i)] of [rvjit_block_lookup] over
    the two registries, [n] iterations from [phys_pc + i]. *)
Fixpoint lookup_flush_loop (n : nat) (bl : gmap Z Z) (ln : gmap Z (list Z))
    (phys_pc i : Z) : gmap Z Z * gmap Z (list Z) :=
  match n with
  | O => (bl, ln)
  | S n' =>
      let bl' := delete (phys_pc + i) bl in
      let ln' := match ln !! (phys_pc + i) with
                 | Some _ => delete (phys_pc + i) ln
                 | None => ln
                 end in
      lookup_flush_loop n' bl' ln' phys_pc (i + 1)
  end.

(** [hashmap_get] on the block registry: zero stands for the null
    pointer. *)
Definition hashmap_get (m : gmap Z Z) (k : Z) : Z := default 0 (m !! k).

Definition rvjit_block_lookup (b : rvjit_block) (phys_pc : Z) : Z * rvjit_block :=
  match rvjit_page_needs_flush b phys_pc with
  | (true, b1) =>
      let page := Z.land phys_pc (wrap64 (Z.lnot 0xFFF)) in
      let '(bl, ln) :=
        lookup_flush_loop 4096 (blocks (heap b1)) (block_links (heap b1)) page 0 in
      (0, with_heap b1 (heap_set_maps (heap b1) bl ln))
  | (false, b1) => (hashmap_get (blocks (heap b1)) phys_pc, b1)
  end.

Definition rvjit_block_init (b : rvjit_block) : rvjit_block :=
  {| heap := heap b; code := code b; size := 0; linkage := LINKAGE_JMP;
     links := []; phys_pc := phys_pc b; rv64 := rv64 b;
     emit := rvjit_emit_init_state |}.

(** [rvjit_linker_cleanup]: every pending list is freed and the link
    registry emptied. *)
Definition rvjit_linker_cleanup (h : rvjit_heap) : rvjit_heap :=
  heap_set_maps h (blocks h) ∅.

(** The loop [for (i = 0; i <= dirty_mask; ++i) dirty_pages[i] = 0],
    [n] stores from index [i]. *)
Fixpoint clear_words (n i : nat) (l : list Z) : list Z :=
  match n with
  | O => l
  | S n' => clear_words n' (S i) (<[i := 0]> l)
  end.

(** [vma_clean(data, size, true)] gives the physical pages of the heap
    back: the mapping stays and reads as zero. *)
Definition vma_clean (h : rvjit_heap) : rvjit_heap :=
  {| heap_data := heap_data h; heap_code := heap_code h; heap_size := heap_size h;
     heap_curr := heap_curr h; heap_bytes := ∅; blocks := blocks h;
     block_links := block_links h; dirty_pages := dirty_pages h;
     jited_pages := jited_pages h; dirty_mask := dirty_mask h |}.

Definition rvjit_flush_cache (b : rvjit_block) : rvjit_block :=
  let h0 := heap b in
  let h1 := if heap_curr h0 >? 0x10000 then vma_clean h0 else h0 in
  let h2 := {| heap_data := heap_data h1; heap_code := heap_code h1;
               heap_size := heap_size h1; heap_curr := 0;
               heap_bytes := heap_bytes h1; blocks := ∅;
               block_links := block_links h1; dirty_pages := dirty_pages h1;
               jited_pages := jited_pages h1; dirty_mask := dirty_mask h1 |} in
  let h3 := rvjit_linker_cleanup h2 in
  let h4 := match dirty_pages h3 with
            | Some l =>
                heap_set_dirty h3
                  (Some (clear_words (Z.to_nat (dirty_mask h3 + 1)) 0 l))
            | None => h3
            end in
  rvjit_block_init (with_heap b h4).

(** Modelled from the spec: [bit_next_pow2] is defined in a header
    outside the sources; "returns the smallest power of two >= x".  The
    search doubles [p] from 1. *)
Fixpoint next_pow2_from (fuel : nat) (p x : Z) : Z :=
  match fuel with
  | O => p
  | S f => if x <=? p then p else next_pow2_from f (2 * p) x
  end.

Definition bit_next_pow2 (x : Z) : Z := next_pow2_from 64 1 x.

(** [rvjit_init_memtracking]: fresh zeroed matrices for [size] bytes of
    guest memory. *)
Definition rvjit_init_memtracking (b : rvjit_block) (size : Z) : rvjit_block :=
  let h := heap b in
  let m := bit_next_pow2 (Z.shiftr (size + 0x1FFFF) 17) - 1 in
  let z := repeat 0 (Z.to_nat (m + 1)) in
  with_heap b
    {| heap_data := heap_data h; heap_code := heap_code h; heap_size := heap_size h;
       heap_curr := heap_curr h; heap_bytes := heap_bytes h; blocks := blocks h;
       block_links := block_links h; dirty_pages := Some z;
       jited_pages := Some z; dirty_mask := m |}.

(** [rvjit_block_finalize] without the native linker: the emitted code
    ([rvjit_emit_end] has already closed it) is copied to the heap at
    [curr], the entry is published and the page marked.  [None] is the
    null result of a full cache.  [RvjitLinker.rvjit_block_finalize] is
    the routine with the emitter and the linker. *)
Fixpoint memcpy_heap (bytes : gmap Z Z) (dest : Z) (src : list Z) : gmap Z Z :=
  match src with
  | [] => bytes
  | x :: rest => memcpy_heap (<[dest := x]> bytes) (dest + 1) rest
  end.

Definition rvjit_block_finalize (b : rvjit_block) : option Z * rvjit_block :=
  let h := heap b in
  let dest := heap_data h + heap_curr h in
  let entry := heap_code h + heap_curr h in
  if heap_curr h + size b >? heap_size h then (None, b)
  else
    let h1 := {| heap_data := heap_data h; heap_code := heap_code h;
                 heap_size := heap_size h; heap_curr := heap_curr h + size b;
                 heap_bytes := memcpy_heap (heap_bytes h) dest
                                 (take (Z.to_nat (size b)) (code b));
                 blocks := <[phys_pc b := entry]> (blocks h);
                 block_links := block_links h; dirty_pages := dirty_pages h;
                 jited_pages := jited_pages h; dirty_mask := dirty_mask h |} in
    (Some entry, rvjit_mark_jited_page (with_heap b h1) (phys_pc b)).

End Block.

Arguments heap {emit_t} _.
Arguments with_heap {emit_t} _ _.
Arguments rvjit_mark_jited_page {emit_t} _ _.
Arguments rvjit_mark_dirty_page {emit_t} _ _.
Arguments mark_dirty_loop {emit_t} _ _ _ _.
Arguments rvjit_mark_dirty_mem {emit_t} _ _ _.
Arguments rvjit_page_needs_flush {emit_t} _ _.
Arguments rvjit_block_lookup {emit_t} _ _.
Arguments rvjit_block_init {emit_t} _ _.
Arguments rvjit_flush_cache {emit_t} _ _.
Arguments rvjit_init_memtracking {emit_t} _ _.
Arguments rvjit_block_finalize {emit_t} _.

End Rvjit.

(** ** src/main.c *)

Module Main.

Local Open Scope string_scope.

Record vm_args_t := {
  bootrom : option string;
  kernel : option string;
  dtb : option string;
  image : option string;
  mem : Z;
  smp : Z;
  rv64 : bool;
  sbi_align_fix : bool
}.

(** [vm_args_t args = {0}] *)
Definition args_zero : vm_args_t :=
  {| bootrom := None; kernel := None; dtb := None; image := None;
     mem := 0; smp := 0; rv64 := false; sbi_align_fix := false |}.

(** What the program prints or logs, in order. *)
Inductive output :=
| OutHelp
| OutUsage
| OutSetLoglevelInfo
| ErrInvalidCores (arg_val : string)
| ErrUnknownArgument (arg_name : string)
| ErrVmCreation
| ErrBootrom
| ErrDtb
| ErrImage (path : string).

Definition is_dash (s : string) : bool :=
  match s with
  | String c _ => Ascii.eqb c "-"%char
  | EmptyString => false
  end.

(** The text after the first ['='], if there is one. *)
Fixpoint after_equals (s : string) : option string :=
  match s with
  | EmptyString => None
  | String c rest => if Ascii.eqb c "="%char then Some rest else after_equals rest
  end.

(** [get_arg(argv, &arg_name, &arg_val)] on [argv[0] = a] and
    [argv[1] = next] ([None] for the terminating null pointer): the
    number of words consumed, the name and the value. *)
Definition get_arg (a : string) (next : option string) : nat * string * string :=
  match a with
  | String c rest =>
      if Ascii.eqb c "-"%char then
        let arg_name := if is_dash rest
                        then match rest with String _ r => r | EmptyString => rest end
                        else rest in
        match after_equals arg_name with
        | Some v => (1%nat, arg_name, v)
        | None =>
            match next with
            | None => (1%nat, arg_name, "")
            | Some n => if is_dash n then (1%nat, arg_name, "") else (2%nat, arg_name, n)
            end
        end
      else (1%nat, "bootrom", a)
  | EmptyString => (1%nat, "bootrom", a)
  end.

Definition mem_suffix_shift (suffix : ascii) : Z :=
  if Ascii.eqb suffix "k"%char then 10
  else if Ascii.eqb suffix "K"%char then 10
  else if Ascii.eqb suffix "M"%char then 20
  else if Ascii.eqb suffix "G"%char then 30
  else 0.

(** [cmp_arg]: [arg], up to its end or its first ['='], is a prefix of
    [name]. *)
Fixpoint cmp_arg (arg name : string) : bool :=
  match arg with
  | EmptyString => true
  | String c rest =>
      if Ascii.eqb c "="%char then true
      else match name with
           | String d nrest => if Ascii.eqb c d then cmp_arg rest nrest else false
           | EmptyString => false
           end
  end.

Definition is_space (c : ascii) : bool :=
  let n := nat_of_ascii c in
  Nat.eqb n 32 || (Nat.leb 9 n && Nat.leb n 13).

Definition digit_of (c : ascii) : option Z :=
  let n := nat_of_ascii c in
  if Nat.leb 48 n && Nat.leb n 57 then Some (Z.of_nat n - 48) else None.

Fixpoint atoi_digits (s : string) (acc : Z) : Z :=
  match s with
  | String c rest =>
      match digit_of c with
      | Some d => atoi_digits rest (10 * acc + d)
      | None => acc
      end
  | EmptyString => acc
  end.

(** [atoi]: white space, an optional sign, then the decimal digits, whose
    value is returned.  C defines the result only when an [int] holds that
    value. *)
Fixpoint atoi (s : string) : Z :=
  match s with
  | String c rest =>
      if is_space c then atoi rest
      else if Ascii.eqb c "-"%char then - atoi_digits rest 0
      else if Ascii.eqb c "+"%char then atoi_digits rest 0
      else atoi_digits s 0
  | EmptyString => 0
  end.

Fixpoint last_char (s : string) : option ascii :=
  match s with
  | EmptyString => None
  | String c EmptyString => Some c
  | String _ rest => last_char rest
  end.

(** [((size_t)atoi(arg_val)) << mem_suffix_shift(arg_val[strlen(arg_val)-1])].
    For an empty value the index is out of the string; the model takes
    shift 0 there. *)
Definition mem_of (arg_val : string) : Z :=
  let sh := match last_char arg_val with
            | Some c => mem_suffix_shift c
            | None => 0
            end in
  wrap64 (Z.shiftl (wrap64 (atoi arg_val)) sh).

Definition nonempty (s : string) : bool :=
  match s with EmptyString => false | _ => true end.

Definition set_dtb (a : vm_args_t) (v : string) : vm_args_t :=
  {| bootrom := bootrom a; kernel := kernel a; dtb := Some v; image := image a;
     mem := mem a; smp := smp a; rv64 := rv64 a; sbi_align_fix := sbi_align_fix a |}.
Definition set_image (a : vm_args_t) (v : string) : vm_args_t :=
  {| bootrom := bootrom a; kernel := kernel a; dtb := dtb a; image := Some v;
     mem := mem a; smp := smp a; rv64 := rv64 a; sbi_align_fix := sbi_align_fix a |}.
Definition set_bootrom (a : vm_args_t) (v : string) : vm_args_t :=
  {| bootrom := Some v; kernel := kernel a; dtb := dtb a; image := image a;
     mem := mem a; smp := smp a; rv64 := rv64 a; sbi_align_fix := sbi_align_fix a |}.
Definition set_kernel (a : vm_args_t) (v : string) : vm_args_t :=
  {| bootrom := bootrom a; kernel := Some v; dtb := dtb a; image := image a;
     mem := mem a; smp := smp a; rv64 := rv64 a; sbi_align_fix := sbi_align_fix a |}.
Definition set_mem (a : vm_args_t) (v : Z) : vm_args_t :=
  {| bootrom := bootrom a; kernel := kernel a; dtb := dtb a; image := image a;
     mem := v; smp := smp a; rv64 := rv64 a; sbi_align_fix := sbi_align_fix a |}.
Definition set_smp (a : vm_args_t) (v : Z) : vm_args_t :=
  {| bootrom := bootrom a; kernel := kernel a; dtb := dtb a; image := image a;
     mem := mem a; smp := v; rv64 := rv64 a; sbi_align_fix := sbi_align_fix a |}.
Definition set_rv64 (a : vm_args_t) (v : bool) : vm_args_t :=
  {| bootrom := bootrom a; kernel := kernel a; dtb := dtb a; image := image a;
     mem := mem a; smp := smp a; rv64 := v; sbi_align_fix := sbi_align_fix a |}.

(** What one pass of the [if]/[else if] chain of [parse_args] does with
    a name and a value: go on with the new arguments, or return false
    (with the arguments as they are at that point). *)
Inductive arg_step :=
| Continue (args : vm_args_t) (out : list output)
| Stop (args : vm_args_t) (out : list output).

Definition parse_one (arg_name arg_val : string) (args : vm_args_t) : arg_step :=
  if cmp_arg arg_name "dtb" then Continue (set_dtb args arg_val) []
  else if cmp_arg arg_name "image" then Continue (set_image args arg_val) []
  else if cmp_arg arg_name "bootrom" then Continue (set_bootrom args arg_val) []
  else if cmp_arg arg_name "kernel" then Continue (set_kernel args arg_val) []
  else if cmp_arg arg_name "mem" then
    if nonempty arg_name then Continue (set_mem args (mem_of arg_val)) []
    else Continue args []
  else if cmp_arg arg_name "smp" then
    let n := wrap32 (atoi arg_val) in
    if n >? 1024 then Stop (set_smp args n) [ErrInvalidCores arg_val]
    else Continue (set_smp args n) []
  else if cmp_arg arg_name "rv64" then Continue (set_rv64 args true) []
  else if cmp_arg arg_name "verbose" then Continue args [OutSetLoglevelInfo]
  else if cmp_arg arg_name "help" || cmp_arg arg_name "h" || cmp_arg arg_name "H"
  then Stop args [OutHelp]
  else Stop args [ErrUnknownArgument arg_name].

(** The loop [for (int i = 1; i < argc;)] over the words from [argv + i]
    on. *)
Fixpoint parse_loop (rest : list string) (args : vm_args_t)
    : bool * vm_args_t * list output :=
  match rest with
  | [] => (true, args, [])
  | a :: tl =>
      let '(n, arg_name, arg_val) := get_arg a (head tl) in
      match parse_one arg_name arg_val args with
      | Stop args' out => (false, args', out)
      | Continue args' out =>
          let '(r, args'', out') :=
            match n, tl with
            | 2%nat, _ :: tl' => parse_loop tl' args'
            | _, _ => parse_loop tl args'
            end in
          (r, args'', (out ++ out')%list)
      end
  end.

(** [parse_args(argc, argv, args)]; [argv] holds the program name and
    the words after it. *)
Definition parse_args (argv : list string) (args : vm_args_t)
    : bool * vm_args_t * list output :=
  parse_loop (tail argv) (set_mem (set_smp args 1) (Z.shiftl 256 20)).

(** The host side of [rvvm_run_with_args]: whether the machine can be
    created and whether a file loads into its RAM. *)
Record host := {
  rvvm_create_machine : Z -> Z -> bool -> bool;
  load_file_to_ram : string -> bool;
  fopen_image : string -> bool
}.

(** [rvvm_run_with_args]: the value returned, once the event loop has
    come back from a machine that was started. *)
Definition rvvm_run_with_args (H : host) (args : vm_args_t) : Z * list output :=
  if negb (rvvm_create_machine H (mem args) (smp args) (rv64 args))
  then (1, [ErrVmCreation])
  else if negb (load_file_to_ram H (default "" (bootrom args)))
  then (1, [ErrBootrom])
  else
    match (match dtb args with
           | Some d => if load_file_to_ram H d then None else Some [ErrDtb]
           | None => None
           end) with
    | Some out => (1, out)
    | None =>
        let out := match image args with
                   | Some p => if fopen_image H p then [] else [ErrImage p]
                   | None => []
                   end in
        (0, out)
    end.

Definition main (H : host) (argv : list string) : Z * list output :=
  match parse_args argv args_zero with
  | (false, _, out) => (0, out)
  | (true, args, out) =>
      match bootrom args with
      | None => (0, (out ++ [OutUsage])%list)
      | Some _ =>
          let '(_, out') := rvvm_run_with_args H args in
          (0, (out ++ out')%list)
      end
  end.

(** The option names the chain of [parse_args] accepts. *)
Definition recognised (arg_name : string) : bool :=
  cmp_arg arg_name "dtb" || cmp_arg arg_name "image" || cmp_arg arg_name "bootrom"
  || cmp_arg arg_name "kernel" || cmp_arg arg_name "mem" || cmp_arg arg_name "smp"
  || cmp_arg arg_name "rv64" || cmp_arg arg_name "verbose" || cmp_arg arg_name "help"
  || cmp_arg arg_name "h" || cmp_arg arg_name "H".

(** The option names of a command line, as [get_arg] cuts it up: the
    name of the first word, then the names of what follows the words it
    consumed. *)
Fixpoint arg_names (rest : list string) : list string :=
  match rest with
  | [] => []
  | a :: tl =>
      let '(n, arg_name, _) := get_arg a (head tl) in
      arg_name :: match n, tl with
                  | 2%nat, _ :: tl' => arg_names tl'
                  | _, _ => arg_names tl
                  end
  end.

End Main.

(** ** States, handlers and notions for the statements on src/riscv32.c *)

Module Riscv32Samples.
Import Riscv32.

Definition csr_reset : csr_bank :=
  {| csr_status := 0;
     csr_edeleg := fun p => if Nat.eqb p PRIVILEGE_HYPERVISOR then 0xFFFFFFFF else 0;
     csr_ideleg := fun _ => 0;
     csr_tvec := fun _ => 0;
     csr_epc := fun _ => 0;
     csr_cause := fun _ => 0;
     csr_tval := fun _ => 0 |}.

(** The state [riscv32_create_vm] returns, with the page at the reset PC
    behind TLB slot 0 holding [bytes]. *)
Definition vm_reset (bytes : list Z) : vm_state :=
  {| registers := fun r => if r =? REGISTER_PC then 0x80000000 else 0;
     priv_mode := PRIVILEGE_MACHINE;
     wait_event := 0;
     csr := csr_reset;
     tlb := fun _ => {| tlb_pte := 0; tlb_ptr := fun off => nth (Z.to_nat off) bytes 0 |} |}.

(** That state in user mode, with interrupt 5 delegated by machine mode
    ([mideleg] bit 5) and kept by supervisor mode. *)
Definition vm_user_mideleg5 : vm_state :=
  {| registers := registers (vm_reset []);
     priv_mode := PRIVILEGE_USER;
     wait_event := 1;
     csr := {| csr_status := 0;
               csr_edeleg := csr_edeleg csr_reset;
               csr_ideleg := fun p => if Nat.eqb p PRIVILEGE_MACHINE then 0x20
                                      else if Nat.eqb p PRIVILEGE_HYPERVISOR then 0xFFFFFFFF
                                      else 0;
               csr_tvec := fun _ => 0; csr_epc := fun _ => 0;
               csr_cause := fun _ => 0; csr_tval := fun _ => 0 |};
     tlb := tlb (vm_reset []) |}.

(** Machine mode with [mtvec = 0x1000 | 1]. *)
Definition vm_vectored : vm_state :=
  {| registers := registers (vm_reset []);
     priv_mode := PRIVILEGE_MACHINE;
     wait_event := 1;
     csr := {| csr_status := 0x8;
               csr_edeleg := csr_edeleg csr_reset;
               csr_ideleg := fun _ => 0;
               csr_tvec := fun p => if Nat.eqb p PRIVILEGE_MACHINE then 0x1001 else 0;
               csr_epc := fun _ => 0; csr_cause := fun _ => 0; csr_tval := fun _ => 0 |};
     tlb := tlb (vm_reset []) |}.

(** User mode with SIE set and every exception delegated to supervisor
    mode. *)
Definition vm_user_delegated : vm_state :=
  {| registers := registers (vm_reset []);
     priv_mode := PRIVILEGE_USER;
     wait_event := 1;
     csr := {| csr_status := 0x2;
               csr_edeleg := fun p => if Nat.eqb p PRIVILEGE_SUPERVISOR then 0 else 0xFFFFFFFF;
               csr_ideleg := fun _ => 0;
               csr_tvec := fun _ => 0; csr_epc := fun _ => 0;
               csr_cause := fun _ => 0; csr_tval := fun _ => 0 |};
     tlb := tlb (vm_reset []) |}.

(** Stand-ins for the helpers the loop is parametric in: every fetch
    hits TLB slot 0, and the walker, when asked, faults without
    touching the state. *)
Definition tlb_hash0 (addr : Z) : Z := 0.
Definition tlb_check_hit (e : tlb_entry) (addr access : Z) : bool := true.
Definition inside_page (addr size : Z) : bool := Z.land addr 0xFFF + size <=? 0x1000.
Definition mmu_fault (vm : vm_state) (addr size access : Z) : vm_state * option (list Z) :=
  (vm, None).


(** [addi x0, x0, 1], little-endian. *)
Definition addi_x0_x0_1 : list Z := [0x13; 0x00; 0x10; 0x00].

(** What the spec's delegation walk selects: [ideleg] for an interrupt
    cause, [edeleg] otherwise, at the bit index of the cause number. *)
Definition spec_trap_target (vm : vm_state) (cause : Z) : nat :=
  let number := Z.land cause (INTERRUPT_MASK - 1) in
  if negb (Z.land cause INTERRUPT_MASK =? 0)
  then trap_walk (csr_ideleg (csr vm)) (priv_mode vm) number PRIVILEGE_MACHINE
  else trap_walk (csr_edeleg (csr vm)) (priv_mode vm) number PRIVILEGE_MACHINE.

End Riscv32Samples.

(** ** Harts and notions for the statements on riscv_csr.c *)

Module CsrSamples.
Import Csr.

(** An environment in which the routines of the other translation units
    leave the hart as it is, with the write masks of the privileged
    architecture. *)
Definition env_plain : csr_env :=
  {| USE_FPU := true;
     USE_PRECISE_FS := false;
     CSR_SSTATUS_MASK := 0x3000DE762;
     CSR_MSTATUS_MASK := 0xF007FFFAA;
     CSR_SEIP_MASK := 0x222;
     CSR_MEIP_MASK := 0xAAA;
     CSR_COUNTEREN_MASK := 0x7;
     CSR_SENVCFG_MASK := 0xF1;
     CSR_MENVCFG_MASK := 0x80000000000000F1;
     CSR_MSECCFG_MASK := 0x300;
     CSR_MEDELEG_MASK := 0xB109;
     CSR_MIDELEG_MASK := 0x222;
     rvvm_has_arg := fun _ => false;
     rvvm_mimpid := 0;
     riscv_csr_timer_enabled := fun _ => true;
     riscv_csr_seed_enabled := fun _ => false;
     riscv_csr_sstc_enabled := fun _ => true;
     fpu_is_enabled := fun _ => true;
     rvtimer_get := fun _ => 0;
     rvvm_randombytes := fun _ => 0;
     riscv_interrupts_raised := fun _ => 0;
     rvtimecmp_pending := fun _ => false;
     riscv_hart_check_interrupts := fun vm => vm;
     riscv_update_xlen := fun vm => vm;
     riscv_tlb_flush := fun vm => vm;
     riscv_interrupt := fun vm _ => vm;
     riscv_interrupt_clear := fun vm _ => vm |}.

Definition fenv_clear : host_fenv :=
  {| fe_inexact := false; fe_underflow := false; fe_overflow := false;
     fe_divbyzero := false; fe_invalid := false; fe_round := FE_TONEAREST |}.

(** The bank after [riscv_csr_init] on an RV64 hart, with 7 in
    [mscratch] and hart id 1. *)
Definition csr_file_init : csr_file :=
  {| status := 0xA00000000;
     isa := CSR_MISA_RV64;
     ie := 0; ip := 0;
     edeleg := fun p => if Nat.eqb p PRIVILEGE_HYPERVISOR then 0xFFFFFFFF else 0;
     ideleg := fun p => if Nat.eqb p PRIVILEGE_HYPERVISOR then 0xFFFFFFFF else 0;
     tvec := fun _ => 0;
     scratch := fun p => if Nat.eqb p PRIVILEGE_MACHINE then 7 else 0;
     epc := fun _ => 0; cause := fun _ => 0; tval := fun _ => 0;
     counteren := fun _ => 0; envcfg := fun _ => 0;
     mseccfg := 0; hartid := 1; fcsr := 0 |}.

Definition hart_at (priv : Z) : hart :=
  {| rv64 := true; priv_mode := priv; csr := csr_file_init;
     mmu_mode := CSR_SATP_MODE_PHYS; root_page_table := 0; stimecmp := 0;
     machine_rv64 := true; fenv := fenv_clear |}.

Definition hart_user : hart := hart_at 0.
Definition hart_supervisor : hart := hart_at 1.
Definition hart_machine : hart := hart_at 3.

(** Supervisor mode with [mstatus.TVM] set. *)
Definition hart_tvm : hart :=
  with_csr hart_supervisor (csr_set_status csr_file_init (0xA00000000 + CSR_STATUS_TVM)).

(** The CSRs the dispatch hands to [riscv_csr_helper] on a word of the
    bank: the accessor of the array and the index used. *)
Definition direct_csr (csr_id : Z) : option ((csr_file -> nat -> Z) * nat) :=
  if csr_id =? CSR_STVEC then Some (tvec, PRIVILEGE_SUPERVISOR)
  else if csr_id =? CSR_SSCRATCH then Some (scratch, PRIVILEGE_SUPERVISOR)
  else if csr_id =? CSR_SEPC then Some (epc, PRIVILEGE_SUPERVISOR)
  else if csr_id =? CSR_SCAUSE then Some (cause, PRIVILEGE_SUPERVISOR)
  else if csr_id =? CSR_STVAL then Some (tval, PRIVILEGE_SUPERVISOR)
  else if csr_id =? CSR_MTVEC then Some (tvec, PRIVILEGE_MACHINE)
  else if csr_id =? CSR_MSCRATCH then Some (scratch, PRIVILEGE_MACHINE)
  else if csr_id =? CSR_MEPC then Some (epc, PRIVILEGE_MACHINE)
  else if csr_id =? CSR_MCAUSE then Some (cause, PRIVILEGE_MACHINE)
  else if csr_id =? CSR_MTVAL then Some (tval, PRIVILEGE_MACHINE)
  else None.

(** The read-only CSRs whose routine always succeeds: the machine
    information registers and the cycle and instret counters. *)
Definition readonly_const_csr (csr_id : Z) : bool :=
  (csr_id =? CSR_MVENDORID) || (csr_id =? CSR_MARCHID) || (csr_id =? CSR_MIMPID)
  || (csr_id =? CSR_MHARTID) || (csr_id =? CSR_CYCLE) || (csr_id =? CSR_INSTRET).

(** Paging is on in every mode but BARE. *)
Definition paging_enabled (vm : hart) : bool :=
  negb (mmu_mode vm =? CSR_SATP_MODE_PHYS).

(** The routines of the other translation units keep the XLEN of the
    hart, and the raised-interrupt word does not depend on [csr.ip]. *)
Definition env_frame (E : csr_env) : Prop :=
  (forall vm, rv64 (riscv_hart_check_interrupts E vm) = rv64 vm) /\
  (forall vm, rv64 (riscv_tlb_flush E vm) = rv64 vm) /\
  (forall vm i, rv64 (riscv_interrupt E vm i) = rv64 vm) /\
  (forall vm i, rv64 (riscv_interrupt_clear E vm i) = rv64 vm) /\
  (forall vm v, riscv_interrupts_raised E (with_csr vm (csr_set_ip (csr vm) v))
                = riscv_interrupts_raised E vm).

(** Two results agree as far as the caller's register is concerned:
    same verdict, and on success the same word from a hart of the given
    XLEN. *)
Definition same_read (is64 : bool) (r r' : csr_ret) : Prop :=
  ok r = ok r' /\
  (ok r = true ->
   dest_of r = dest_of r' /\ rv64 (hart_of r) = is64 /\ rv64 (hart_of r') = is64).

(** The case labels of the dispatch. *)
Definition implemented_csrs : list Z :=
  [0x001; 0x002; 0x003; 0x015; 0xC00; 0xC80; 0xC01; 0xC81; 0xC02; 0xC82;
   0x100; 0x104; 0x105; 0x106; 0x10A; 0x140; 0x141; 0x142; 0x143; 0x144;
   0x14D; 0x15D; 0x180; 0xF11; 0xF12; 0xF13; 0xF14; 0x300; 0x310; 0x301;
   0x302; 0x303; 0x304; 0x305; 0x306; 0x340; 0x341; 0x342; 0x343; 0x344;
   0x30A; 0x31A; 0x747; 0x757; 0x3A0; 0x3A1; 0x3A2; 0x3A3; 0x3B0; 0x3B1;
   0x3B2; 0x3B3; 0x3B4; 0x3B5; 0x3B6; 0x3B7; 0x3B8; 0x3B9; 0x3BA; 0x3BB;
   0x3BC; 0x3BD; 0x3BE; 0x3BF; 0xB00; 0xB02; 0xB03; 0xB04; 0xB05; 0xB06;
   0xB07; 0xB08; 0xB09; 0xB0A; 0xB0B; 0xB0C; 0xB0D; 0xB0E; 0xB0F; 0xB10;
   0xB11; 0xB12; 0xB13; 0xB14; 0xB15; 0xB16; 0xB17; 0xB18; 0xB19; 0xB1A;
   0xB1B; 0xB1C; 0xB1D; 0xB1E; 0xB1F; 0xB80; 0xB82; 0xB83; 0xB84; 0xB85;
   0xB86; 0xB87; 0xB88; 0xB89; 0xB8A; 0xB8B; 0xB8C; 0xB8D; 0xB8E; 0xB8F;
   0xB90; 0xB91; 0xB92; 0xB93; 0xB94; 0xB95; 0xB96; 0xB97; 0xB98; 0xB99;
   0xB9A; 0xB9B; 0xB9C; 0xB9D; 0xB9E; 0xB9F; 0x320].

Definition implemented (c : Z) : bool := existsb (Z.eqb c) implemented_csrs.

(** A plain read of a CSR: CSRRS with a zero operand. *)
Definition csr_read (E : csr_env) (vm : hart) (c : Z) : csr_ret :=
  riscv_csr_op E vm c 0 CSR_SETBITS.

End CsrSamples.

(** ** Heaps and notions for the statements on src/rvjit/rvjit.c *)

Module RvjitSamples.
Import Rvjit.

(** The heap after [rvjit_ctx_init] with one mebibyte: nothing compiled,
    no memory tracking yet. *)
Definition heap_fresh : rvjit_heap :=
  {| heap_data := 0x7F0000000000; heap_code := 0x7F0000000000;
     heap_size := 0x100000; heap_curr := 0; heap_bytes := ∅;
     blocks := ∅; block_links := ∅;
     dirty_pages := None; jited_pages := None; dirty_mask := 0 |}.

(** A block of one byte of code for physical PC [0x80001000]. *)
Definition block_fresh : rvjit_block unit :=
  {| heap := heap_fresh; code := [0xC3]; size := 1; linkage := LINKAGE_JMP;
     links := []; phys_pc := 0x80001000; rv64 := false; emit := tt |}.

(** That block installed, without memory tracking. *)
Definition block_untracked : rvjit_block unit :=
  snd (rvjit_block_finalize block_fresh).

(** That block installed after [rvjit_init_memtracking] for 16 MiB of
    guest memory. *)
Definition block_tracked : rvjit_block unit :=
  snd (rvjit_block_finalize (rvjit_init_memtracking block_fresh 0x1000000)).

(** Both bit matrices are allocated, with [dirty_mask + 1] words each. *)
Definition tracking_ok (h : rvjit_heap) : bool :=
  (0 <=? dirty_mask h)
  && match dirty_pages h, jited_pages h with
     | Some d, Some j =>
         Nat.eqb (length d) (Z.to_nat (dirty_mask h + 1))
         && Nat.eqb (length j) (Z.to_nat (dirty_mask h + 1))
     | _, _ => false
     end.

(** The bit of guest page [addr >> 12] in a bit matrix. *)
Definition page_flag (a : option (list Z)) (h : rvjit_heap) (addr : Z) : bool :=
  negb (Z.land (word_at a (page_offset h addr)) (page_bit addr) =? 0).

(** The pages the loop of [rvjit_mark_dirty_mem(addr, size)] visits:
    those of [addr], [addr + 4096], ... while the offset is below
    [size]. *)
Definition visited (addr size a : Z) : Prop :=
  exists k, 0 <= k /\ 4096 * k < size /\ Z.shiftr a 12 = Z.shiftr (addr + 4096 * k) 12.

(** The index of a page's bit within its word. *)
Definition bit_index (addr : Z) : Z := Z.land (Z.shiftr addr 12) 0x1F.

(** The flag of a page, from the matrix and the mask alone. *)
Definition flag_of (a : option (list Z)) (m : Z) (q : Z) : bool :=
  Z.testbit (word_at a (Z.land (Z.shiftr q 17) m)) (bit_index q).

(** Two addresses share a word and a bit of the matrices. *)
Definition same_slot (m x q : Z) : bool :=
  (Z.land (Z.shiftr x 17) m =? Z.land (Z.shiftr q 17) m) && (bit_index x =? bit_index q).

Definition jited {emit_t : Type} (b : rvjit_block emit_t) (q : Z) : bool :=
  page_flag (jited_pages (heap b)) (heap b) q.

Definition dirty {emit_t : Type} (b : rvjit_block emit_t) (q : Z) : bool :=
  page_flag (dirty_pages (heap b)) (heap b) q.

(** The block after a run of [rvjit_block_lookup] calls at the addresses
    of [l], in that order. *)
Fixpoint lookups {emit_t : Type} (b : rvjit_block emit_t) (l : list Z)
    : rvjit_block emit_t :=
  match l with
  | [] => b
  | x :: rest => lookups (snd (rvjit_block_lookup b x)) rest
  end.

(** A lookup at [x] leaves the dirty bit of [a] alone: [x] is a physical
    address and its page does not share the word and bit of [a]. *)
Definition other_slot (m a x : Z) : Prop :=
  0 <= x < 2 ^ 64 /\ same_slot m x a = false.

End RvjitSamples.

(** ** Hosts for the statements on src/main.c *)

Module MainSamples.
Import Main.

(** A host on which the machine is created and every file loads. *)
Definition host_ok : host :=
  {| rvvm_create_machine := fun _ _ _ => true;
     load_file_to_ram := fun _ => true;
     fopen_image := fun _ => true |}.

(** A host that cannot create the machine. *)
Definition host_no_machine : host :=
  {| rvvm_create_machine := fun _ _ _ => false;
     load_file_to_ram := fun _ => true;
     fopen_image := fun _ => true |}.

(** A host on which no file can be loaded. *)
Definition host_no_file : host :=
  {| rvvm_create_machine := fun _ _ _ => true;
     load_file_to_ram := fun _ => false;
     fopen_image := fun _ => false |}.

End MainSamples.

(** * Block device interface (blk_io.h) *)

Module BlkIo.

Definition BLKDEV_SEEK_SET : Z := 0.
Definition BLKDEV_SEEK_CUR : Z := 1.
Definition BLKDEV_SEEK_END : Z := 2.

(** [(uint64_t)-1]: use the device cursor as the offset. *)
Definition BLKDEV_CUR : Z := 2 ^ 64 - 1.

Section Device.

(** The state behind [dev->data]; the operations of [blkdev_type_t] act on
    it.  [read] returns the new state, the bytes it stored at [dst] and the
    count it returns; [trim] and [sync] may be NULL. *)
Variable D : Type.

Record blkdev_type_t := {
  read : D -> Z -> Z -> D * list Z * Z;
  write : D -> list Z -> Z -> Z -> D * Z;
  trim : option (D -> Z -> Z -> D * bool);
  sync : option (D -> D * bool)
}.

Record blkdev_t := {
  type : blkdev_type_t;
  data : D;
  size : Z;
  pos : Z
}.

Definition with_data (dev : blkdev_t) (d : D) : blkdev_t :=
  {| type := type dev; data := d; size := size dev; pos := pos dev |}.

Definition with_pos (dev : blkdev_t) (p : Z) : blkdev_t :=
  {| type := type dev; data := data dev; size := size dev; pos := p |}.

(** [real_pos] of blk_read, blk_write and blk_trim. *)
Definition real_pos (dev : blkdev_t) (offset : Z) : Z :=
  if offset =? BLKDEV_CUR then pos dev else offset.

Definition blk_getsize (dev : option blkdev_t) : Z :=
  match dev with
  | None => 0
  | Some d => size d
  end.

(** Result: the returned count, the bytes stored at [dst] (none when the
    device routine is not called) and the device. *)
Definition blk_read (dev : option blkdev_t) (count offset : Z)
  : Z * list Z * option blkdev_t :=
  match dev with
  | None => (0, [], None)
  | Some d =>
      let rp := real_pos d offset in
      if wrap64 (rp + count) >? size d then (0, [], Some d)
      else
        let '(data', dst, ret) := read (type d) (data d) count rp in
        let d1 := with_data d data' in
        let d2 := if offset =? BLKDEV_CUR
                  then with_pos d1 (wrap64 (pos d1 + ret)) else d1 in
        (ret, dst, Some d2)
  end.

Definition blk_write (dev : option blkdev_t) (src : list Z) (count offset : Z)
  : Z * option blkdev_t :=
  match dev with
  | None => (0, None)
  | Some d =>
      let rp := real_pos d offset in
      if wrap64 (rp + count) >? size d then (0, Some d)
      else
        let '(data', ret) := write (type d) (data d) src count rp in
        let d1 := with_data d data' in
        let d2 := if offset =? BLKDEV_CUR
                  then with_pos d1 (wrap64 (pos d1 + ret)) else d1 in
        (ret, Some d2)
  end.

(** [offset] is the int64_t argument; the sums are taken in uint64_t, stored
    back into [offset] and compared as [(uint64_t)offset]. *)
Definition blk_seek (dev : option blkdev_t) (offset startpos : Z)
  : bool * option blkdev_t :=
  match dev with
  | None => (false, None)
  | Some d =>
      let target :=
        if startpos =? BLKDEV_SEEK_CUR then Some (wrap64 (pos d + offset))
        else if startpos =? BLKDEV_SEEK_END then Some (wrap64 (size d - offset))
        else if negb (startpos =? BLKDEV_SEEK_SET) then None
        else Some (wrap64 offset) in
      match target with
      | None => (false, Some d)
      | Some off =>
          if off >=? size d then (false, Some d)
          else (true, Some (with_pos d off))
      end
  end.

Definition blk_tell (dev : option blkdev_t) : Z :=
  match dev with
  | None => 0
  | Some d => pos d
  end.

Definition blk_trim (dev : option blkdev_t) (offset count : Z)
  : bool * option blkdev_t :=
  match dev with
  | None => (false, None)
  | Some d =>
      match trim (type d) with
      | None => (false, Some d)
      | Some f =>
          let rp := real_pos d offset in
          if wrap64 (rp + count) >? size d then (false, Some d)
          else
            let '(data', r) := f (data d) rp count in
            (r, Some (with_data d data'))
      end
  end.

Definition blk_sync (dev : option blkdev_t) : bool * option blkdev_t :=
  match dev with
  | None => (false, None)
  | Some d =>
      match sync (type d) with
      | None => (false, Some d)
      | Some f =>
          let '(data', r) := f (data d) in
          (r, Some (with_data d data'))
      end
  end.

End Device.

Arguments read {D}.
Arguments write {D}.
Arguments trim {D}.
Arguments sync {D}.
Arguments type {D}.
Arguments data {D}.
Arguments size {D}.
Arguments pos {D}.
Arguments with_data {D}.
Arguments with_pos {D}.
Arguments real_pos {D}.
Arguments blk_getsize {D}.
Arguments blk_read {D}.
Arguments blk_write {D}.
Arguments blk_seek {D}.
Arguments blk_tell {D}.
Arguments blk_trim {D}.
Arguments blk_sync {D}.

End BlkIo.

(** A RAM-backed device: the state is the byte array, [read] copies out of
    it and [write] into it, both in full. *)
Module BlkIoSamples.
Import BlkIo.

Fixpoint overwrite (l : list Z) (i : nat) (src : list Z) : list Z :=
  match src with
  | [] => l
  | b :: src' => overwrite (<[i := b]> l) (S i) src'
  end.

Definition ram_type : blkdev_type_t (list Z) :=
  {| read := fun d count offset =>
       (d, firstn (Z.to_nat count) (skipn (Z.to_nat offset) d), count);
     write := fun d src count offset =>
       (overwrite d (Z.to_nat offset) (firstn (Z.to_nat count) src), count);
     trim := None;
     sync := Some (fun d => (d, true)) |}.

Definition ram_dev : blkdev_t (list Z) :=
  {| type := ram_type; data := [1; 2; 3; 4; 5; 6; 7; 8]; size := 8; pos := 2 |}.

(** The position a seek asks for, as a mathematical integer. *)
Definition seek_target {D} (d : blkdev_t D) (offset startpos : Z) : Z :=
  if startpos =? BLKDEV_SEEK_CUR then pos d + offset
  else if startpos =? BLKDEV_SEEK_END then size d - offset
  else offset.

End BlkIoSamples.

(** * The opcode table of src/riscv32.c *)

Module Riscv32Opcodes.
Import Riscv32.

Section Table.

(** The type of the entries of [riscv32_opcodes]. *)
Variable handler : Type.

(** [riscv32_opcodes[512]], by index. *)
Definition opcode_table : Type := Z -> handler.

(** The loop [for (f3 = 0; f3 < 0x10; ++f3)] of [smudge_opcode_UJ],
    [n] iterations from [f3]. *)
Fixpoint smudge_loop (n : nat) (tbl : opcode_table) (opcode : Z)
    (func : handler) (f3 : Z) : opcode_table :=
  match n with
  | O => tbl
  | S n' =>
      smudge_loop n' (storeZ tbl (Z.lor opcode (shl32 f3 5)) func)
                  opcode func (f3 + 1)
  end.

Definition smudge_opcode_UJ (tbl : opcode_table) (opcode : Z)
    (func : handler) : opcode_table :=
  smudge_loop 16 tbl opcode func 0.

Definition smudge_opcode_ISB (tbl : opcode_table) (opcode : Z)
    (func : handler) : opcode_table :=
  storeZ (storeZ tbl opcode func) (Z.lor opcode 0x100) func.

(** The first loop of [riscv32_create_vm]: every entry is the illegal
    instruction handler. *)
Definition opcodes_reset (illegal : handler) : opcode_table :=
  fun _ => illegal.

End Table.

Arguments smudge_loop {handler}.
Arguments smudge_opcode_UJ {handler}.
Arguments smudge_opcode_ISB {handler}.
Arguments opcodes_reset {handler}.

End Riscv32Opcodes.

(** * Predicates on the CSR file *)

Module CsrInvariants.
Import Csr.

(** The fields [riscv_csr_status] validates, as it leaves them: UXL and
    SXL name a supported XLEN on a 64-bit machine, MPP is not the
    hypervisor level, VS is off, XS repeats FS, and FS is off without an
    FPU and off or dirty with an FPU whose state is not tracked
    precisely. *)
Definition status_valid (E : csr_env) (vm : hart) (s : Z) : Prop :=
  (machine_rv64 vm = true ->
   (bit_cut s 32 2 = 1 \/ bit_cut s 32 2 = 2) /\
   (bit_cut s 34 2 = 1 \/ bit_cut s 34 2 = 2)) /\
  bit_cut s 11 2 <> 2 /\
  bit_cut s 9 2 = FS_OFF /\
  bit_cut s 15 2 = bit_cut s 13 2 /\
  (USE_FPU E = false -> bit_cut s 13 2 = FS_OFF) /\
  (USE_FPU E = true -> USE_PRECISE_FS E = false ->
   bit_cut s 13 2 = FS_OFF \/ bit_cut s 13 2 = FS_DIRTY).

(** The stages of the validation in [riscv_csr_status]. *)
Definition fix_xl (vm : hart) (s : Z) : Z :=
  if machine_rv64 vm then
    let sa := if negb (bit_cut s 32 2 =? 1) && negb (bit_cut s 32 2 =? 2)
              then bit_replace s 32 2 2 else s in
    if negb (bit_cut sa 34 2 =? 1) && negb (bit_cut sa 34 2 =? 2)
    then bit_replace sa 34 2 2 else sa
  else s.

Definition fix_mpp (s : Z) : Z :=
  if bit_cut s 11 2 =? 2 then bit_replace s 11 2 0 else s.

Definition fix_fs (E : csr_env) (s : Z) : Z :=
  if USE_FPU E then
    if negb (USE_PRECISE_FS E) && negb (bit_cut s 13 2 =? FS_OFF)
       && negb (bit_cut s 13 2 =? FS_DIRTY)
    then bit_replace s 13 2 FS_DIRTY else s
  else
    if negb (bit_cut s 13 2 =? FS_OFF) then bit_replace s 13 2 FS_OFF else s.

Definition fix_vs (s : Z) : Z :=
  if negb (bit_cut s 9 2 =? FS_OFF) then bit_replace s 9 2 FS_OFF else s.

(** The routines of the other translation units that a CSR write may
    call leave the CSR file, the translation mode and root, the XLEN and
    the privilege level of the hart as they find them. *)
Definition env_keeps_hart (E : csr_env) : Prop :=
  (forall vm, csr (riscv_hart_check_interrupts E vm) = csr vm) /\
  (forall vm, csr (riscv_tlb_flush E vm) = csr vm
              /\ mmu_mode (riscv_tlb_flush E vm) = mmu_mode vm
              /\ root_page_table (riscv_tlb_flush E vm) = root_page_table vm
              /\ rv64 (riscv_tlb_flush E vm) = rv64 vm
              /\ priv_mode (riscv_tlb_flush E vm) = priv_mode vm).

(** The host rounding direction [fpu_set_rm] selects for a rounding mode,
    if it selects one. *)
Definition host_round_of (rm : Z) : option host_round :=
  if rm =? RM_RNE then Some FE_TONEAREST
  else if rm =? RM_RTZ then Some FE_TOWARDZERO
  else if rm =? RM_RDN then Some FE_DOWNWARD
  else if rm =? RM_RUP then Some FE_UPWARD
  else if rm =? RM_RMM then Some FE_TONEAREST
  else None.

(** [CsrSamples.env_plain] with an FPU that is enabled on a hart when the
    FS field of its status (bits 13 and 14) is not off. *)
Definition env_fs : csr_env :=
  {| USE_FPU := true;
     USE_PRECISE_FS := false;
     CSR_SSTATUS_MASK := CSR_SSTATUS_MASK CsrSamples.env_plain;
     CSR_MSTATUS_MASK := CSR_MSTATUS_MASK CsrSamples.env_plain;
     CSR_SEIP_MASK := CSR_SEIP_MASK CsrSamples.env_plain;
     CSR_MEIP_MASK := CSR_MEIP_MASK CsrSamples.env_plain;
     CSR_COUNTEREN_MASK := CSR_COUNTEREN_MASK CsrSamples.env_plain;
     CSR_SENVCFG_MASK := CSR_SENVCFG_MASK CsrSamples.env_plain;
     CSR_MENVCFG_MASK := CSR_MENVCFG_MASK CsrSamples.env_plain;
     CSR_MSECCFG_MASK := CSR_MSECCFG_MASK CsrSamples.env_plain;
     CSR_MEDELEG_MASK := CSR_MEDELEG_MASK CsrSamples.env_plain;
     CSR_MIDELEG_MASK := CSR_MIDELEG_MASK CsrSamples.env_plain;
     rvvm_has_arg := fun _ => false;
     rvvm_mimpid := 0;
     riscv_csr_timer_enabled := fun _ => true;
     riscv_csr_seed_enabled := fun _ => false;
     riscv_csr_sstc_enabled := fun _ => true;
     fpu_is_enabled := fun vm => negb (bit_cut (status (csr vm)) 13 2 =? FS_OFF);
     rvtimer_get := fun _ => 0;
     rvvm_randombytes := fun _ => 0;
     riscv_interrupts_raised := fun _ => 0;
     rvtimecmp_pending := fun _ => false;
     riscv_hart_check_interrupts := fun vm => vm;
     riscv_update_xlen := fun vm => vm;
     riscv_tlb_flush := fun vm => vm;
     riscv_interrupt := fun vm _ => vm;
     riscv_interrupt_clear := fun vm _ => vm |}.

(** A user-mode hart whose status has FS dirty (3 in bits 13 and 14). *)
Definition hart_fs_dirty : hart :=
  with_csr (CsrSamples.hart_at 0)
    (csr_set_status CsrSamples.csr_file_init (0xA00000000 + 0x6000)).

(** The same hart once the host FPU has raised the inexact flag and fcsr
    has not accrued it. *)
Definition hart_fs_inexact : hart :=
  with_fenv hart_fs_dirty
    {| fe_inexact := true; fe_underflow := false; fe_overflow := false;
       fe_divbyzero := false; fe_invalid := false; fe_round := FE_TONEAREST |}.

(** A user-mode hart whose status has FS off. *)
Definition hart_fs_off : hart := CsrSamples.hart_at 0.

End CsrInvariants.

(** * Notions for the statements on the command line *)

Module MainNotions.
Import Main.

(** The part of a word before its first ['='] (the whole word if it has
    none). *)
Fixpoint before_equals (s : string) : string :=
  match s with
  | EmptyString => EmptyString
  | String c rest =>
      if Ascii.eqb c "="%char then EmptyString else String c (before_equals rest)
  end.

(** The word holds an ['=']. *)
Fixpoint has_equals (s : string) : bool :=
  match s with
  | EmptyString => false
  | String c rest => Ascii.eqb c "="%char || has_equals rest
  end.

(** The chain of [parse_args] reaches its [smp] branch with this name:
    none of the tests before it accepts the name and [cmp_arg] accepts it
    for smp. *)
Definition selects_smp (arg_name : string) : bool :=
  negb (Main.cmp_arg arg_name "dtb") && negb (Main.cmp_arg arg_name "image")
  && negb (Main.cmp_arg arg_name "bootrom") && negb (Main.cmp_arg arg_name "kernel")
  && negb (Main.cmp_arg arg_name "mem") && Main.cmp_arg arg_name "smp".

(** The names and values of a command line, as [get_arg] cuts it up in
    the loop of [parse_args]. *)
Fixpoint arg_pairs (rest : list string) : list (string * string) :=
  match rest with
  | [] => []
  | a :: tl =>
      let '(n, arg_name, arg_val) := Main.get_arg a (head tl) in
      (arg_name, arg_val) :: match n, tl with
                             | 2%nat, _ :: tl' => arg_pairs tl'
                             | _, _ => arg_pairs tl
                             end
  end.

(** The value [args->smp = atoi(arg_val)] stores in the [uint32_t]. *)
Definition smp_value (arg_val : string) : Z := wrap32 (Main.atoi arg_val).

(** The core count a command line asks for: the value of the last option
    that reaches the smp branch, [dflt] when there is none. *)
Fixpoint smp_asked (pairs : list (string * string)) (dflt : Z) : Z :=
  match pairs with
  | [] => dflt
  | (arg_name, arg_val) :: tl =>
      smp_asked tl (if selects_smp arg_name then smp_value arg_val else dflt)
  end.

(** The value of the word is one an [int] holds: [atoi] is defined on it
    (C leaves the result open beyond that range). *)
Definition atoi_defined (arg_val : string) : Prop :=
  - 2 ^ 31 <= Main.atoi arg_val < 2 ^ 31.

(** Every option of the command line that reaches the smp branch has a
    value on which [atoi] is defined. *)
Definition smp_values_defined (pairs : list (string * string)) : Prop :=
  Forall (fun nv => selects_smp (fst nv) = true -> atoi_defined (snd nv)) pairs.

(** An option that reaches the smp branch with a value on which [atoi] is
    defined and that exceeds 1024 once stored. *)
Definition smp_too_large (nv : string * string) : Prop :=
  selects_smp (fst nv) = true /\ atoi_defined (snd nv) /\ smp_value (snd nv) > 1024.

End MainNotions.

(** * rvjit_block_finalize with the emitter and the native linker *)

Module RvjitLinker.
Import Rvjit.

Section Finalize.

Context {emit_t : Type}.

(** [rvjit_emit_end], which closes the code of the block, and
    [rvjit_linker_patch_jmp], which rewrites the jump at a patch site, are
    those of the host back end in rvjit_emit.h, outside the sources; the
    patcher is taken on the bytes of the heap.  [RVJIT_NATIVE_LINKER] is
    the build option of that name. *)
Variable rvjit_emit_end : rvjit_block emit_t -> linkage_t -> rvjit_block emit_t.
Variable RVJIT_NATIVE_LINKER : bool.
Variable rvjit_linker_patch_jmp : gmap Z Z -> Z -> Z -> gmap Z Z.

(** One turn of [vector_foreach(block->links, i)]: the patch site of the
    link is pushed on the list pending for its target, which is created
    when the target has none.  A link is the pair of its [.dest] and its
    [.ptr]. *)
Definition link_register (ln : gmap Z (list Z)) (l : Z * Z) : gmap Z (list Z) :=
  <[fst l := default [] (ln !! fst l) ++ [snd l]]> ln.

(** The loop over the sites pending for the block:
    [rvjit_linker_patch_jmp(jptr, dest - jptr)] for each, in the order of
    the list. *)
Definition patch_sites (bytes : gmap Z Z) (dest : Z) (sites : list Z) : gmap Z Z :=
  fold_left (fun m jptr => rvjit_linker_patch_jmp m jptr (wrap64 (dest - jptr)))
    sites bytes.

(** [rvjit_block_finalize]: [dest] and the entry point are taken from the
    cursor, the emitter closes the block, and the capacity test is made on
    the size it leaves, in [size_t].  [None] is the null result of a full
    cache. *)
Definition rvjit_block_finalize (b : rvjit_block emit_t)
    : option Z * rvjit_block emit_t :=
  let dest := heap_data (heap b) + heap_curr (heap b) in
  let entry := heap_code (heap b) + heap_curr (heap b) in
  let b1 := rvjit_emit_end b (linkage _ b) in
  let h := heap b1 in
  if wrap64 (heap_curr h + size _ b1) >? heap_size h then (None, b1)
  else
    let bytes1 := memcpy_heap (heap_bytes h) dest
                    (take (Z.to_nat (size _ b1)) (code _ b1)) in
    let ln1 := if RVJIT_NATIVE_LINKER
               then fold_left link_register (links _ b1) (block_links h)
               else block_links h in
    let pending := if RVJIT_NATIVE_LINKER then ln1 !! phys_pc _ b1 else None in
    let bytes2 := match pending with
                  | Some sites => patch_sites bytes1 dest sites
                  | None => bytes1
                  end in
    let ln2 := match pending with
               | Some _ => delete (phys_pc _ b1) ln1
               | None => ln1
               end in
    let h1 := {| heap_data := heap_data h; heap_code := heap_code h;
                 heap_size := heap_size h;
                 heap_curr := wrap64 (heap_curr h + size _ b1);
                 heap_bytes := bytes2;
                 blocks := <[phys_pc _ b1 := entry]> (blocks h);
                 block_links := ln2; dirty_pages := dirty_pages h;
                 jited_pages := jited_pages h; dirty_mask := dirty_mask h |} in
    (Some entry, rvjit_mark_jited_page (with_heap b1 h1) (phys_pc _ b1)).

(** The list pending for the block once its own links are registered, in
    a build with the native linker. *)
Definition pending_sites (b1 : rvjit_block emit_t) : option (list Z) :=
  fold_left link_register (links _ b1) (block_links (heap b1)) !! phys_pc _ b1.

End Finalize.

(** A stand-in for the emitter: it closes the block with one more byte of
    code (0xC3) and leaves the heap alone. *)
Definition emit_ret (b : rvjit_block unit) (l : linkage_t) : rvjit_block unit :=
  {| heap := heap b; code := (code _ b ++ [0xC3])%list; size := size _ b + 1;
     linkage := linkage _ b; links := links _ b; phys_pc := phys_pc _ b;
     rv64 := rv64 _ b; emit := emit _ b |}.

(** A stand-in for the patcher: it stores the low byte of the offset at
    the patch site. *)
Definition patch_byte (bytes : gmap Z Z) (jptr offset : Z) : gmap Z Z :=
  <[jptr := Z.land offset 0xFF]> bytes.

(** [RvjitSamples.block_fresh] on a heap whose cursor is at its end. *)
Definition block_heap_full : rvjit_block unit :=
  with_heap RvjitSamples.block_fresh
    {| heap_data := 0x7F0000000000; heap_code := 0x7F0000000000;
       heap_size := 0x100000; heap_curr := 0x100000; heap_bytes := ∅;
       blocks := ∅; block_links := ∅;
       dirty_pages := None; jited_pages := None; dirty_mask := 0 |}.

(** [RvjitSamples.block_fresh] when an earlier block, at heap address
    [0x7F0000000010], waits for its physical PC. *)
Definition block_awaited : rvjit_block unit :=
  with_heap RvjitSamples.block_fresh
    {| heap_data := 0x7F0000000000; heap_code := 0x7F0000000000;
       heap_size := 0x100000; heap_curr := 0x20;
       heap_bytes := {[ 0x7F0000000010 := 0xE9 ]};
       blocks := ∅; block_links := {[ 0x80001000 := [0x7F0000000010] ]};
       dirty_pages := None; jited_pages := None; dirty_mask := 0 |}.

End RvjitLinker.

(** * Properties *)

(** ** Bit fields *)

Lemma mask_clear_bit3 : 0xFFFFFFF7 = Z.land (Z.ones 32) (Z.lnot (Z.shiftl (Z.ones 1) 3)).
Proof. reflexivity. Qed.

Lemma mask_clear_bit1 : 0xFFFFFFFD = Z.land (Z.ones 32) (Z.lnot (Z.shiftl (Z.ones 1) 1)).
Proof. reflexivity. Qed.

Lemma land_ones2_small (n : nat) : (n <= 3)%nat -> Z.land (Z.of_nat n) (Z.ones 2) = Z.of_nat n.
Proof. intros H. destruct n as [|[|[|[|n]]]]; try reflexivity. lia. Qed.

Lemma land_ones1_small (n : nat) : (n <= 1)%nat -> Z.land (Z.of_nat n) (Z.ones 1) = Z.of_nat n.
Proof. intros H. destruct n as [|[|n]]; try reflexivity. lia. Qed.

Lemma land_pow2_testbit (a n : Z) : 0 <= n ->
  (Z.land a (2 ^ n) =? 0) = negb (Z.testbit a n).
Proof.
  intros Hn. destruct (Z.testbit a n) eqn:Hb; simpl.
  - apply Z.eqb_neq. intros H0.
    assert (Z.testbit (Z.land a (2 ^ n)) n = true) as Ht
      by (rewrite Z.land_spec, Hb, Z.pow2_bits_true; auto).
    rewrite H0, Z.bits_0 in Ht. discriminate.
  - apply Z.eqb_eq. apply Z.bits_inj'. intros i Hi.
    rewrite Z.land_spec, Z.bits_0.
    destruct (Z.eq_dec i n) as [->|Hne].
    + rewrite Hb. reflexivity.
    + rewrite (Z.pow2_bits_false n i) by lia. apply andb_false_r.
Qed.

Lemma shl32_one (n : Z) : 0 <= n < 32 -> shl32 1 n = 2 ^ n.
Proof.
  intros H. unfold shl32, wrap32. rewrite Z.shiftl_1_l.
  apply Z.mod_small. split; [apply Z.pow_nonneg; lia|].
  apply Z.pow_lt_mono_r; lia.
Qed.

Lemma wrap32_add (a b : Z) : wrap32 (wrap32 a + wrap32 b) = wrap32 (a + b).
Proof. unfold wrap32. symmetry. apply Zplus_mod. Qed.

Lemma store_same {A} (f : nat -> A) i v : store f i v i = v.
Proof. unfold store. rewrite Nat.eqb_refl. reflexivity. Qed.

Lemma storeZ_same {A} (f : Z -> A) i v : storeZ f i v i = v.
Proof. unfold storeZ. rewrite Z.eqb_refl. reflexivity. Qed.


(** ** Trap delivery (src/riscv32.c) *)

Module Riscv32Facts.
Import Riscv32 Riscv32Samples.

Lemma trap_walk_bounds edeleg pm cause priv :
  (pm <= priv)%nat ->
  (pm <= trap_walk edeleg pm cause priv <= priv)%nat.
Proof.
  induction priv as [|p IH]; intros H; simpl.
  - lia.
  - destruct (Nat.ltb_spec pm (S p)); [|lia].
    destruct (_ =? 0); [lia|].
    assert (pm <= p)%nat by lia. specialize (IH H1). lia.
Qed.

(** Above the level the walk stops at, every level passed the trap on. *)
Lemma trap_walk_delegated edeleg pm cause priv q :
  (trap_walk edeleg pm cause priv < q <= priv)%nat ->
  (Z.land (edeleg q) (shl32 1 cause) =? 0) = false.
Proof.
  induction priv as [|p IH]; simpl; intros H.
  - lia.
  - destruct (Nat.ltb_spec pm (S p)); [|lia].
    destruct (Z.land (edeleg (S p)) (shl32 1 cause) =? 0) eqn:Hb; [lia|].
    destruct (Nat.eq_dec q (S p)) as [->|Hne]; [exact Hb|].
    apply IH. lia.
Qed.

(** The walk stops above the current level only at a level that keeps
    the trap. *)
Lemma trap_walk_stops edeleg pm cause priv :
  (pm < trap_walk edeleg pm cause priv)%nat ->
  (Z.land (edeleg (trap_walk edeleg pm cause priv)) (shl32 1 cause) =? 0) = true.
Proof.
  induction priv as [|p IH]; simpl; intros H.
  - lia.
  - destruct (Nat.ltb_spec pm (S p)).
    + destruct (Z.land (edeleg (S p)) (shl32 1 cause) =? 0) eqn:Hb; [exact Hb|].
      apply IH. exact H.
    + lia.
Qed.

(** For an exception cause (a bit index below 32) the target of
    [riscv32_trap] is the lowest level, not below the current one, all of
    whose upper levels have the cause's bit set in [edeleg]. *)
Lemma trap_target_exception (vm : vm_state) (cause : Z) :
  0 <= cause < 32 ->
  (priv_mode vm <= PRIVILEGE_MACHINE)%nat ->
  let T := trap_target vm cause in
  (priv_mode vm <= T <= PRIVILEGE_MACHINE)%nat /\
  (forall q, (T < q <= PRIVILEGE_MACHINE)%nat ->
             Z.testbit (csr_edeleg (csr vm) q) cause = true) /\
  (forall p, (priv_mode vm <= p <= PRIVILEGE_MACHINE)%nat ->
             (forall q, (p < q <= PRIVILEGE_MACHINE)%nat ->
                        Z.testbit (csr_edeleg (csr vm) q) cause = true) ->
             (T <= p)%nat).
Proof.
  intros Hc Hpm T. unfold T, trap_target.
  split; [apply trap_walk_bounds; exact Hpm|]. split.
  - intros q Hq. pose proof (trap_walk_delegated _ _ _ _ _ Hq) as Hd.
    rewrite shl32_one, land_pow2_testbit in Hd by lia.
    destruct (Z.testbit _ cause); [reflexivity|discriminate].
  - intros p Hp Hall.
    destruct (Nat.le_gt_cases (trap_walk (csr_edeleg (csr vm)) (priv_mode vm) cause
                                         PRIVILEGE_MACHINE) p) as [Hle|Hgt]; [exact Hle|].
    exfalso.
    assert (priv_mode vm < trap_walk (csr_edeleg (csr vm)) (priv_mode vm) cause
                                     PRIVILEGE_MACHINE)%nat as Hlt by lia.
    pose proof (trap_walk_stops _ _ _ _ Hlt) as Hs.
    rewrite shl32_one, land_pow2_testbit in Hs by lia.
    pose proof (trap_walk_bounds (csr_edeleg (csr vm)) (priv_mode vm) cause
                                 PRIVILEGE_MACHINE Hpm) as Hb.
    rewrite Hall in Hs by lia. discriminate.
Qed.

Lemma trap_status_machine st pm :
  cut_bits (trap_status st pm PRIVILEGE_MACHINE) 11 2 = Z.land (Z.of_nat pm) (Z.ones 2) /\
  cut_bits (trap_status st pm PRIVILEGE_MACHINE) 7 1 = cut_bits st 3 1 /\
  cut_bits (trap_status st pm PRIVILEGE_MACHINE) 3 1 = 0.
Proof.
  unfold trap_status. simpl Nat.eqb. cbv iota. rewrite mask_clear_bit3.
  unfold cut_bits, replace_bits. repeat split; Z.bitblast.
Qed.

Lemma trap_status_supervisor st pm :
  cut_bits (trap_status st pm PRIVILEGE_SUPERVISOR) 8 1 = Z.land (Z.of_nat pm) (Z.ones 1) /\
  cut_bits (trap_status st pm PRIVILEGE_SUPERVISOR) 5 1 = cut_bits st 1 1 /\
  cut_bits (trap_status st pm PRIVILEGE_SUPERVISOR) 1 1 = 0.
Proof.
  unfold trap_status. simpl Nat.eqb. cbv iota. rewrite mask_clear_bit1.
  unfold cut_bits, replace_bits. repeat split; Z.bitblast.
Qed.

(** C2. After [riscv32_trap] delivers to target privilege [T]: [epc[T]]
    is the PC register as the trap found it, [cause[T]] and [tval[T]] are
    the arguments, the current privilege is [T] and [wait_event] is 0;
    when [T] is MACHINE, MPP (bits 11..12) holds the previous privilege,
    MPIE (bit 7) the previous MIE (bit 3) and MIE is clear; when [T] is
    SUPERVISOR, SPP (bit 8) holds the previous privilege, SPIE (bit 5)
    the previous SIE (bit 1) and SIE is clear; for any other target
    [status] is left alone. *)
Theorem trap_saves_context (vm : vm_state) (cause tval : Z) :
  (priv_mode vm <= PRIVILEGE_MACHINE)%nat ->
  let T := trap_target vm cause in
  let vm' := riscv32_trap vm cause tval in
  let st := csr_status (csr vm) in
  let st' := csr_status (csr vm') in
  csr_epc (csr vm') T = riscv32i_read_register_u vm REGISTER_PC /\
  csr_cause (csr vm') T = cause /\
  csr_tval (csr vm') T = tval /\
  (T = PRIVILEGE_MACHINE ->
     cut_bits st' 11 2 = Z.of_nat (priv_mode vm) /\
     cut_bits st' 7 1 = cut_bits st 3 1 /\
     cut_bits st' 3 1 = 0) /\
  (T = PRIVILEGE_SUPERVISOR ->
     cut_bits st' 8 1 = Z.of_nat (priv_mode vm) /\
     cut_bits st' 5 1 = cut_bits st 1 1 /\
     cut_bits st' 1 1 = 0) /\
  (T <> PRIVILEGE_MACHINE -> T <> PRIVILEGE_SUPERVISOR -> st' = st) /\
  priv_mode vm' = T /\
  wait_event vm' = 0.
Proof.
  intros Hpm T vm' st st'.
  unfold vm', st', riscv32_trap, riscv32_break, set_wait_event. simpl.
  fold T. rewrite !store_same.
  repeat split; try reflexivity.
  - destruct (trap_status_machine st (priv_mode vm)) as (Hpp & _ & _).
    rewrite H. fold st. rewrite Hpp. apply land_ones2_small. exact Hpm.
  - rewrite H. apply trap_status_machine.
  - rewrite H. apply trap_status_machine.
  - destruct (trap_status_supervisor st (priv_mode vm)) as (Hpp & _ & _).
    rewrite H. fold st. rewrite Hpp. apply land_ones1_small.
    pose proof (trap_walk_bounds (csr_edeleg (csr vm)) (priv_mode vm) cause
                                 PRIVILEGE_MACHINE Hpm) as Hb.
    fold (trap_target vm cause) in Hb. fold T in Hb. rewrite H in Hb.
    unfold PRIVILEGE_SUPERVISOR in Hb. lia.
  - rewrite H. apply trap_status_supervisor.
  - rewrite H. apply trap_status_supervisor.
  - unfold trap_status.
    destruct (Nat.eqb_spec T PRIVILEGE_MACHINE); [contradiction|].
    destruct (Nat.eqb_spec T PRIVILEGE_SUPERVISOR); [contradiction|].
    reflexivity.
Qed.

(** An ECALL from user mode ([cause] 8) with every exception delegated:
    delivered to supervisor mode, [sepc] the PC, SPP = USER, SPIE = 1,
    SIE = 0. *)
Lemma trap_saves_context_witness :
  let vm' := riscv32_trap vm_user_delegated 8 0 in
  trap_target vm_user_delegated 8 = PRIVILEGE_SUPERVISOR /\
  csr_epc (csr vm') PRIVILEGE_SUPERVISOR = 0x80000000 /\
  csr_cause (csr vm') PRIVILEGE_SUPERVISOR = 8 /\
  cut_bits (csr_status (csr vm')) 8 1 = 0 /\
  cut_bits (csr_status (csr vm')) 5 1 = 1 /\
  cut_bits (csr_status (csr vm')) 1 1 = 0 /\
  priv_mode vm' = PRIVILEGE_SUPERVISOR /\
  wait_event vm' = 0.
Proof.
  assert (Hpm : (priv_mode vm_user_delegated <= PRIVILEGE_MACHINE)%nat)
    by (vm_compute; lia).
  assert (HT : trap_target vm_user_delegated 8 = PRIVILEGE_SUPERVISOR) by reflexivity.
  destruct (trap_saves_context vm_user_delegated 8 0 Hpm)
    as (He & Hc & _ & _ & Hs & _ & Hp & Hw).
  destruct (Hs HT) as (Hspp & Hspie & Hsie).
  rewrite HT in He, Hc, Hp.
  repeat split; assumption.
Defined.

(** C3, at the failing input.  In user mode, with interrupt 5 delegated
    by machine mode in [ideleg] and kept by supervisor mode, the walk of
    the spec delivers the interrupt to SUPERVISOR; [riscv32_interrupt]
    consults [edeleg] with the whole cause word as bit index and delivers
    it to MACHINE. *)
Theorem interrupt_ignores_ideleg :
  spec_trap_target vm_user_mideleg5 (Z.lor INTERRUPT_MASK 5) = PRIVILEGE_SUPERVISOR /\
  trap_target vm_user_mideleg5 (Z.lor INTERRUPT_MASK 5) = PRIVILEGE_MACHINE /\
  priv_mode (riscv32_interrupt vm_user_mideleg5 5) = PRIVILEGE_MACHINE.
Proof. repeat split; vm_compute; reflexivity. Qed.

Lemma land_interrupt_mask (ca : Z) :
  (Z.land ca INTERRUPT_MASK =? 0) = negb (Z.testbit ca 31).
Proof. change INTERRUPT_MASK with (2 ^ 31). apply land_pow2_testbit. lia. Qed.

Lemma land_one (tv : Z) : (Z.land tv 1 =? 0) = negb (Z.testbit tv 0).
Proof. change 1 with (2 ^ 0). apply land_pow2_testbit. lia. Qed.

Lemma run_vector_pc (vm : vm_state) :
  let T := priv_mode vm in
  let tv := csr_tvec (csr vm) T in
  let ca := csr_cause (csr vm) T in
  registers (run_vector vm) REGISTER_PC =
    if Z.testbit ca 31 && Z.testbit tv 0
    then wrap32 (Z.land tv (Z.lnot 3) + Z.shiftl ca 2)
    else wrap32 (Z.land tv (Z.lnot 3)).
Proof.
  intros T tv ca. unfold run_vector. fold T. fold tv. fold ca.
  rewrite land_interrupt_mask, land_one, !negb_involutive.
  destruct (Z.testbit ca 31 && Z.testbit tv 0); simpl; rewrite storeZ_same.
  - unfold shl32. apply wrap32_add.
  - reflexivity.
Qed.

Lemma run_vector_keeps (vm : vm_state) :
  priv_mode (run_vector vm) = priv_mode vm /\ csr (run_vector vm) = csr vm.
Proof. unfold run_vector. destruct (_ && _); split; reflexivity. Qed.

Section LoopFacts.

Variable riscv32i_emulate : vm_state -> Z -> vm_state.
Variable riscv32c_emulate : vm_state -> Z -> vm_state.
Variable tlb_hash : Z -> Z.
Variable tlb_check : tlb_entry -> Z -> Z -> bool.
Variable block_inside_page : Z -> Z -> bool.
Variable riscv32_mmu_op : vm_state -> Z -> Z -> Z -> vm_state * option (list Z).

Local Abbreviation run_till_event :=
  (riscv32_run_till_event riscv32i_emulate riscv32c_emulate tlb_hash tlb_check
     block_inside_page riscv32_mmu_op).

(** The hot loop returns only with [wait_event] cleared. *)
Lemma run_till_event_stops fuel vm vm1 :
  run_till_event fuel vm = Some vm1 -> wait_event vm1 = 0.
Proof.
  revert vm. induction fuel as [|f IH]; intros vm; simpl.
  - destruct (Z.eqb_spec (wait_event vm) 0); [|discriminate].
    intros [= <-]. assumption.
  - destruct (Z.eqb_spec (wait_event vm) 0).
    + intros [= <-]. assumption.
    + apply IH.
Qed.

(** More iterations do not change a result already reached. *)
Lemma run_till_event_mono fuel vm vm1 :
  run_till_event fuel vm = Some vm1 -> run_till_event (S fuel) vm = Some vm1.
Proof.
  revert vm. induction fuel as [|f IH]; intros vm.
  - simpl. destruct (wait_event vm =? 0); [auto|discriminate].
  - intros H. simpl in H. change (run_till_event (S (S f)) vm)
      with (if wait_event vm =? 0 then Some vm
            else run_till_event (S f) (hot_step riscv32i_emulate riscv32c_emulate
                   tlb_hash tlb_check block_inside_page riscv32_mmu_op vm)).
    destruct (wait_event vm =? 0); [exact H|]. apply IH. exact H.
Qed.

End LoopFacts.

(** C4. An iteration of the outer loop of [riscv32_run] that comes back
    from the hot loop leaves, with [T] the privilege after the event, the
    PC at [(tvec[T] & ~3) + (cause[T] << 2)] (in 32-bit arithmetic) when
    bit 31 of [cause[T]] and bit 0 of [tvec[T]] are both set, and at
    [tvec[T] & ~3] otherwise.  With [mtvec = 0x1000 | 1] in machine mode,
    [riscv32_interrupt(vm, 7)] followed by that selection gives
    [mcause = 0x80000007] and PC [0x101C]. *)
Theorem run_vectors_pc
    (i_emu c_emu : vm_state -> Z -> vm_state) (hash : Z -> Z)
    (check : tlb_entry -> Z -> Z -> bool) (inside : Z -> Z -> bool)
    (mmu : vm_state -> Z -> Z -> Z -> vm_state * option (list Z))
    (fuel : nat) (vm vm' : vm_state) :
  riscv32_run_iteration i_emu c_emu hash check inside mmu fuel vm = Some vm' ->
  (exists vm1,
      riscv32_run_till_event i_emu c_emu hash check inside mmu fuel
        (set_wait_event vm 1) = Some vm1 /\
      wait_event vm1 = 0 /\
      let T := priv_mode vm1 in
      let tv := csr_tvec (csr vm1) T in
      let ca := csr_cause (csr vm1) T in
      priv_mode vm' = T /\
      registers vm' REGISTER_PC =
        if Z.testbit ca 31 && Z.testbit tv 0
        then wrap32 (Z.land tv (Z.lnot 3) + Z.shiftl ca 2)
        else wrap32 (Z.land tv (Z.lnot 3))) /\
  (forall m : vm_state,
      priv_mode m = PRIVILEGE_MACHINE ->
      csr_tvec (csr m) PRIVILEGE_MACHINE = 0x1001 ->
      csr_cause (csr (run_vector (riscv32_interrupt m 7))) PRIVILEGE_MACHINE = 0x80000007 /\
      registers (run_vector (riscv32_interrupt m 7)) REGISTER_PC = 0x101C).
Proof.
  intros Hrun. split.
  - unfold riscv32_run_iteration in Hrun.
    destruct (riscv32_run_till_event _ _ _ _ _ _ fuel (set_wait_event vm 1))
      as [vm1|] eqn:Hev; [|discriminate].
    injection Hrun as <-. exists vm1. split; [reflexivity|].
    split; [eapply run_till_event_stops; exact Hev|].
    cbv zeta. split; [apply run_vector_keeps|apply run_vector_pc].
  - intros m Hp Htv.
    assert (HT : trap_target m (Z.lor INTERRUPT_MASK 7) = PRIVILEGE_MACHINE)
      by (unfold trap_target; rewrite Hp; reflexivity).
    assert (Hpm : priv_mode (riscv32_interrupt m 7) = PRIVILEGE_MACHINE)
      by (unfold riscv32_interrupt, riscv32_trap; simpl; exact HT).
    assert (Hca : csr_cause (csr (riscv32_interrupt m 7)) PRIVILEGE_MACHINE = 0x80000007)
      by (unfold riscv32_interrupt, riscv32_trap; simpl; rewrite HT; apply store_same).
    assert (Htv' : csr_tvec (csr (riscv32_interrupt m 7)) PRIVILEGE_MACHINE = 0x1001)
      by (unfold riscv32_interrupt, riscv32_trap; simpl; exact Htv).
    split.
    + destruct (run_vector_keeps (riscv32_interrupt m 7)) as [_ ->]. exact Hca.
    + rewrite run_vector_pc. cbv zeta. rewrite Hpm, Hca, Htv'. reflexivity.
Qed.

(** One iteration from machine mode with [mtvec = 0x1000 | 1], on a page
    of zero bytes: the all-zero word is a compressed encoding, the
    handler raises the timer interrupt, and the loop ends at [0x101C]. *)
Lemma run_vectors_pc_witness :
  exists vm',
    riscv32_run_iteration riscv32_illegal_insn
      (fun vm _ => riscv32_interrupt vm 7)
      tlb_hash0 tlb_check_hit inside_page mmu_fault 1 vm_vectored = Some vm' /\
    priv_mode vm' = PRIVILEGE_MACHINE /\
    registers vm' REGISTER_PC = 0x101C.
Proof.
  eexists. split; [reflexivity|].
  destruct (run_vectors_pc riscv32_illegal_insn (fun vm _ => riscv32_interrupt vm 7)
              tlb_hash0 tlb_check_hit inside_page mmu_fault 1 vm_vectored _ eq_refl)
    as [(vm1 & Hev & _ & Hp & Hpc) _].
  injection Hev as <-. split; [exact Hp|]. exact Hpc.
Defined.

(** An instruction fetched through the TLB and found illegal traps with
    [epc] at the address it was fetched from: the PC is advanced only
    after the handler has returned. *)
Lemma illegal_instruction_epc
    (c_emu : vm_state -> Z -> vm_state) (hash : Z -> Z)
    (check : tlb_entry -> Z -> Z -> bool) (inside : Z -> Z -> bool)
    (mmu : vm_state -> Z -> Z -> Z -> vm_state * option (list Z))
    (vm : vm_state) :
  let pc := registers vm REGISTER_PC in
  let p := tlb_ptr (tlb vm (hash pc)) in
  let off := Z.land pc 0xFFF in
  let instruction := read_uint32_le [p off; p (off + 1); p (off + 2); p (off + 3)] in
  check (tlb vm (hash pc)) pc MMU_EXEC && inside pc 4 = true ->
  Z.land instruction RISCV32I_OPCODE_MASK = RISCV32I_OPCODE_MASK ->
  let vm' := hot_step riscv32_illegal_insn c_emu hash check inside mmu vm in
  csr_epc (csr vm') (priv_mode vm') = pc /\
  csr_cause (csr vm') (priv_mode vm') = TRAP_ILL_INSTR /\
  csr_tval (csr vm') (priv_mode vm') = instruction /\
  wait_event vm' = 0.
Proof.
  intros pc p off instruction Hhit Hop vm'.
  subst vm'. unfold hot_step, hot_fetch. cbv zeta.
  change (registers (riscv32i_write_register_u vm REGISTER_ZERO 0) REGISTER_PC) with pc.
  change (tlb (riscv32i_write_register_u vm REGISTER_ZERO 0)) with (tlb vm).
  rewrite Hhit. fold p. fold off. fold instruction.
  unfold riscv32_exec_instruction. rewrite Hop, Z.eqb_refl. cbn [negb].
  unfold pc_advance, riscv32_illegal_insn, riscv32_trap, riscv32_break,
    set_wait_event, set_registers. cbn [csr priv_mode wait_event csr_epc csr_cause csr_tval].
  rewrite !store_same. repeat split; reflexivity.
Qed.



End Riscv32Facts.

(** ** CSR access (riscv_csr.c) *)

Module CsrFacts.
Import Csr CsrSamples.

Lemma sext32_land (x : Z) : sext32 (Z.land x 0xFFFFFFFF) = sext32 x.
Proof.
  unfold sext32. change 0xFFFFFFFF with (Z.ones 32).
  rewrite Z.land_ones by lia. rewrite Z.mod_mod by lia. reflexivity.
Qed.

Lemma helper_dest64 (c d : Z) (op : csr_op_kind) :
  snd (riscv_csr_helper true c d op) = c.
Proof. reflexivity. Qed.

Lemma helper_dest32 (c d : Z) (op : csr_op_kind) :
  snd (riscv_csr_helper false c d op) = Z.land c 0xFFFFFFFF.
Proof. reflexivity. Qed.

(** The two access checks of [riscv_csr_op] return before anything is
    touched. *)
Lemma csr_op_denied (E : csr_env) (vm : hart) (c v : Z) (op : csr_op_kind) :
  (riscv_csr_readonly c = true /\ (op = CSR_SWAP \/ v <> 0))
  \/ riscv_csr_privilege c > priv_mode vm ->
  riscv_csr_op E vm c v op = ret false vm v.
Proof.
  intros H. unfold riscv_csr_op.
  destruct (riscv_csr_readonly c && (is_swap op || negb (v =? 0))) eqn:Hro;
    [reflexivity|].
  destruct H as [[Hr Hw]|Hp].
  - exfalso. rewrite Hr in Hro. simpl in Hro.
    destruct Hw as [->|Hv]; [discriminate|].
    apply Z.eqb_neq in Hv. rewrite Hv in Hro.
    destruct (is_swap op); discriminate.
  - destruct (Z.gtb_spec (riscv_csr_privilege c) (priv_mode vm)); [reflexivity|lia].
Qed.

(** Past the checks the result is that of the dispatch, sign-extended
    on an RV32 hart. *)
Lemma csr_op_granted (E : csr_env) (vm : hart) (c v : Z) (op : csr_op_kind) :
  riscv_csr_readonly c && (is_swap op || negb (v =? 0)) = false ->
  riscv_csr_privilege c <= priv_mode vm ->
  let r := riscv_csr_op_internal E vm c v op in
  riscv_csr_op E vm c v op =
    if negb (rv64 (hart_of r)) then ret (ok r) (hart_of r) (sext32 (dest_of r)) else r.
Proof.
  intros Hro Hp r. unfold riscv_csr_op. rewrite Hro.
  destruct (Z.gtb_spec (riscv_csr_privilege c) (priv_mode vm)); [lia|reflexivity].
Qed.

Lemma csr_direct_result get set p (vm : hart) (v : Z) (op : csr_op_kind) :
  let r := csr_direct get set p vm v op in
  ok r = true /\ rv64 (hart_of r) = rv64 vm /\
  dest_of r = if rv64 vm then get (csr vm) p else Z.land (get (csr vm) p) 0xFFFFFFFF.
Proof.
  unfold csr_direct. destruct (rv64 vm) eqn:H64; simpl; rewrite H64; auto.
Qed.

Lemma direct_csr_dispatch (E : csr_env) (vm : hart) (c v : Z) (op : csr_op_kind) get p :
  direct_csr c = Some (get, p) ->
  riscv_csr_readonly c = false /\
  riscv_csr_privilege c = Z.of_nat p /\
  exists set, riscv_csr_op_internal E vm c v op = csr_direct get set p vm v op.
Proof.
  unfold direct_csr.
  repeat (match goal with
          | |- context [?a =? ?b] =>
              destruct (Z.eqb_spec a b) as [->|?];
              [intros [= <- <-]; split; [reflexivity|split; [reflexivity|]];
               eexists; reflexivity|]
          end).
  discriminate.
Qed.

Lemma masked_snd is64 c d m op :
  snd (riscv_csr_helper_masked is64 c d m op)
  = Z.land c (if is64 then m else Z.land m 0xFFFFFFFF).
Proof. reflexivity. Qed.

Lemma helper_snd is64 c d op :
  snd (riscv_csr_helper is64 c d op) = if is64 then c else Z.land c 0xFFFFFFFF.
Proof. destruct is64; reflexivity. Qed.

Lemma helper_l_snd is64 c d m op :
  snd (riscv_csr_helper_l is64 c d m op)
  = Z.land c (if is64 then m else Z.land m 0xFFFFFFFF).
Proof. unfold riscv_csr_helper_l. destruct is64; reflexivity. Qed.

Lemma same_read_failed is64 vm v v' : same_read is64 (ret false vm v) (ret false vm v').
Proof. split; [reflexivity|]. simpl. discriminate. Qed.

Lemma same_read_const vm a : same_read (rv64 vm) (riscv_csr_const vm a) (riscv_csr_const vm a).
Proof. split; [reflexivity|]. simpl. auto. Qed.

Lemma same_read_zero_h vm v v' : same_read (rv64 vm) (riscv_csr_zero_h vm v) (riscv_csr_zero_h vm v').
Proof.
  unfold riscv_csr_zero_h. destruct (negb (rv64 vm));
    [apply same_read_const|apply same_read_failed].
Qed.

Lemma same_read_direct get set p vm v op v' op' :
  same_read (rv64 vm) (csr_direct get set p vm v op) (csr_direct get set p vm v' op').
Proof.
  unfold csr_direct.
  pose proof (helper_snd (rv64 vm) (get (csr vm) p) v op) as H1.
  pose proof (helper_snd (rv64 vm) (get (csr vm) p) v' op') as H2.
  destruct (riscv_csr_helper _ _ v op) as [a d].
  destruct (riscv_csr_helper _ _ v' op') as [a' d'].
  simpl in *. subst. split; [reflexivity|]. simpl. auto.
Qed.

Lemma same_read_masked get set p m vm v op v' op' :
  same_read (rv64 vm) (csr_masked get set p m vm v op) (csr_masked get set p m vm v' op').
Proof.
  unfold csr_masked.
  pose proof (masked_snd (rv64 vm) (get (csr vm) p) v m op) as H1.
  pose proof (masked_snd (rv64 vm) (get (csr vm) p) v' m op') as H2.
  destruct (riscv_csr_helper_masked _ _ v _ op) as [a d].
  destruct (riscv_csr_helper_masked _ _ v' _ op') as [a' d'].
  simpl in *. subst. split; [reflexivity|]. simpl. auto.
Qed.

Lemma helper_h_snd c d m op :
  exists a, riscv_csr_helper_h false c d m op
            = Some (a, Z.land (Z.shiftr c 32) (Z.land (Z.shiftr m 32) 0xFFFFFFFF)).
Proof. unfold riscv_csr_helper_h. simpl. eexists. reflexivity. Qed.

Lemma same_read_envcfg_l p m vm v op v' op' :
  same_read (rv64 vm) (csr_envcfg_l p m vm v op) (csr_envcfg_l p m vm v' op').
Proof.
  unfold csr_envcfg_l.
  pose proof (helper_l_snd (rv64 vm) (envcfg (csr vm) p) v m op) as H1.
  pose proof (helper_l_snd (rv64 vm) (envcfg (csr vm) p) v' m op') as H2.
  destruct (riscv_csr_helper_l _ _ v _ op) as [a d].
  destruct (riscv_csr_helper_l _ _ v' _ op') as [a' d'].
  simpl in *. subst. split; [reflexivity|]. simpl. auto.
Qed.

Lemma same_read_mseccfg_l m vm v op v' op' :
  same_read (rv64 vm) (csr_mseccfg_l m vm v op) (csr_mseccfg_l m vm v' op').
Proof.
  unfold csr_mseccfg_l.
  pose proof (helper_l_snd (rv64 vm) (mseccfg (csr vm)) v m op) as H1.
  pose proof (helper_l_snd (rv64 vm) (mseccfg (csr vm)) v' m op') as H2.
  destruct (riscv_csr_helper_l _ _ v _ op) as [a d].
  destruct (riscv_csr_helper_l _ _ v' _ op') as [a' d'].
  simpl in *. subst. split; [reflexivity|]. simpl. auto.
Qed.

Lemma same_read_envcfg_h p m vm v op v' op' :
  same_read (rv64 vm) (csr_envcfg_h p m vm v op) (csr_envcfg_h p m vm v' op').
Proof.
  unfold csr_envcfg_h. destruct (rv64 vm) eqn:H64.
  - apply same_read_failed.
  - destruct (helper_h_snd (envcfg (csr vm) p) v m op) as [a ->].
    destruct (helper_h_snd (envcfg (csr vm) p) v' m op') as [a' ->].
    split; [reflexivity|]. simpl. auto.
Qed.

Lemma same_read_mseccfg_h m vm v op v' op' :
  same_read (rv64 vm) (csr_mseccfg_h m vm v op) (csr_mseccfg_h m vm v' op').
Proof.
  unfold csr_mseccfg_h. destruct (rv64 vm) eqn:H64.
  - apply same_read_failed.
  - destruct (helper_h_snd (mseccfg (csr vm)) v m op) as [a ->].
    destruct (helper_h_snd (mseccfg (csr vm)) v' m op') as [a' ->].
    split; [reflexivity|]. simpl. auto.
Qed.

Section Frame.

Variable E : csr_env.
Hypothesis HE : env_frame E.

Let Hci := proj1 HE.
Let Htf := proj1 (proj2 HE).
Let Hin := proj1 (proj2 (proj2 HE)).
Let Hic := proj1 (proj2 (proj2 (proj2 HE))).
Let Hra := proj2 (proj2 (proj2 (proj2 HE))).

Lemma same_read_time vm v v' :
  same_read (rv64 vm) (riscv_csr_time E vm v) (riscv_csr_time E vm v').
Proof.
  unfold riscv_csr_time. destruct (riscv_csr_timer_enabled E vm);
    [apply same_read_const|apply same_read_failed].
Qed.

Lemma same_read_timeh vm v v' :
  same_read (rv64 vm) (riscv_csr_timeh E vm v) (riscv_csr_timeh E vm v').
Proof.
  unfold riscv_csr_timeh. destruct (_ && _);
    [apply same_read_const|apply same_read_failed].
Qed.

Lemma same_read_seed vm v v' :
  same_read (rv64 vm) (riscv_csr_seed E vm v) (riscv_csr_seed E vm v').
Proof.
  unfold riscv_csr_seed. destruct (riscv_csr_seed_enabled E vm);
    [apply same_read_const|apply same_read_failed].
Qed.

Lemma same_read_status vm m v op v' op' :
  same_read (rv64 vm) (riscv_csr_status E vm v m op) (riscv_csr_status E vm v' m op').
Proof.
  unfold riscv_csr_status.
  pose proof (masked_snd (rv64 vm) (status (csr vm)) v m op) as H1.
  pose proof (masked_snd (rv64 vm) (status (csr vm)) v' m op') as H2.
  destruct (riscv_csr_helper_masked _ _ v _ op) as [a d].
  destruct (riscv_csr_helper_masked _ _ v' _ op') as [a' d'].
  simpl in H1, H2. subst d d'.
  split; [reflexivity|]. intros _. cbn [dest_of hart_of ret].
  split; [|split].
  - unfold riscv_csr_sd_bit. cbn [rv64 with_csr]. reflexivity.
  - destruct (negb _); [rewrite Hci|]; reflexivity.
  - destruct (negb _); [rewrite Hci|]; reflexivity.
Qed.

Lemma same_read_ie vm m v op v' op' :
  same_read (rv64 vm) (riscv_csr_ie E vm v m op) (riscv_csr_ie E vm v' m op').
Proof.
  unfold riscv_csr_ie.
  pose proof (masked_snd (rv64 vm) (ie (csr vm)) v m op) as H1.
  pose proof (masked_snd (rv64 vm) (ie (csr vm)) v' m op') as H2.
  destruct (riscv_csr_helper_masked _ _ v _ op) as [a d].
  destruct (riscv_csr_helper_masked _ _ v' _ op') as [a' d'].
  simpl in H1, H2. subst d d'.
  split; [reflexivity|]. intros _. cbn [dest_of hart_of ret].
  rewrite !Hci. auto.
Qed.

Lemma same_read_ip vm m v op v' op' :
  same_read (rv64 vm) (riscv_csr_ip E vm v m op) (riscv_csr_ip E vm v' m op').
Proof.
  unfold riscv_csr_ip.
  pose proof (masked_snd (rv64 vm) (ip (csr vm)) v m op) as H1.
  pose proof (masked_snd (rv64 vm) (ip (csr vm)) v' m op') as H2.
  destruct (riscv_csr_helper_masked _ _ v _ op) as [a d].
  destruct (riscv_csr_helper_masked _ _ v' _ op') as [a' d'].
  simpl in H1, H2. subst d d'.
  split; [reflexivity|]. intros _. cbn [dest_of hart_of ret].
  rewrite !Hci, !Hra. auto.
Qed.

Lemma stimecmp_set_xlen vm t : rv64 (riscv_csr_stimecmp_set E vm t) = rv64 vm.
Proof.
  unfold riscv_csr_stimecmp_set. destruct (rvtimecmp_pending E _);
    [rewrite Hin|rewrite Hic]; reflexivity.
Qed.

Lemma same_read_stimecmp vm v op v' op' :
  same_read (rv64 vm) (riscv_csr_stimecmp E vm v op) (riscv_csr_stimecmp E vm v' op').
Proof.
  unfold riscv_csr_stimecmp. destruct (riscv_csr_sstc_enabled E vm);
    [|apply same_read_failed].
  pose proof (helper_l_snd (rv64 vm) (stimecmp vm) v maxlen_max op) as H1.
  pose proof (helper_l_snd (rv64 vm) (stimecmp vm) v' maxlen_max op') as H2.
  destruct (riscv_csr_helper_l _ _ v _ op) as [a d].
  destruct (riscv_csr_helper_l _ _ v' _ op') as [a' d'].
  simpl in H1, H2. subst d d'.
  split; [reflexivity|]. intros _. cbn [dest_of hart_of ret].
  rewrite !stimecmp_set_xlen. auto.
Qed.

Lemma same_read_stimecmph vm v op v' op' :
  same_read (rv64 vm) (riscv_csr_stimecmph E vm v op) (riscv_csr_stimecmph E vm v' op').
Proof.
  unfold riscv_csr_stimecmph. destruct (rv64 vm) eqn:H64; cbn [negb andb].
  - apply same_read_failed.
  - destruct (riscv_csr_sstc_enabled E vm); [|apply same_read_failed].
    destruct (helper_h_snd (stimecmp vm) v maxlen_max op) as [a ->].
    destruct (helper_h_snd (stimecmp vm) v' maxlen_max op') as [a' ->].
    split; [reflexivity|]. intros _. cbn [dest_of hart_of ret].
    rewrite !stimecmp_set_xlen. auto.
Qed.

Lemma same_read_satp vm v op v' op' :
  same_read (rv64 vm) (riscv_csr_satp E vm v op) (riscv_csr_satp E vm v' op').
Proof.
  unfold riscv_csr_satp.
  destruct (negb (Z.land (status (csr vm)) CSR_STATUS_TVM =? 0));
    [apply same_read_failed|].
  destruct (rv64 vm) eqn:H64.
  - match goal with
    | |- context [riscv_csr_helper true ?c v op] =>
        pose proof (helper_snd true c v op) as H1;
        pose proof (helper_snd true c v' op') as H2;
        destruct (riscv_csr_helper true c v op) as [a d];
        destruct (riscv_csr_helper true c v' op') as [a' d']
    end.
    simpl in H1, H2. subst d d'.
    split.
    + repeat destruct (negb (Bool.eqb _ _)); reflexivity.
    + intros _.
      repeat destruct (negb (Bool.eqb _ _)); cbn [dest_of hart_of ret];
        rewrite ?Htf; cbn [rv64 with_mmu]; auto.
  - match goal with
    | |- context [riscv_csr_helper false ?c v op] =>
        pose proof (helper_snd false c v op) as H1;
        pose proof (helper_snd false c v' op') as H2;
        destruct (riscv_csr_helper false c v op) as [a d];
        destruct (riscv_csr_helper false c v' op') as [a' d']
    end.
    simpl in H1, H2. subst d d'.
    split.
    + repeat destruct (negb (Bool.eqb _ _)); reflexivity.
    + intros _.
      repeat destruct (negb (Bool.eqb _ _)); cbn [dest_of hart_of ret];
        rewrite ?Htf; cbn [rv64 with_mmu]; auto.
Qed.

Lemma set_fcsr_xlen vm f : rv64 (riscv_csr_set_fcsr vm f) = rv64 vm.
Proof. unfold riscv_csr_set_fcsr. destruct (negb _); reflexivity. Qed.

Lemma same_read_fflags vm v op v' op' :
  same_read (rv64 vm) (riscv_csr_fflags E vm v op) (riscv_csr_fflags E vm v' op').
Proof.
  unfold riscv_csr_fflags. destruct (negb (fpu_is_enabled E vm));
    [apply same_read_failed|].
  cbv beta iota zeta delta [riscv_csr_helper_masked ret].
  split; [reflexivity|]. intros _. cbn [dest_of hart_of].
  rewrite !set_fcsr_xlen. auto.
Qed.

Lemma same_read_frm vm v op v' op' :
  same_read (rv64 vm) (riscv_csr_frm E vm v op) (riscv_csr_frm E vm v' op').
Proof.
  unfold riscv_csr_frm. destruct (negb (fpu_is_enabled E vm));
    [apply same_read_failed|].
  cbv beta iota zeta delta [riscv_csr_helper_masked ret].
  split; [reflexivity|]. intros _. cbn [dest_of hart_of].
  rewrite !set_fcsr_xlen. auto.
Qed.

Lemma same_read_fcsr vm v op v' op' :
  same_read (rv64 vm) (riscv_csr_fcsr E vm v op) (riscv_csr_fcsr E vm v' op').
Proof.
  unfold riscv_csr_fcsr. destruct (negb (fpu_is_enabled E vm));
    [apply same_read_failed|].
  cbv beta iota zeta delta [riscv_csr_helper_masked ret].
  split; [reflexivity|]. intros _. cbn [dest_of hart_of].
  rewrite !set_fcsr_xlen. auto.
Qed.

End Frame.


Ltac split_low_bit p :=
  destruct p as [p|p|];
  try (right; intros; reflexivity); try (left; reflexivity).

(** Outside its case labels the dispatch returns false and leaves the
    operand. *)
Lemma internal_default (E : csr_env) (vm : hart) (c : Z) :
  implemented c = true \/
  (forall v op, riscv_csr_op_internal E vm c v op = ret false vm v).
Proof.
  destruct c as [|p|p];
    [right; intros; reflexivity| |right; intros; reflexivity].
  do 12 (split_low_bit p).
Qed.

Ltac same_read_case HE :=
  lazymatch goal with
  | |- same_read _ (ret false _ _) _ => apply same_read_failed
  | |- same_read _ (riscv_csr_const _ _) _ => apply same_read_const
  | |- same_read _ (riscv_csr_zero _) _ => apply same_read_const
  | |- same_read _ (riscv_csr_zero_h _ _) _ => apply same_read_zero_h
  | |- same_read _ (csr_direct _ _ _ _ _ _) _ => apply same_read_direct
  | |- same_read _ (csr_masked _ _ _ _ _ _ _) _ => apply same_read_masked
  | |- same_read _ (csr_envcfg_l _ _ _ _ _) _ => apply same_read_envcfg_l
  | |- same_read _ (csr_envcfg_h _ _ _ _ _) _ => apply same_read_envcfg_h
  | |- same_read _ (csr_mseccfg_l _ _ _ _) _ => apply same_read_mseccfg_l
  | |- same_read _ (csr_mseccfg_h _ _ _ _) _ => apply same_read_mseccfg_h
  | |- same_read _ (riscv_csr_time _ _ _) _ => apply same_read_time; exact HE
  | |- same_read _ (riscv_csr_timeh _ _ _) _ => apply same_read_timeh; exact HE
  | |- same_read _ (riscv_csr_seed _ _ _) _ => apply same_read_seed; exact HE
  | |- same_read _ (riscv_csr_status _ _ _ _ _) _ => apply same_read_status; exact HE
  | |- same_read _ (riscv_csr_ie _ _ _ _ _) _ => apply same_read_ie; exact HE
  | |- same_read _ (riscv_csr_ip _ _ _ _ _) _ => apply same_read_ip; exact HE
  | |- same_read _ (riscv_csr_stimecmp _ _ _ _) _ => apply same_read_stimecmp; exact HE
  | |- same_read _ (riscv_csr_stimecmph _ _ _ _) _ => apply same_read_stimecmph; exact HE
  | |- same_read _ (riscv_csr_satp _ _ _ _) _ => apply same_read_satp; exact HE
  | |- same_read _ (riscv_csr_fflags _ _ _ _) _ => apply same_read_fflags; exact HE
  | |- same_read _ (riscv_csr_frm _ _ _ _) _ => apply same_read_frm; exact HE
  | |- same_read _ (riscv_csr_fcsr _ _ _ _) _ => apply same_read_fcsr; exact HE
  | |- same_read _ (if ?b then _ else _) _ => destruct b; same_read_case HE
  end.

Lemma same_read_internal (E : csr_env) (vm : hart) (c v v' : Z) (op op' : csr_op_kind) :
  env_frame E -> c <> CSR_MISA ->
  same_read (rv64 vm) (riscv_csr_op_internal E vm c v op)
                      (riscv_csr_op_internal E vm c v' op').
Proof.
  intros HE Hc.
  destruct (internal_default E vm c) as [Himp|Hd].
  - unfold implemented, implemented_csrs in Himp. cbn [existsb] in Himp.
    repeat (apply orb_prop in Himp; destruct Himp as [Himp|Himp];
            [apply Z.eqb_eq in Himp; subst c;
             first [ exfalso; apply Hc; reflexivity
                   | cbv beta iota delta [riscv_csr_op_internal]; same_read_case HE ]
            |]).
    discriminate.
  - rewrite !Hd. apply same_read_failed.
Qed.

(** A successful operation hands back what a plain read of the CSR would
    have returned from the same state, whatever the operation and its
    operand. *)
Lemma csr_op_read_value (E : csr_env) (vm : hart) (c v : Z) (op : csr_op_kind) :
  env_frame E -> c <> CSR_MISA ->
  ok (riscv_csr_op E vm c v op) = true ->
  ok (csr_read E vm c) = true /\
  dest_of (riscv_csr_op E vm c v op) = dest_of (csr_read E vm c).
Proof.
  intros HE Hc Hok. unfold csr_read.
  destruct (riscv_csr_readonly c && (is_swap op || negb (v =? 0))) eqn:Hro.
  { unfold riscv_csr_op in Hok. rewrite Hro in Hok. discriminate. }
  destruct (Z.gtb_spec (riscv_csr_privilege c) (priv_mode vm)) as [Hgt|Hle].
  { rewrite csr_op_denied in Hok by (right; lia). discriminate. }
  assert (Hro0 : riscv_csr_readonly c && (is_swap CSR_SETBITS || negb (0 =? 0)) = false)
    by apply andb_false_r.
  rewrite (csr_op_granted E vm c v op Hro Hle) in Hok |- *.
  rewrite (csr_op_granted E vm c 0 CSR_SETBITS Hro0 Hle).
  destruct (same_read_internal E vm c v 0 op CSR_SETBITS HE Hc) as [Hsame Hval].
  assert (Hoki : ok (riscv_csr_op_internal E vm c v op) = true)
    by (destruct (negb (rv64 _)); exact Hok).
  destruct (Hval Hoki) as (Hd & H64 & H64').
  rewrite H64, H64'.
  destruct (negb (rv64 vm)); cbn [ok dest_of ret]; rewrite <- ?Hsame, ?Hd; auto.
Qed.

(** C1, as the code has it.  When one of the two access checks rejects
    the operation the call fails and [v] is left as the caller passed
    it, not replaced by the CSR's value.  When the operation is let
    through to one of the directly stored CSRs (stvec, sscratch, sepc,
    scause, stval, mtvec, mscratch, mepc, mcause, mtval) the call
    succeeds and [v] holds the word the CSR held before the operation, on
    an RV32 hart its low half sign-extended.  For every CSR other than
    misa, a call that succeeds leaves in [v] what a plain read of the
    CSR returns from the state before the operation, whatever the
    operation and its operand (the routines of the other translation
    units being such that they keep the XLEN of the hart). *)
Theorem csr_op_returns_old_value (E : csr_env) (vm : hart) (c v : Z) (op : csr_op_kind) :
  ((riscv_csr_readonly c = true /\ (op = CSR_SWAP \/ v <> 0))
   \/ riscv_csr_privilege c > priv_mode vm ->
   ok (riscv_csr_op E vm c v op) = false /\
   dest_of (riscv_csr_op E vm c v op) = v /\
   hart_of (riscv_csr_op E vm c v op) = vm) /\
  (forall get p,
      direct_csr c = Some (get, p) ->
      Z.of_nat p <= priv_mode vm ->
      ok (riscv_csr_op E vm c v op) = true /\
      dest_of (riscv_csr_op E vm c v op) =
        if rv64 vm then get (csr vm) p else sext32 (get (csr vm) p)) /\
  (env_frame E -> c <> CSR_MISA ->
   ok (riscv_csr_op E vm c v op) = true ->
   ok (csr_read E vm c) = true /\
   dest_of (riscv_csr_op E vm c v op) = dest_of (csr_read E vm c)).
Proof.
  split; [|split].
  - intros H. rewrite (csr_op_denied E vm c v op H). auto.
  - intros get p Hd Hp.
    destruct (direct_csr_dispatch E vm c v op get p Hd) as (Hro & Hpr & set & Hint).
    rewrite csr_op_granted by (rewrite ?Hro, ?Hpr; auto).
    rewrite Hint.
    destruct (csr_direct_result get set p vm v op) as (Hok & H64 & Hdest).
    rewrite H64. destruct (rv64 vm); simpl.
    + auto.
    + rewrite Hdest. split; [exact Hok|apply sext32_land].
  - intros HE Hc Hok. apply csr_op_read_value; assumption.
Qed.

(** A plain environment keeps the frame. *)
Lemma env_plain_frame : env_frame env_plain.
Proof. repeat split; intros; reflexivity. Qed.

(** In machine mode, a CSRRS of 0x10 on [mscratch] holding 7 returns 7;
    in user mode the same access is denied and leaves 0x10; a CSRRW on
    [mstatus] returns what a read of [mstatus] returns. *)
Lemma csr_op_returns_old_value_witness :
  (ok (riscv_csr_op env_plain hart_user CSR_MSCRATCH 0x10 CSR_SETBITS) = false /\
   dest_of (riscv_csr_op env_plain hart_user CSR_MSCRATCH 0x10 CSR_SETBITS) = 0x10 /\
   hart_of (riscv_csr_op env_plain hart_user CSR_MSCRATCH 0x10 CSR_SETBITS) = hart_user) /\
  (ok (riscv_csr_op env_plain hart_machine CSR_MSCRATCH 0x10 CSR_SETBITS) = true /\
   dest_of (riscv_csr_op env_plain hart_machine CSR_MSCRATCH 0x10 CSR_SETBITS) = 7) /\
  (ok (csr_read env_plain hart_machine CSR_MSTATUS) = true /\
   dest_of (riscv_csr_op env_plain hart_machine CSR_MSTATUS 0x8 CSR_SWAP)
   = dest_of (csr_read env_plain hart_machine CSR_MSTATUS)).
Proof.
  split; [|split].
  - apply (csr_op_returns_old_value env_plain hart_user CSR_MSCRATCH 0x10 CSR_SETBITS).
    right. vm_compute. reflexivity.
  - apply (proj1 (proj2 (csr_op_returns_old_value env_plain hart_machine CSR_MSCRATCH 0x10
                           CSR_SETBITS)) scratch PRIVILEGE_MACHINE).
    + reflexivity.
    + vm_compute. discriminate.
  - apply (proj2 (proj2 (csr_op_returns_old_value env_plain hart_machine CSR_MSTATUS 0x8
                           CSR_SWAP))).
    + exact env_plain_frame.
    + discriminate.
    + reflexivity.
Defined.

(** C1 as stated fails: a denied access leaves the caller's word in
    [v], here 5, while [mscratch] holds 7. *)
Lemma denied_access_keeps_operand :
  scratch (csr hart_user) PRIVILEGE_MACHINE = 7 /\
  ok (riscv_csr_op env_plain hart_user CSR_MSCRATCH 5 CSR_SETBITS) = false /\
  dest_of (riscv_csr_op env_plain hart_user CSR_MSCRATCH 5 CSR_SETBITS) = 5 /\
  dest_of (riscv_csr_op env_plain hart_user CSR_MSCRATCH 5 CSR_SETBITS)
    <> scratch (csr hart_user) PRIVILEGE_MACHINE.
Proof. repeat split; try reflexivity. vm_compute. discriminate. Qed.

Lemma readonly_const_dispatch (E : csr_env) (vm : hart) (c v : Z) (op : csr_op_kind) :
  readonly_const_csr c = true ->
  riscv_csr_readonly c = true /\ ok (riscv_csr_op_internal E vm c v op) = true.
Proof.
  unfold readonly_const_csr. intros H.
  repeat (apply orb_prop in H; destruct H as [H|H]);
    apply Z.eqb_eq in H; subst c; split; reflexivity.
Qed.

Lemma is_swap_spec (op : csr_op_kind) : is_swap op = true <-> op = CSR_SWAP.
Proof. destruct op; simpl; split; intros; congruence. Qed.

Lemma readonly_guard (v : Z) (op : csr_op_kind) :
  is_swap op || negb (v =? 0) = true <-> op = CSR_SWAP \/ v <> 0.
Proof.
  rewrite orb_true_iff, is_swap_spec, negb_true_iff, Z.eqb_neq. reflexivity.
Qed.

(** C7, as the code has it.  On a read-only CSR id the read-only check
    rejects every SWAP, whatever its source value, and every SETBITS or
    CLEARBITS with a non-zero value: the call fails and touches nothing.
    SETBITS and CLEARBITS with value zero pass that check, and the call
    then succeeds exactly when the privilege check and the CSR's routine
    do; for the machine information registers and the cycle and instret
    counters, accessed with enough privilege, the call fails if and only
    if the operation is a SWAP or the value is non-zero. *)
Theorem readonly_csr_check (E : csr_env) (vm : hart) (c v : Z) (op : csr_op_kind) :
  riscv_csr_readonly c = true ->
  (op = CSR_SWAP \/ v <> 0 ->
   riscv_csr_op E vm c v op = ret false vm v) /\
  (op <> CSR_SWAP -> v = 0 ->
   ok (riscv_csr_op E vm c v op) =
     negb (riscv_csr_privilege c >? priv_mode vm)
     && ok (riscv_csr_op_internal E vm c v op)) /\
  (readonly_const_csr c = true ->
   riscv_csr_privilege c <= priv_mode vm ->
   (ok (riscv_csr_op E vm c v op) = false <-> op = CSR_SWAP \/ v <> 0)).
Proof.
  intros Hro. split; [|split].
  - intros Hw. apply csr_op_denied. left. auto.
  - intros Hop Hv. unfold riscv_csr_op. rewrite Hro. subst v.
    destruct op; try congruence; simpl;
      destruct (riscv_csr_privilege c >? priv_mode vm); simpl; try reflexivity;
      destruct (rv64 (hart_of _)); reflexivity.
  - intros Hc Hp.
    destruct (readonly_const_dispatch E vm c v op Hc) as [_ Hok].
    split.
    + intros Hf.
      destruct (is_swap op || negb (v =? 0)) eqn:Hg; [apply readonly_guard; exact Hg|].
      exfalso. rewrite csr_op_granted in Hf by (rewrite ?Hg, ?andb_false_r; auto).
      destruct (negb (rv64 _)); simpl in Hf; congruence.
    + intros Hw. rewrite csr_op_denied by (left; auto). reflexivity.
Qed.

(** [mhartid] in machine mode: CSRRS with zero reads it, CSRRW and a
    CSRRS with a non-zero value fail. *)
Lemma readonly_csr_check_witness :
  riscv_csr_op env_plain hart_machine CSR_MHARTID 4 CSR_SETBITS
    = ret false hart_machine 4 /\
  ok (riscv_csr_op env_plain hart_machine CSR_MHARTID 0 CSR_SETBITS) = true /\
  (ok (riscv_csr_op env_plain hart_machine CSR_MHARTID 0 CSR_CLEARBITS) = false
   <-> CSR_CLEARBITS = CSR_SWAP \/ 0 <> 0).
Proof.
  assert (Hro : riscv_csr_readonly CSR_MHARTID = true) by reflexivity.
  split; [|split].
  - apply (proj1 (readonly_csr_check env_plain hart_machine CSR_MHARTID 4 CSR_SETBITS Hro)).
    right. discriminate.
  - rewrite (proj1 (proj2 (readonly_csr_check env_plain hart_machine CSR_MHARTID 0
                             CSR_SETBITS Hro))); [reflexivity|discriminate|reflexivity].
  - apply (proj2 (proj2 (readonly_csr_check env_plain hart_machine CSR_MHARTID 0
                           CSR_CLEARBITS Hro))); [reflexivity|vm_compute; discriminate].
Defined.

(** C7 as stated fails: a SWAP whose source value is zero is rejected on
    a read-only CSR, while SETBITS with zero on the same CSR succeeds. *)
Lemma swap_zero_fails_on_readonly :
  riscv_csr_readonly CSR_MHARTID = true /\
  ok (riscv_csr_op env_plain hart_machine CSR_MHARTID 0 CSR_SWAP) = false /\
  ok (riscv_csr_op env_plain hart_machine CSR_MHARTID 0 CSR_SETBITS) = true.
Proof. repeat split; reflexivity. Qed.

Lemma tvm_test (st : Z) : (Z.land st CSR_STATUS_TVM =? 0) = negb (Z.testbit st 20).
Proof. change CSR_STATUS_TVM with (2 ^ 20). apply land_pow2_testbit. lia. Qed.

(** What [riscv_csr_satp] does once the TVM test has passed: it stores
    a mode and a root, and flushes exactly when paging went on or off. *)
Lemma satp_flush_rule (E : csr_env) (vm : hart) (v : Z) (op : csr_op_kind) :
  Z.testbit (status (csr vm)) 20 = false ->
  ok (riscv_csr_satp E vm v op) = true /\
  exists mode root,
    let vm1 := with_mmu vm mode root in
    hart_of (riscv_csr_satp E vm v op) =
      if Bool.eqb (paging_enabled vm1) (paging_enabled vm) then vm1
      else riscv_tlb_flush E vm1.
Proof.
  intros Htvm. unfold riscv_csr_satp. rewrite tvm_test, Htvm. simpl negb. cbv iota.
  destruct (rv64 vm); cbv zeta.
  - destruct (riscv_csr_helper true _ v op) as [satp d].
    set (vm1 := with_mmu vm _ _).
    unfold paging_enabled, CSR_SATP_MODE_PHYS.
    destruct (Bool.eqb (negb (mmu_mode vm1 =? 0)) (negb (mmu_mode vm =? 0))) eqn:Hc;
      simpl; (split; [reflexivity|]); eexists; eexists; cbv zeta; fold vm1; rewrite Hc;
      reflexivity.
  - destruct (riscv_csr_helper false _ v op) as [satp d].
    set (vm1 := with_mmu vm _ _).
    unfold paging_enabled, CSR_SATP_MODE_PHYS.
    destruct (Bool.eqb (negb (mmu_mode vm1 =? 0)) (negb (mmu_mode vm =? 0))) eqn:Hc;
      simpl; (split; [reflexivity|]); eexists; eexists; cbv zeta; fold vm1; rewrite Hc;
      reflexivity.
Qed.

(** C6.  A CSR operation on [satp] with STATUS.TVM (bit 20) set fails
    and leaves the hart, its MMU mode and root page table included, as
    it was.  With TVM clear and supervisor privilege it succeeds, stores
    a mode and a root, and calls the TLB flush if and only if paging went
    from off to on or from on to off. *)
Theorem satp_write_tvm_and_flush (E : csr_env) (vm : hart) (v : Z) (op : csr_op_kind) :
  (Z.testbit (status (csr vm)) 20 = true ->
   ok (riscv_csr_op E vm CSR_SATP v op) = false /\
   hart_of (riscv_csr_op E vm CSR_SATP v op) = vm /\
   mmu_mode (hart_of (riscv_csr_op E vm CSR_SATP v op)) = mmu_mode vm /\
   root_page_table (hart_of (riscv_csr_op E vm CSR_SATP v op)) = root_page_table vm) /\
  (Z.testbit (status (csr vm)) 20 = false ->
   1 <= priv_mode vm ->
   ok (riscv_csr_op E vm CSR_SATP v op) = true /\
   exists mode root,
     let vm1 := with_mmu vm mode root in
     (paging_enabled vm1 <> paging_enabled vm ->
      hart_of (riscv_csr_op E vm CSR_SATP v op) = riscv_tlb_flush E vm1) /\
     (paging_enabled vm1 = paging_enabled vm ->
      hart_of (riscv_csr_op E vm CSR_SATP v op) = vm1)).
Proof.
  split.
  - intros Htvm.
    assert (Hr : hart_of (riscv_csr_op E vm CSR_SATP v op) = vm
                 /\ ok (riscv_csr_op E vm CSR_SATP v op) = false).
    { unfold riscv_csr_op. change (riscv_csr_readonly CSR_SATP) with false.
      change (riscv_csr_privilege CSR_SATP) with 1. simpl andb. cbv iota.
      destruct (1 >? priv_mode vm); [split; reflexivity|].
      change (riscv_csr_op_internal E vm CSR_SATP v op) with (riscv_csr_satp E vm v op).
      unfold riscv_csr_satp. rewrite tvm_test, Htvm. simpl.
      destruct (rv64 vm); split; reflexivity. }
    destruct Hr as [Hh Hk]. rewrite Hh. auto.
  - intros Htvm Hp.
    destruct (satp_flush_rule E vm v op Htvm) as (Hok & mode & root & Hh).
    assert (Hop : hart_of (riscv_csr_op E vm CSR_SATP v op)
                  = hart_of (riscv_csr_satp E vm v op)
                  /\ ok (riscv_csr_op E vm CSR_SATP v op) = ok (riscv_csr_satp E vm v op)).
    { rewrite csr_op_granted by (try reflexivity; change (riscv_csr_privilege CSR_SATP) with 1; lia).
      change (riscv_csr_op_internal E vm CSR_SATP v op) with (riscv_csr_satp E vm v op).
      destruct (negb (rv64 _)); split; reflexivity. }
    destruct Hop as [-> ->]. split; [exact Hok|].
    exists mode, root. cbv zeta in *. rewrite Hh. split; intros Hc.
    + destruct (Bool.eqb _ _) eqn:He; [|reflexivity].
      apply eqb_prop in He. contradiction.
    + rewrite Hc, eqb_reflx. reflexivity.
Qed.

(** With TVM set the write is refused; with TVM clear, writing mode
    SV39 over BARE succeeds. *)
Lemma satp_write_tvm_and_flush_witness :
  (ok (riscv_csr_op env_plain hart_tvm CSR_SATP (8 * 2 ^ 60 + 0x80000) CSR_SWAP) = false /\
   hart_of (riscv_csr_op env_plain hart_tvm CSR_SATP (8 * 2 ^ 60 + 0x80000) CSR_SWAP)
     = hart_tvm) /\
  ok (riscv_csr_op env_plain hart_supervisor CSR_SATP (8 * 2 ^ 60 + 0x80000) CSR_SWAP) = true /\
  mmu_mode (hart_of (riscv_csr_op env_plain hart_supervisor CSR_SATP
                       (8 * 2 ^ 60 + 0x80000) CSR_SWAP)) = CSR_SATP_MODE_SV39.
Proof.
  split; [|split].
  - destruct (proj1 (satp_write_tvm_and_flush env_plain hart_tvm
                       (8 * 2 ^ 60 + 0x80000) CSR_SWAP)) as (Hk & Hh & _).
    + reflexivity.
    + split; assumption.
  - apply (proj2 (satp_write_tvm_and_flush env_plain hart_supervisor
                    (8 * 2 ^ 60 + 0x80000) CSR_SWAP)).
    + reflexivity.
    + vm_compute. discriminate.
  - reflexivity.
Defined.

End CsrFacts.

(** ** JIT code cache (src/rvjit/rvjit.c) *)

Module RvjitFacts.
Import Rvjit RvjitSamples.

Lemma clear_words_length (n i : nat) (l : list Z) :
  length (clear_words n i l) = length l.
Proof.
  revert i l. induction n as [|n IH]; intros i l; simpl; [reflexivity|].
  rewrite IH. apply length_insert.
Qed.

Lemma clear_words_lookup (n i j : nat) (l : list Z) :
  clear_words n i l !! j =
    if decide (i <= j < i + n)%nat
    then (if decide (j < length l)%nat then Some 0 else None)
    else l !! j.
Proof.
  revert i l. induction n as [|n IH]; intros i l; simpl.
  - case_decide; [lia|reflexivity].
  - rewrite IH, length_insert.
    destruct (decide (i = j)) as [->|Hne].
    + repeat case_decide; try lia.
      * apply list_lookup_insert_eq. assumption.
      * apply lookup_ge_None. rewrite length_insert. lia.
    + rewrite list_lookup_insert_ne by assumption.
      repeat case_decide; try lia; reflexivity.
Qed.

Lemma clear_words_idem (n : nat) (l : list Z) :
  clear_words n 0 (clear_words n 0 l) = clear_words n 0 l.
Proof.
  apply list_eq. intros j.
  rewrite (clear_words_lookup n 0 j (clear_words n 0 l)).
  rewrite clear_words_length, clear_words_lookup.
  repeat case_decide; try lia; reflexivity.
Qed.

(** C9.  [rvjit_flush_cache] is idempotent: a second call in a row
    leaves the block, and with it the heap (registries, cursor, heap
    content, bit matrices) and the current block, exactly as the first
    call left them. *)
Theorem flush_cache_idempotent (emit_t : Type) (init : emit_t) (b : rvjit_block emit_t) :
  rvjit_flush_cache init (rvjit_flush_cache init b) = rvjit_flush_cache init b.
Proof.
  destruct b as [h c s lk ls pc r64 e].
  destruct h as [hd hc hs cur bytes bl ln dp jp dm].
  cbv beta iota zeta delta
    [rvjit_flush_cache rvjit_block_init rvjit_linker_cleanup heap_set_maps
     heap_set_dirty with_heap vma_clean
     heap code size linkage links phys_pc rv64 emit
     heap_data heap_code heap_size heap_curr heap_bytes blocks block_links
     dirty_pages jited_pages dirty_mask].
  destruct (cur >? 65536); destruct dp as [d|]; cbv beta iota;
    change (0 >? 65536) with false; cbv beta iota;
    rewrite ?clear_words_idem; reflexivity.
Qed.

(** *** Bits of the page matrices *)

Lemma bit_index_range (addr : Z) : 0 <= bit_index addr < 32.
Proof.
  unfold bit_index. change 0x1F with (Z.ones 5). rewrite Z.land_ones by lia.
  apply Z.mod_pos_bound. lia.
Qed.

Lemma page_bit_pow2 (addr : Z) : page_bit addr = 2 ^ bit_index addr.
Proof. unfold page_bit. apply shl32_one. apply bit_index_range. Qed.

Lemma page_flag_testbit (a : option (list Z)) (h : rvjit_heap) (addr : Z) :
  page_flag a h addr = Z.testbit (word_at a (page_offset h addr)) (bit_index addr).
Proof.
  unfold page_flag. rewrite page_bit_pow2, land_pow2_testbit, negb_involutive.
  - reflexivity.
  - apply bit_index_range.
Qed.

Lemma same_page_offset (h : rvjit_heap) (a q : Z) :
  Z.shiftr a 12 = Z.shiftr q 12 -> page_offset h a = page_offset h q.
Proof.
  intros H. unfold page_offset.
  change 17 with (12 + 5). rewrite <- !Z.shiftr_shiftr by lia. rewrite H. reflexivity.
Qed.

Lemma same_page_bit_index (a q : Z) :
  Z.shiftr a 12 = Z.shiftr q 12 -> bit_index a = bit_index q.
Proof. intros H. unfold bit_index. rewrite H. reflexivity. Qed.

Lemma land_mask_le (a m : Z) : 0 <= m -> 0 <= Z.land a m <= m.
Proof.
  intros Hm. split; [apply Z.land_nonneg; auto|].
  assert (Hsplit : Z.land a m + Z.land (Z.lnot a) m = m).
  { rewrite Z.add_nocarry_lor by (Z.bitblast). Z.bitblast. }
  assert (0 <= Z.land (Z.lnot a) m) by (apply Z.land_nonneg; auto).
  lia.
Qed.

Lemma testbit_set (w k k' : Z) : 0 <= k ->
  Z.testbit (Z.lor w (2 ^ k)) k' = Z.testbit w k' || (k =? k').
Proof. intros Hk. rewrite Z.lor_spec, Z.pow2_bits_eqb by assumption. reflexivity. Qed.

Lemma testbit_clear (w k k' : Z) : 0 <= k -> 0 <= k' < 32 ->
  Z.testbit (Z.land w (not32 (2 ^ k))) k' = Z.testbit w k' && negb (k =? k').
Proof.
  intros Hk Hk'. unfold not32, wrap32.
  rewrite Z.land_spec, Z.mod_pow2_bits_low, Z.lnot_spec, Z.pow2_bits_eqb by lia.
  reflexivity.
Qed.

Lemma word_at_set (l : list Z) (i i' v : Z) :
  0 <= i -> 0 <= i' -> (Z.to_nat i < length l)%nat ->
  word_at (word_set (Some l) i v) i' = if i =? i' then v else word_at (Some l) i'.
Proof.
  intros Hi Hi' Hlen. simpl.
  destruct (Z.eqb_spec i i') as [->|Hne].
  - rewrite list_lookup_insert_eq by assumption. reflexivity.
  - rewrite list_lookup_insert_ne by lia. reflexivity.
Qed.

(** *** Marking pages dirty *)

Lemma page_flag_flag_of (a : option (list Z)) (h : rvjit_heap) (q : Z) :
  page_flag a h q = flag_of a (dirty_mask h) q.
Proof. apply page_flag_testbit. Qed.

Lemma same_page_same_slot (m x q : Z) :
  Z.shiftr q 12 = Z.shiftr x 12 -> same_slot m x q = true.
Proof.
  intros H. unfold same_slot, bit_index.
  change 17 with (12 + 5). rewrite <- !Z.shiftr_shiftr by lia.
  rewrite H, !Z.eqb_refl. reflexivity.
Qed.

Lemma slot_in_range (m x : Z) (l : list Z) :
  0 <= m -> length l = Z.to_nat (m + 1) ->
  0 <= Z.land (Z.shiftr x 17) m /\ (Z.to_nat (Z.land (Z.shiftr x 17) m) < length l)%nat.
Proof.
  intros Hm Hl. pose proof (land_mask_le (Z.shiftr x 17) m Hm). lia.
Qed.

Lemma flag_of_set (l : list Z) (m x q : Z) :
  0 <= m -> length l = Z.to_nat (m + 1) ->
  let o := Z.land (Z.shiftr x 17) m in
  flag_of (word_set (Some l) o (Z.lor (word_at (Some l) o) (page_bit x))) m q
  = flag_of (Some l) m q || same_slot m x q.
Proof.
  intros Hm Hl o. unfold flag_of, same_slot.
  destruct (slot_in_range m x l Hm Hl) as [Ho Hol].
  destruct (slot_in_range m q l Hm Hl) as [Hq _].
  fold o in Ho, Hol. rewrite word_at_set by assumption. fold o.
  destruct (Z.eqb_spec o (Z.land (Z.shiftr q 17) m)) as [He|Hne].
  - rewrite page_bit_pow2, testbit_set by apply bit_index_range.
    rewrite <- He. reflexivity.
  - rewrite andb_false_l, orb_false_r. reflexivity.
Qed.

Lemma flag_of_clear (l : list Z) (m x q : Z) :
  0 <= m -> length l = Z.to_nat (m + 1) ->
  let o := Z.land (Z.shiftr x 17) m in
  flag_of (word_set (Some l) o (Z.land (word_at (Some l) o) (not32 (page_bit x)))) m q
  = flag_of (Some l) m q && negb (same_slot m x q).
Proof.
  intros Hm Hl o. unfold flag_of, same_slot.
  destruct (slot_in_range m x l Hm Hl) as [Ho Hol].
  destruct (slot_in_range m q l Hm Hl) as [Hq _].
  fold o in Ho, Hol. rewrite word_at_set by assumption. fold o.
  destruct (Z.eqb_spec o (Z.land (Z.shiftr q 17) m)) as [He|Hne].
  - rewrite page_bit_pow2, testbit_clear by apply bit_index_range.
    rewrite <- He. reflexivity.
  - rewrite andb_false_l, andb_true_r. reflexivity.
Qed.

Section Marking.

Context {emit_t : Type}.
Implicit Types b : rvjit_block emit_t.

Lemma tracking_ok_inv (h : rvjit_heap) :
  tracking_ok h = true ->
  0 <= dirty_mask h /\
  exists d j, dirty_pages h = Some d /\ jited_pages h = Some j /\
              length d = Z.to_nat (dirty_mask h + 1) /\
              length j = Z.to_nat (dirty_mask h + 1).
Proof.
  unfold tracking_ok. intros H.
  apply andb_prop in H. destruct H as [Hm H]. apply Z.leb_le in Hm.
  destruct (dirty_pages h) as [d|]; [|discriminate].
  destruct (jited_pages h) as [j|]; [|discriminate].
  apply andb_prop in H. destruct H as [Hd Hj].
  apply Nat.eqb_eq in Hd, Hj. split; [exact Hm|]. exists d, j. auto.
Qed.

Lemma tracking_ok_intro (h : rvjit_heap) (d j : list Z) :
  0 <= dirty_mask h -> dirty_pages h = Some d -> jited_pages h = Some j ->
  length d = Z.to_nat (dirty_mask h + 1) -> length j = Z.to_nat (dirty_mask h + 1) ->
  tracking_ok h = true.
Proof.
  intros Hm Hd Hj Hld Hlj. unfold tracking_ok. rewrite Hd, Hj, Hld, Hlj, !Nat.eqb_refl.
  rewrite andb_true_r. apply Z.leb_le. exact Hm.
Qed.

(** The heap [rvjit_mark_dirty_page] leaves, field by field. *)
Lemma mark_dirty_page_heap b (x : Z) :
  let h := heap b in
  let o := page_offset h x in
  let h' := heap (rvjit_mark_dirty_page b x) in
  blocks h' = blocks h /\ block_links h' = block_links h /\
  dirty_mask h' = dirty_mask h /\
  (jited b x = true ->
   dirty_pages h' = word_set (dirty_pages h) o (Z.lor (word_at (dirty_pages h) o) (page_bit x)) /\
   jited_pages h' = word_set (jited_pages h) o
                      (Z.land (word_at (jited_pages h) o) (not32 (page_bit x)))) /\
  (jited b x = false -> dirty_pages h' = dirty_pages h /\ jited_pages h' = jited_pages h).
Proof.
  cbv zeta. unfold jited, page_flag, rvjit_mark_dirty_page.
  destruct (negb _); repeat split; try reflexivity; intros; discriminate.
Qed.

(** One call of [rvjit_mark_dirty_page]: the registries and the mask
    stay, tracking stays allocated, a dirty bit stays set, a page that
    was jited or dirty stays jited or dirty, and the page addressed, if
    it was jited or dirty, is dirty afterwards. *)
Lemma mark_dirty_page_spec b (x : Z) :
  tracking_ok (heap b) = true ->
  let b' := rvjit_mark_dirty_page b x in
  tracking_ok (heap b') = true /\
  blocks (heap b') = blocks (heap b) /\
  block_links (heap b') = block_links (heap b) /\
  dirty_mask (heap b') = dirty_mask (heap b) /\
  (forall q, dirty b q = true -> dirty b' q = true) /\
  (forall q, jited b q || dirty b q = true -> jited b' q || dirty b' q = true) /\
  (forall q, Z.shiftr q 12 = Z.shiftr x 12 ->
             jited b q || dirty b q = true -> dirty b' q = true).
Proof.
  intros Hok b'.
  destruct (tracking_ok_inv _ Hok) as (Hm & d & j & Hd & Hj & Hld & Hlj).
  destruct (mark_dirty_page_heap b x) as (Hbl & Hln & Hmask & Hset & Hkeep).
  fold b' in Hbl, Hln, Hmask, Hset, Hkeep.
  destruct (jited b x) eqn:Hjx.
  - destruct (Hset eq_refl) as [Hd' Hj']. clear Hset Hkeep.
    unfold page_offset in Hd', Hj'. rewrite Hd in Hd'. rewrite Hj in Hj'.
    assert (Hdq : forall q, dirty b' q = dirty b q || same_slot (dirty_mask (heap b)) x q).
    { intros q. unfold dirty. rewrite !page_flag_flag_of, Hmask, Hd', Hd.
      apply flag_of_set; assumption. }
    assert (Hjq : forall q, jited b' q
                            = jited b q && negb (same_slot (dirty_mask (heap b)) x q)).
    { intros q. unfold jited. rewrite !page_flag_flag_of, Hmask, Hj', Hj.
      apply flag_of_clear; assumption. }
    split; [|split; [exact Hbl|split; [exact Hln|split; [exact Hmask|split; [|split]]]]].
    + apply (tracking_ok_intro _
               (<[Z.to_nat (Z.land (Z.shiftr x 17) (dirty_mask (heap b))) :=
                    Z.lor (word_at (Some d) (Z.land (Z.shiftr x 17) (dirty_mask (heap b))))
                          (page_bit x)]> d)
               (<[Z.to_nat (Z.land (Z.shiftr x 17) (dirty_mask (heap b))) :=
                    Z.land (word_at (Some j) (Z.land (Z.shiftr x 17) (dirty_mask (heap b))))
                           (not32 (page_bit x))]> j)).
      * rewrite Hmask. exact Hm.
      * exact Hd'.
      * exact Hj'.
      * rewrite length_insert, Hmask. exact Hld.
      * rewrite length_insert, Hmask. exact Hlj.
    + intros q Hq. rewrite Hdq, Hq. reflexivity.
    + intros q. rewrite Hdq, Hjq.
      generalize (jited b q) (dirty b q) (same_slot (dirty_mask (heap b)) x q).
      intros [] [] []; simpl; congruence.
    + intros q Hpage _. rewrite Hdq, (same_page_same_slot _ x q Hpage). apply orb_true_r.
  - destruct (Hkeep eq_refl) as [Hd' Hj']. clear Hset Hkeep.
    assert (Hdq : forall q, dirty b' q = dirty b q)
      by (intros q; unfold dirty, page_flag, page_offset; rewrite Hmask, Hd'; reflexivity).
    assert (Hjq : forall q, jited b' q = jited b q)
      by (intros q; unfold jited, page_flag, page_offset; rewrite Hmask, Hj'; reflexivity).
    split; [|split; [exact Hbl|split; [exact Hln|split; [exact Hmask|split; [|split]]]]].
    + apply (tracking_ok_intro _ d j); rewrite ?Hmask, ?Hd', ?Hj'; assumption.
    + intros q. rewrite Hdq. auto.
    + intros q. rewrite Hdq, Hjq. auto.
    + intros q Hpage Hq. rewrite Hdq.
      assert (Hsame : jited b q = jited b x).
      { unfold jited. rewrite !page_flag_flag_of. unfold flag_of.
        change 17 with (12 + 5). rewrite <- !Z.shiftr_shiftr by lia.
        unfold bit_index. rewrite Hpage. reflexivity. }
      rewrite Hsame, Hjx in Hq. exact Hq.
Qed.

Lemma mark_dirty_loop_spec (n : nat) b (addr i : Z) :
  tracking_ok (heap b) = true ->
  let b' := mark_dirty_loop n b addr i in
  tracking_ok (heap b') = true /\
  blocks (heap b') = blocks (heap b) /\
  block_links (heap b') = block_links (heap b) /\
  dirty_mask (heap b') = dirty_mask (heap b) /\
  (forall q, dirty b q = true -> dirty b' q = true) /\
  (forall q, jited b q || dirty b q = true -> jited b' q || dirty b' q = true) /\
  (forall (k : nat) q, (k < n)%nat ->
             Z.shiftr q 12 = Z.shiftr (addr + i + 4096 * Z.of_nat k) 12 ->
             jited b q || dirty b q = true -> dirty b' q = true).
Proof.
  revert b i. induction n as [|n IH]; intros b i Hok b'.
  - subst b'. cbn [mark_dirty_loop]. repeat split; auto. intros k q Hk. lia.
  - subst b'. cbn [mark_dirty_loop].
    destruct (mark_dirty_page_spec b (addr + i) Hok)
      as (Hok1 & Hb1 & Hl1 & Hm1 & Hd1 & Hjd1 & Hv1).
    destruct (IH (rvjit_mark_dirty_page b (addr + i)) (i + 4096) Hok1)
      as (Hok2 & Hb2 & Hl2 & Hm2 & Hd2 & Hjd2 & Hv2).
    split; [exact Hok2|]. split; [congruence|]. split; [congruence|].
    split; [congruence|]. split; [auto|]. split; [auto|].
    intros k q Hk Hpage Hq. destruct k as [|k].
    + apply Hd2. apply Hv1; [|exact Hq].
      rewrite Hpage. f_equal. lia.
    + apply (Hv2 k); [lia| |auto].
      rewrite Hpage. f_equal. lia.
Qed.

Lemma mark_dirty_count_covers (size k : Z) :
  0 <= k -> 4096 * k < size -> (Z.to_nat k < mark_dirty_count size)%nat.
Proof.
  intros Hk Hs. unfold mark_dirty_count.
  assert (k + 1 <= (size + 4095) / 4096) by (apply Z.div_le_lower_bound; lia).
  lia.
Qed.

(** After [rvjit_mark_dirty_mem] on a tracked heap, every visited page
    that was jited or dirty has its dirty bit set; the registries are
    untouched. *)
Lemma mark_dirty_mem_spec b (p n q : Z) :
  tracking_ok (heap b) = true ->
  visited p n q ->
  jited b q || dirty b q = true ->
  let b' := rvjit_mark_dirty_mem b p n in
  tracking_ok (heap b') = true /\
  blocks (heap b') = blocks (heap b) /\
  block_links (heap b') = block_links (heap b) /\
  dirty b' q = true.
Proof.
  intros Hok (k & Hk & Hkn & Hpage) Hq b'. subst b'. unfold rvjit_mark_dirty_mem.
  destruct (tracking_ok_inv _ Hok) as (_ & d & j & Hd & _).
  rewrite Hd.
  destruct (mark_dirty_loop_spec (mark_dirty_count n) b p 0 Hok)
    as (Hok' & Hb & Hl & _ & _ & _ & Hv).
  split; [exact Hok'|]. split; [exact Hb|]. split; [exact Hl|].
  apply (Hv (Z.to_nat k)).
  - apply mark_dirty_count_covers; assumption.
  - rewrite Hpage. f_equal. lia.
  - exact Hq.
Qed.

End Marking.

(** *** Lookup after a page was marked *)

Lemma lookup_flush_loop_spec (n : nat) (bl : gmap Z Z) (ln : gmap Z (list Z))
    (base i k : Z) :
  let r := lookup_flush_loop n bl ln base i in
  fst r !! k = (if decide (base + i <= k < base + i + Z.of_nat n) then None else bl !! k) /\
  snd r !! k = (if decide (base + i <= k < base + i + Z.of_nat n) then None else ln !! k).
Proof.
  revert bl ln i. induction n as [|n IH]; intros bl ln i; cbv zeta.
  - cbn [lookup_flush_loop fst snd]. case_decide; [lia|auto].
  - cbn [lookup_flush_loop].
    destruct (IH (delete (base + i) bl)
                 (match ln !! (base + i) with
                  | Some _ => delete (base + i) ln
                  | None => ln
                  end) (i + 1)) as [Hb Hl].
    rewrite Hb, Hl. clear Hb Hl IH.
    destruct (decide (k = base + i)) as [->|Hne].
    + repeat case_decide; try lia.
      split; [apply lookup_delete_eq|].
      destruct (ln !! (base + i)) eqn:Hln; [apply lookup_delete_eq|exact Hln].
    + assert (Hl : (match ln !! (base + i) with
                    | Some _ => delete (base + i) ln
                    | None => ln
                    end) !! k = ln !! k)
        by (destruct (ln !! (base + i)); [apply lookup_delete_ne; congruence|reflexivity]).
      rewrite Hl, lookup_delete_ne by congruence.
      repeat case_decide; try lia; auto.
Qed.

Lemma page_base (a : Z) :
  0 <= a < 2 ^ 64 -> Z.land a (wrap64 (Z.lnot 0xFFF)) = 4096 * (a / 4096).
Proof.
  intros Ha. change (wrap64 (Z.lnot 0xFFF)) with (Z.shiftl (Z.ones 52) 12).
  replace (4096 * (a / 4096)) with (Z.shiftl (Z.shiftr a 12) 12)
    by (rewrite Z.shiftl_mul_pow2, Z.shiftr_div_pow2 by lia; change (2 ^ 12) with 4096; lia).
  apply Z.bits_inj'. intros i Hi.
  rewrite Z.land_spec.
  destruct (Z.ltb_spec i 12).
  - rewrite !Z.shiftl_spec_low by lia. apply andb_false_r.
  - rewrite !Z.shiftl_spec, Z.shiftr_spec by lia.
    replace (i - 12 + 12) with i by lia.
    destruct (Z.ltb_spec i 64).
    + rewrite Z.ones_spec_low by lia. apply andb_true_r.
    + rewrite Z.ones_spec_high by lia. rewrite andb_false_r.
      symmetry. apply Z.bits_above_log2; [lia|].
      destruct (Z.eq_dec a 0) as [->|Hnz]; [simpl; lia|].
      apply Z.log2_lt_pow2; [lia|]. 
      apply Z.lt_le_trans with (2 ^ 64); [lia|]. apply Z.pow_le_mono_r; lia.
Qed.

Lemma same_page_range (a pc : Z) :
  Z.shiftr pc 12 = Z.shiftr a 12 <->
  4096 * (a / 4096) + 0 <= pc < 4096 * (a / 4096) + 0 + Z.of_nat 4096.
Proof.
  rewrite !Z.shiftr_div_pow2 by lia. change (2 ^ 12) with 4096.
  change (Z.of_nat 4096) with 4096.
  pose proof (Z.div_mod a 4096 ltac:(lia)).
  pose proof (Z.mod_pos_bound a 4096 ltac:(lia)).
  pose proof (Z.div_mod pc 4096 ltac:(lia)).
  pose proof (Z.mod_pos_bound pc 4096 ltac:(lia)).
  split; intros; nia.
Qed.

Section Lookup.

Context {emit_t : Type}.
Implicit Types b : rvjit_block emit_t.

Lemma needs_flush_dirty b (a : Z) :
  tracking_ok (heap b) = true ->
  dirty b a = true ->
  exists b1, rvjit_page_needs_flush b a = (true, b1) /\
             blocks (heap b1) = blocks (heap b) /\
             block_links (heap b1) = block_links (heap b).
Proof.
  intros Hok Hd. destruct (tracking_ok_inv _ Hok) as (_ & d & j & Hdp & _).
  unfold dirty, page_flag in Hd. unfold rvjit_page_needs_flush. rewrite Hdp in *.
  rewrite Hd. eexists. split; [reflexivity|]. split; reflexivity.
Qed.

(** A lookup on an address of a dirty page returns null, leaves no
    block-registry entry and no pending link list for any physical PC of
    the page, and leaves the entries of other pages as they were. *)
Lemma lookup_flushes_dirty_page b (a : Z) :
  tracking_ok (heap b) = true ->
  0 <= a < 2 ^ 64 ->
  dirty b a = true ->
  let r := rvjit_block_lookup b a in
  fst r = 0 /\
  (forall pc, Z.shiftr pc 12 = Z.shiftr a 12 ->
              blocks (heap (snd r)) !! pc = None /\
              block_links (heap (snd r)) !! pc = None) /\
  (forall pc, Z.shiftr pc 12 <> Z.shiftr a 12 ->
              blocks (heap (snd r)) !! pc = blocks (heap b) !! pc /\
              block_links (heap (snd r)) !! pc = block_links (heap b) !! pc).
Proof.
  intros Hok Ha Hdirty r.
  destruct (needs_flush_dirty _ a Hok Hdirty) as (b1 & Hnf & Hbl1 & Hln1).
  subst r. unfold rvjit_block_lookup. rewrite Hnf, page_base by exact Ha.
  destruct (lookup_flush_loop 4096 (blocks (heap b1)) (block_links (heap b1))
                              (4096 * (a / 4096)) 0) as [bl' ln'] eqn:Hloop.
  cbn [fst snd]. split; [reflexivity|].
  assert (Hspec : forall k,
             bl' !! k = (if decide (4096 * (a / 4096) + 0 <= k
                                    < 4096 * (a / 4096) + 0 + Z.of_nat 4096)
                         then None else blocks (heap b) !! k) /\
             ln' !! k = (if decide (4096 * (a / 4096) + 0 <= k
                                    < 4096 * (a / 4096) + 0 + Z.of_nat 4096)
                         then None else block_links (heap b) !! k)).
  { intros k.
    pose proof (lookup_flush_loop_spec 4096 (blocks (heap b1)) (block_links (heap b1))
                  (4096 * (a / 4096)) 0 k) as Hs.
    cbv zeta in Hs. rewrite Hloop in Hs. cbn [fst snd] in Hs.
    rewrite Hbl1, Hln1 in Hs. exact Hs. }
  split; intros pc Hpc; destruct (Hspec pc) as [Hb Hl];
    change (blocks (heap (with_heap b1 (heap_set_maps (heap b1) bl' ln')))) with bl';
    change (block_links (heap (with_heap b1 (heap_set_maps (heap b1) bl' ln')))) with ln';
    rewrite Hb, Hl.
  - apply same_page_range in Hpc. rewrite !decide_True by exact Hpc. auto.
  - rewrite !decide_False by (intros Hr; apply Hpc, same_page_range, Hr). auto.
Qed.

End Lookup.

(** A page-aligned range visits every page it meets. *)
Lemma aligned_range_visited (p n a : Z) :
  p mod 4096 = 0 -> p <= a < p + n -> visited p n a.
Proof.
  intros Hal Ha. exists ((a - p) / 4096).
  pose proof (Z.div_mod (a - p) 4096 ltac:(lia)).
  pose proof (Z.mod_pos_bound (a - p) 4096 ltac:(lia)).
  pose proof (Z.div_mod p 4096 ltac:(lia)).
  split; [apply Z.div_pos; lia|]. split; [lia|].
  rewrite !Z.shiftr_div_pow2 by lia. change (2 ^ 12) with 4096.
  replace a with ((a - p) mod 4096 + (p / 4096 + (a - p) / 4096) * 4096) at 1 by lia.
  replace (p + 4096 * ((a - p) / 4096)) with (0 + (p / 4096 + (a - p) / 4096) * 4096) by lia.
  rewrite !Z.div_add by lia. rewrite (Z.div_small ((a - p) mod 4096)) by lia.
  reflexivity.
Qed.

(** C5 as stated fails in four ways.  On a heap whose memory tracking
    was never allocated [rvjit_mark_dirty_mem] returns at once, and the
    lookup still finds the block.  On a tracked heap the dirty bit of a
    page is shared with the pages a multiple of 32 * (dirty_mask + 1)
    pages away: a lookup at such a page (here 16 MiB above the block)
    consumes the bit and flushes its own page, and the first lookup in the
    written page that follows returns the block, which stays registered.
    That leaves the page of the block with neither bit set: a second write
    to it marks nothing, and the lookup right after it returns the block.
    And the loop steps from [p] itself: a two-byte range that starts on the
    last byte of a page marks that page only, and the block on the next
    page, which the range also covers, is still found. *)
Lemma written_page_lookup_returns_block :
  (let b := rvjit_mark_dirty_mem block_untracked 0x80001000 1 in
   dirty_pages (heap block_untracked) = None /\
   fst (rvjit_block_lookup b 0x80001000) = 0x7F0000000000 /\
   fst (rvjit_block_lookup b 0x80001000) <> 0 /\
   blocks (heap (snd (rvjit_block_lookup b 0x80001000))) !! 0x80001000
     = Some 0x7F0000000000) /\
  (let b := rvjit_mark_dirty_mem block_tracked 0x80001000 1 in
   let b1 := snd (rvjit_block_lookup b 0x81001000) in
   tracking_ok (heap block_tracked) = true /\
   jited block_tracked 0x80001000 = true /\
   dirty b 0x80001000 = true /\
   Z.shiftr 0x81001000 12 <> Z.shiftr 0x80001000 12 /\
   fst (rvjit_block_lookup b 0x81001000) = 0 /\
   fst (rvjit_block_lookup b1 0x80001000) = 0x7F0000000000 /\
   fst (rvjit_block_lookup b1 0x80001000) <> 0 /\
   blocks (heap (snd (rvjit_block_lookup b1 0x80001000))) !! 0x80001000
     = Some 0x7F0000000000) /\
  (let b0 := snd (rvjit_block_lookup
                    (rvjit_mark_dirty_mem block_tracked 0x80001000 1) 0x81001000) in
   let b := rvjit_mark_dirty_mem b0 0x80001000 1 in
   tracking_ok (heap b0) = true /\
   blocks (heap b0) !! 0x80001000 = Some 0x7F0000000000 /\
   jited b0 0x80001000 = false /\ dirty b0 0x80001000 = false /\
   fst (rvjit_block_lookup b 0x80001000) = 0x7F0000000000) /\
  (let b := rvjit_mark_dirty_mem block_tracked 0x80000FFF 2 in
   jited block_tracked 0x80001000 = true /\
   dirty b 0x80001000 = false /\
   fst (rvjit_block_lookup b 0x80001000) = 0x7F0000000000).
Proof.
  cbv zeta. split; [|split; [|split]].
  - repeat split; try reflexivity. vm_compute. discriminate.
  - repeat split; try (vm_compute; reflexivity); vm_compute; discriminate.
  - repeat split; vm_compute; reflexivity.
  - repeat split; vm_compute; reflexivity.
Qed.

End RvjitFacts.

(** ** Command line (src/main.c) *)

Module MainFacts.
Import Main MainSamples.

Lemma parse_one_unknown (arg_name arg_val : string) (args : vm_args_t) :
  recognised arg_name = false ->
  parse_one arg_name arg_val args = Stop args [ErrUnknownArgument arg_name].
Proof.
  unfold recognised, parse_one. intros H.
  repeat (apply orb_false_elim in H; destruct H as [H ?]).
  repeat match goal with
         | Hc : cmp_arg _ _ = false |- _ => rewrite Hc; clear Hc
         end.
  reflexivity.
Qed.

Lemma parse_loop_unknown (n : nat) :
  forall (rest : list string) (args : vm_args_t) (name : string),
    (length rest <= n)%nat ->
    In name (arg_names rest) ->
    recognised name = false ->
    fst (fst (parse_loop rest args)) = false.
Proof.
  induction n as [|n IH]; intros rest args name Hlen Hin Hun.
  - destruct rest; [destruct Hin|simpl in Hlen; lia].
  - destruct rest as [|a tl]; [destruct Hin|].
    cbn [parse_loop arg_names] in *.
    destruct (get_arg a (head tl)) as [[k arg_name] arg_val].
    destruct Hin as [<-|Hin].
    + rewrite parse_one_unknown by exact Hun. reflexivity.
    + destruct (parse_one arg_name arg_val args) as [args' out|args' out]; [|reflexivity].
      assert (Hnext : exists next,
                 (length next <= length tl)%nat /\
                 match k, tl with
                 | 2%nat, _ :: tl' => parse_loop tl' args'
                 | _, _ => parse_loop tl args'
                 end = parse_loop next args' /\
                 match k, tl with
                 | 2%nat, _ :: tl' => arg_names tl'
                 | _, _ => arg_names tl
                 end = arg_names next).
      { destruct k as [|[|[|k]]]; destruct tl as [|t tl'];
          eexists; (split; [|split; reflexivity]); simpl; lia. }
      destruct Hnext as (next & Hl & Hp & Ha).
      rewrite Hp. rewrite Ha in Hin. simpl in Hlen.
      assert (Hrec : fst (fst (parse_loop next args')) = false)
        by (apply (IH next args' name); [lia|exact Hin|exact Hun]).
      destruct (parse_loop next args') as [[r a2] o2]. exact Hrec.
Qed.

(** Whatever the command line and the host, [main] returns 0: after a
    failed parse, without a bootrom, and after [rvvm_run_with_args], whose
    return value it does not look at. *)
Lemma main_returns_zero (H : host) (argv : list string) : fst (main H argv) = 0.
Proof.
  unfold main. destruct (parse_args argv args_zero) as [[[|] a] out];
    [|reflexivity].
  destruct (bootrom a); [|reflexivity].
  destruct (rvvm_run_with_args H a). reflexivity.
Qed.

(** C10, as the code has it.  A command line with an option name that
    is not recognised makes [parse_args] fail, and after a failed parse
    [main] returns exit code 0.  [rvvm_run_with_args] returns 1 when the
    machine cannot be created or the bootrom cannot be loaded, and 0
    when machine, bootrom and device tree are in place. *)
Theorem exit_codes (H : host) (argv : list string) (args : vm_args_t) :
  (forall name, In name (arg_names (tail argv)) -> recognised name = false ->
                fst (fst (parse_args argv args_zero)) = false) /\
  (fst (fst (parse_args argv args_zero)) = false -> fst (main H argv) = 0) /\
  (rvvm_create_machine H (mem args) (smp args) (rv64 args) = false ->
   fst (rvvm_run_with_args H args) = 1) /\
  (rvvm_create_machine H (mem args) (smp args) (rv64 args) = true ->
   load_file_to_ram H (default ""%string (bootrom args)) = false ->
   fst (rvvm_run_with_args H args) = 1) /\
  (rvvm_create_machine H (mem args) (smp args) (rv64 args) = true ->
   load_file_to_ram H (default ""%string (bootrom args)) = true ->
   (forall d, dtb args = Some d -> load_file_to_ram H d = true) ->
   fst (rvvm_run_with_args H args) = 0).
Proof.
  split; [|split; [|split; [|split]]].
  - intros name Hin Hun. unfold parse_args.
    eapply parse_loop_unknown; [apply Nat.le_refl|exact Hin|exact Hun].
  - intros Hf. unfold main.
    destruct (parse_args argv args_zero) as [[r a] out]. simpl in Hf. subst r.
    reflexivity.
  - intros Hc. unfold rvvm_run_with_args. rewrite Hc. reflexivity.
  - intros Hc Hb. unfold rvvm_run_with_args. rewrite Hc, Hb. reflexivity.
  - intros Hc Hb Hd. unfold rvvm_run_with_args. rewrite Hc, Hb. cbn [negb].
    destruct (dtb args) as [d|]; [rewrite (Hd d eq_refl)|]; reflexivity.
Qed.

(** [rvvm -mem 64M -foo boot.bin]: the parse fails at [-foo] and [main]
    returns 0; the returns of [rvvm_run_with_args] on three hosts. *)
Lemma exit_codes_witness :
  fst (fst (parse_args ["rvvm"; "-mem"; "64M"; "-foo"; "boot.bin"]%string args_zero)) = false /\
  fst (main host_ok ["rvvm"; "-mem"; "64M"; "-foo"; "boot.bin"]%string) = 0 /\
  fst (rvvm_run_with_args host_no_machine (set_bootrom args_zero "boot.bin")) = 1 /\
  fst (rvvm_run_with_args host_no_file (set_bootrom args_zero "boot.bin")) = 1 /\
  fst (rvvm_run_with_args host_ok (set_bootrom args_zero "boot.bin")) = 0.
Proof.
  pose proof (exit_codes host_ok ["rvvm"; "-mem"; "64M"; "-foo"; "boot.bin"]%string
                (set_bootrom args_zero "boot.bin")) as (Hu & Hm & _ & _ & Hok).
  pose proof (exit_codes host_no_machine [] (set_bootrom args_zero "boot.bin"))
    as (_ & _ & Hnm & _).
  pose proof (exit_codes host_no_file [] (set_bootrom args_zero "boot.bin"))
    as (_ & _ & _ & Hnf & _).
  assert (Hp : fst (fst (parse_args ["rvvm"; "-mem"; "64M"; "-foo"; "boot.bin"]%string
                           args_zero)) = false).
  { apply (Hu "foo"%string); [|reflexivity].
    simpl. right. left. reflexivity. }
  split; [exact Hp|]. split; [exact (Hm Hp)|].
  split; [apply Hnm; reflexivity|].
  split; [apply Hnf; reflexivity|].
  apply Hok; [reflexivity|reflexivity|]. intros d Hd. discriminate.
Defined.

(** C10 as stated fails in both halves.  With the unknown option [-foo]
    the program reports it and exits with code 0.  On a host that cannot
    create the machine, and on one that cannot load the bootrom,
    [rvvm_run_with_args] returns 1 and [main], which drops that value,
    exits with code 0. *)
Lemma failures_exit_zero :
  recognised "foo" = false /\
  main host_ok ["rvvm"; "-foo"]%string = (0, [ErrUnknownArgument "foo"]) /\
  fst (rvvm_run_with_args host_no_machine
         (snd (fst (parse_args ["rvvm"; "boot.bin"]%string args_zero)))) = 1 /\
  main host_no_machine ["rvvm"; "boot.bin"]%string = (0, [ErrVmCreation]) /\
  fst (rvvm_run_with_args host_no_file
         (snd (fst (parse_args ["rvvm"; "boot.bin"]%string args_zero)))) = 1 /\
  main host_no_file ["rvvm"; "boot.bin"]%string = (0, [ErrBootrom]).
Proof. repeat split; reflexivity. Qed.

End MainFacts.

(** * Block device interface: facts *)

Module BlkIoFacts.
Import BlkIo BlkIoSamples.

Lemma wrap64_small (x : Z) : 0 <= x < 2 ^ 64 -> wrap64 x = x.
Proof. intros H. unfold wrap64. apply Z.mod_small. exact H. Qed.

Lemma wrap64_neg (x : Z) : - 2 ^ 64 <= x < 0 -> wrap64 x = x + 2 ^ 64.
Proof.
  intros H. unfold wrap64. symmetry.
  apply (Z.mod_unique x (2 ^ 64) (-1) (x + 2 ^ 64)); lia.
Qed.

Lemma wrap64_over (x : Z) : 2 ^ 64 <= x < 2 * 2 ^ 64 -> wrap64 x = x - 2 ^ 64.
Proof.
  intros H. unfold wrap64. symmetry.
  apply (Z.mod_unique x (2 ^ 64) 1 (x - 2 ^ 64)); lia.
Qed.

Lemma wrap64_range (x : Z) : 0 <= wrap64 x < 2 ^ 64.
Proof. unfold wrap64. apply Z.mod_pos_bound. lia. Qed.

(** X1. blk_seek on a device of less than 2^63 bytes, with an int64_t offset
    and one of the three start positions, succeeds exactly when the position
    asked for (offset, cursor + offset, or size - offset) lies in
    [0, size); it then moves the cursor there, and otherwise returns false
    and leaves the device as it was.  In particular a seek to the end
    (SEEK_END with offset 0) always fails. *)
Theorem blk_seek_in_bounds {D} (d : blkdev_t D) (offset startpos : Z) :
  0 <= pos d <= size d -> size d < 2 ^ 63 ->
  - 2 ^ 63 <= offset < 2 ^ 63 ->
  0 <= startpos <= 2 ->
  blk_seek (Some d) offset startpos =
    (if (0 <=? seek_target d offset startpos)
        && (seek_target d offset startpos <? size d)
     then (true, Some (with_pos d (seek_target d offset startpos)))
     else (false, Some d))
  /\ blk_seek (Some d) 0 BLKDEV_SEEK_END = (false, Some d).
Proof.
  intros Hpos Hsize Hoff Hstart.
  assert (H63 : 2 ^ 64 = 2 * 2 ^ 63) by reflexivity.
  assert (Hgen : forall t, - 2 ^ 63 <= t < 2 ^ 64 ->
            (if wrap64 t >=? size d then (false, Some d)
             else (true, Some (with_pos d (wrap64 t)))) =
            (if (0 <=? t) && (t <? size d)
             then (true, Some (with_pos d t)) else (false, Some d))).
  { intros t Ht. destruct (Z.leb_spec 0 t) as [Hnn|Hneg]; cbn [andb].
    - rewrite wrap64_small by lia.
      destruct (Z.ltb_spec t (size d)), (Z.geb_spec t (size d)); try lia;
        reflexivity.
    - rewrite wrap64_neg by lia.
      destruct (Z.geb_spec (t + 2 ^ 64) (size d)); [reflexivity|lia]. }
  split.
  - unfold blk_seek, seek_target, BLKDEV_SEEK_CUR, BLKDEV_SEEK_END,
      BLKDEV_SEEK_SET.
    destruct (Z.eqb_spec startpos 1) as [->|H1]; [apply Hgen; lia|].
    destruct (Z.eqb_spec startpos 2) as [->|H2]; [apply Hgen; lia|].
    destruct (Z.eqb_spec startpos 0) as [->|H0]; [|lia].
    cbn [negb]. apply Hgen; lia.
  - unfold blk_seek, BLKDEV_SEEK_CUR, BLKDEV_SEEK_END.
    change (2 =? 1) with false. change (2 =? 2) with true. cbv iota.
    rewrite Z.sub_0_r, wrap64_small by lia.
    destruct (Z.geb_spec (size d) (size d)); [reflexivity|lia].
Qed.

Lemma blk_seek_in_bounds_witness :
  blk_seek (Some ram_dev) 3 BLKDEV_SEEK_END = (true, Some (with_pos ram_dev 5))
  /\ blk_seek (Some ram_dev) (-3) BLKDEV_SEEK_CUR = (false, Some ram_dev).
Proof.
  split.
  - exact (proj1 (blk_seek_in_bounds ram_dev 3 2
             ltac:(cbn; lia) ltac:(cbn; lia) ltac:(lia) ltac:(lia))).
  - exact (proj1 (blk_seek_in_bounds ram_dev (-3) 1
             ltac:(cbn; lia) ltac:(cbn; lia) ltac:(lia) ltac:(lia))).
Defined.

(** X2. Whatever its arguments, blk_seek either fails and leaves the device
    as it was, or succeeds and leaves the cursor strictly inside the device
    (0 <= pos < size) with the driver state, type and size untouched; an
    unknown start position always fails. *)
Theorem blk_seek_keeps_cursor_inside {D} (d : blkdev_t D)
    (offset startpos : Z) :
  (blk_seek (Some d) offset startpos = (false, Some d)
   \/ exists p, blk_seek (Some d) offset startpos = (true, Some (with_pos d p))
                /\ 0 <= p < size d)
  /\ (startpos <> BLKDEV_SEEK_SET -> startpos <> BLKDEV_SEEK_CUR ->
      startpos <> BLKDEV_SEEK_END ->
      blk_seek (Some d) offset startpos = (false, Some d)).
Proof.
  assert (Hgen : forall t,
            (if wrap64 t >=? size d then (false, Some d)
             else (true, Some (with_pos d (wrap64 t)))) = (false, Some d)
            \/ exists p,
                 (if wrap64 t >=? size d then (false, Some d)
                  else (true, Some (with_pos d (wrap64 t)))) =
                 (true, Some (with_pos d p)) /\ 0 <= p < size d).
  { intros t. pose proof (wrap64_range t).
    destruct (Z.geb_spec (wrap64 t) (size d)); [left; reflexivity|].
    right. exists (wrap64 t). split; [reflexivity|lia]. }
  split.
  - unfold blk_seek.
    destruct (startpos =? BLKDEV_SEEK_CUR); [apply Hgen|].
    destruct (startpos =? BLKDEV_SEEK_END); [apply Hgen|].
    destruct (startpos =? BLKDEV_SEEK_SET); cbn [negb]; [apply Hgen|].
    left. reflexivity.
  - intros H0 H1 H2. unfold blk_seek.
    destruct (Z.eqb_spec startpos BLKDEV_SEEK_CUR); [contradiction|].
    destruct (Z.eqb_spec startpos BLKDEV_SEEK_END); [contradiction|].
    destruct (Z.eqb_spec startpos BLKDEV_SEEK_SET); [contradiction|].
    reflexivity.
Qed.

Lemma blk_seek_keeps_cursor_inside_witness :
  blk_seek (Some ram_dev) 1 7 = (false, Some ram_dev).
Proof.
  apply (proj2 (blk_seek_keeps_cursor_inside ram_dev 1 7)); vm_compute;
    congruence.
Defined.

(** X3. A read, write or trim whose range runs past the end of the device
    (real position + count > size, the sum below 2^64) is refused as a
    whole: the call returns 0 (false for trim), nothing is stored at the
    destination, and the device, its cursor and the driver state are
    unchanged, the driver routine not being called. *)
Theorem blk_io_rejects_out_of_bounds {D} (d : blkdev_t D) (src : list Z)
    (count offset : Z) :
  0 <= count -> 0 <= real_pos d offset ->
  real_pos d offset + count < 2 ^ 64 ->
  size d < real_pos d offset + count ->
  blk_read (Some d) count offset = (0, [], Some d)
  /\ blk_write (Some d) src count offset = (0, Some d)
  /\ blk_trim (Some d) offset count = (false, Some d).
Proof.
  intros Hc Hp Hlt Hout.
  assert (Hgt : (wrap64 (real_pos d offset + count) >? size d) = true).
  { rewrite wrap64_small by lia. apply Z.gtb_lt. lia. }
  unfold blk_read, blk_write, blk_trim. rewrite Hgt.
  repeat split. destruct (trim (type d)); reflexivity.
Qed.

Lemma blk_io_rejects_out_of_bounds_witness :
  blk_read (Some ram_dev) 7 BLKDEV_CUR = (0, [], Some ram_dev)
  /\ blk_write (Some ram_dev) [9; 9; 9; 9; 9; 9; 9] 7 BLKDEV_CUR
     = (0, Some ram_dev)
  /\ blk_trim (Some ram_dev) BLKDEV_CUR 7 = (false, Some ram_dev).
Proof.
  apply (blk_io_rejects_out_of_bounds ram_dev [9; 9; 9; 9; 9; 9; 9] 7
           BLKDEV_CUR); vm_compute; congruence.
Defined.

(** X4. A read at the cursor (offset BLKDEV_CUR) that fits the device, on a
    driver that returns no more than it was asked for, hands the driver the
    range [pos, pos + count) inside the device, returns the driver's count
    and advances the cursor by exactly that count, so the cursor stays
    within [0, size]; a read at an explicit offset that fits leaves the
    cursor where it was. *)
Theorem blk_read_cursor {D} (d : blkdev_t D) (count offset : Z) :
  let r := read (type d) (data d) count (real_pos d offset) in
  0 <= count -> 0 <= pos d -> size d < 2 ^ 64 ->
  0 <= real_pos d offset -> real_pos d offset + count <= size d ->
  0 <= snd r <= count ->
  blk_read (Some d) count offset =
    (snd r, snd (fst r),
     Some (if offset =? BLKDEV_CUR
           then with_pos (with_data d (fst (fst r))) (pos d + snd r)
           else with_data d (fst (fst r))))
  /\ (offset = BLKDEV_CUR -> pos d + snd r <= size d).
Proof.
  intros r Hc Hp Hs Hrp Hfit Hret.
  assert (Hle : (wrap64 (real_pos d offset + count) >? size d) = false).
  { rewrite wrap64_small by lia.
    destruct (Z.gtb_spec (real_pos d offset + count) (size d));
      [lia|reflexivity]. }
  unfold blk_read. rewrite Hle. fold r.
  destruct r as [[data' dst] ret]. cbn [fst snd] in *.
  assert (Hcur : offset = BLKDEV_CUR -> pos d + ret <= size d).
  { intros ->. unfold real_pos in Hfit. rewrite Z.eqb_refl in Hfit. lia. }
  split; [|exact Hcur].
  destruct (Z.eqb_spec offset BLKDEV_CUR) as [Heq|Hne]; [|reflexivity].
  cbn [pos with_data]. rewrite wrap64_small; [reflexivity|].
  specialize (Hcur Heq). lia.
Qed.

Lemma blk_read_cursor_witness :
  blk_read (Some ram_dev) 4 BLKDEV_CUR
  = (4, [3; 4; 5; 6], Some (with_pos ram_dev 6)).
Proof.
  exact (proj1 (blk_read_cursor ram_dev 4 BLKDEV_CUR
           ltac:(lia) ltac:(cbn; lia) ltac:(cbn; lia)
           ltac:(vm_compute; congruence)
           ltac:(vm_compute; congruence)
           ltac:(vm_compute; split; congruence))).
Defined.

(** X5. A write at the cursor (offset BLKDEV_CUR) that fits the device,
    on a driver that reports no more than it was given, hands the driver
    the range [pos, pos + count) inside the device, returns the driver's
    count and advances the cursor by exactly that count, so the cursor
    stays within [0, size]; a write at an explicit offset that fits leaves
    the cursor where it was. *)
Theorem blk_write_cursor {D} (d : blkdev_t D) (src : list Z) (count offset : Z) :
  let r := write (type d) (data d) src count (real_pos d offset) in
  0 <= count -> 0 <= pos d -> size d < 2 ^ 64 ->
  0 <= real_pos d offset -> real_pos d offset + count <= size d ->
  0 <= snd r <= count ->
  blk_write (Some d) src count offset =
    (snd r,
     Some (if offset =? BLKDEV_CUR
           then with_pos (with_data d (fst r)) (pos d + snd r)
           else with_data d (fst r)))
  /\ (offset = BLKDEV_CUR -> pos d + snd r <= size d).
Proof.
  intros r Hc Hp Hs Hrp Hfit Hret.
  assert (Hle : (wrap64 (real_pos d offset + count) >? size d) = false).
  { rewrite wrap64_small by lia.
    destruct (Z.gtb_spec (real_pos d offset + count) (size d));
      [lia|reflexivity]. }
  unfold blk_write. rewrite Hle. fold r.
  destruct r as [data' ret]. cbn [fst snd] in *.
  assert (Hcur : offset = BLKDEV_CUR -> pos d + ret <= size d).
  { intros ->. unfold real_pos in Hfit. rewrite Z.eqb_refl in Hfit. lia. }
  split; [|exact Hcur].
  destruct (Z.eqb_spec offset BLKDEV_CUR) as [Heq|Hne]; [|reflexivity].
  cbn [pos with_data]. rewrite wrap64_small; [reflexivity|].
  specialize (Hcur Heq). lia.
Qed.

Lemma blk_write_cursor_witness :
  blk_write (Some ram_dev) [9; 9] 2 BLKDEV_CUR
  = (2, Some (with_pos (with_data ram_dev [1; 2; 9; 9; 5; 6; 7; 8]) 4)).
Proof.
  exact (proj1 (blk_write_cursor ram_dev [9; 9] 2 BLKDEV_CUR
           ltac:(lia) ltac:(cbn; lia) ltac:(cbn; lia)
           ltac:(vm_compute; congruence)
           ltac:(vm_compute; congruence)
           ltac:(vm_compute; split; congruence))).
Defined.

(** X6. The bounds test of blk_read adds position and count in uint64_t: a
    request at an explicit offset whose sum passes 2^64 and wraps to at most
    the device size is not refused, and the driver is called with that
    offset although it lies beyond the device. *)
Theorem blk_read_wrapped_sum_passes {D} (d : blkdev_t D) (count offset : Z) :
  0 <= size d < 2 ^ 64 ->
  0 <= count < 2 ^ 64 -> size d < offset < BLKDEV_CUR ->
  2 ^ 64 <= offset + count <= 2 ^ 64 + size d ->
  blk_read (Some d) count offset =
    (let '(data', dst, ret) := read (type d) (data d) count offset in
     (ret, dst, Some (with_data d data'))).
Proof.
  intros Hs Hc Ho Hsum. unfold BLKDEV_CUR in Ho.
  unfold blk_read, real_pos.
  destruct (Z.eqb_spec offset BLKDEV_CUR) as [Heq|_];
    [unfold BLKDEV_CUR in Heq; lia|].
  rewrite wrap64_over by lia.
  destruct (Z.gtb_spec (offset + count - 2 ^ 64) (size d)); [lia|].
  reflexivity.
Qed.

Lemma blk_read_wrapped_sum_passes_witness :
  blk_read (Some ram_dev) 10 (2 ^ 64 - 5) = (10, [], Some ram_dev).
Proof.
  exact (blk_read_wrapped_sum_passes ram_dev 10 (2 ^ 64 - 5)
           ltac:(cbn; lia) ltac:(lia) ltac:(unfold BLKDEV_CUR; cbn; lia)
           ltac:(cbn; lia)).
Defined.

End BlkIoFacts.

(** * src/riscv32.c: trap delivery and the opcode table *)

Module TrapFacts.
Import Riscv32 Riscv32Samples Riscv32Facts.

Lemma delegation_test (e cause : Z) :
  0 <= cause < 32 ->
  (Z.land e (shl32 1 cause) =? 0) = negb (Z.testbit e cause).
Proof.
  intros H. rewrite shl32_one by exact H. apply land_pow2_testbit. lia.
Qed.

(** X7. For an exception cause below 32 on a hart whose hypervisor-level
    delegation word has the cause's bit set (riscv32_create_vm stores
    0xFFFFFFFF there), the privilege level riscv32_trap delivers to is:
    MACHINE when the trap comes from machine mode or medeleg does not
    delegate the cause; otherwise the level the trap came from when that is
    HYPERVISOR or SUPERVISOR; and from USER, SUPERVISOR unless the supervisor
    delegation word delegates the cause too, in which case USER. *)
Theorem exception_delegation_levels (vm : vm_state) (cause : Z) :
  0 <= cause < 32 ->
  Z.testbit (csr_edeleg (csr vm) PRIVILEGE_HYPERVISOR) cause = true ->
  trap_target vm cause =
    if Nat.leb PRIVILEGE_MACHINE (priv_mode vm)
       || negb (Z.testbit (csr_edeleg (csr vm) PRIVILEGE_MACHINE) cause)
    then PRIVILEGE_MACHINE
    else if Nat.leb PRIVILEGE_SUPERVISOR (priv_mode vm) then priv_mode vm
    else if Z.testbit (csr_edeleg (csr vm) PRIVILEGE_SUPERVISOR) cause
    then PRIVILEGE_USER else PRIVILEGE_SUPERVISOR.
Proof.
  intros Hc Hh.
  unfold trap_target, PRIVILEGE_MACHINE, PRIVILEGE_HYPERVISOR,
    PRIVILEGE_SUPERVISOR, PRIVILEGE_USER in *.
  cbn [trap_walk].
  rewrite !delegation_test by exact Hc. rewrite Hh. cbn [negb].
  destruct (priv_mode vm) as [|[|[|[|n]]]]; cbn [Nat.ltb Nat.leb orb negb];
    destruct (Z.testbit (csr_edeleg (csr vm) 3%nat) cause);
    destruct (Z.testbit (csr_edeleg (csr vm) 1%nat) cause); reflexivity.
Qed.

Lemma exception_delegation_levels_witness :
  trap_target vm_user_delegated 8 = PRIVILEGE_SUPERVISOR.
Proof.
  rewrite (exception_delegation_levels vm_user_delegated 8);
    [reflexivity | lia | reflexivity].
Defined.

(** X8. riscv32_trap never lowers the privilege level (from a level up to
    MACHINE it ends at a level between the old one and MACHINE), and leaves
    alone the registers (the PC included), the TLB, the delegation and
    vector CSRs, the epc/cause/tval of every level but the one it delivers
    to, and every bit of the low 32 bits of status outside the saved-context
    fields of that level (MPP, MPIE, MIE for MACHINE; SPP, SPIE, SIE for
    SUPERVISOR; none otherwise). *)
Theorem trap_frame (vm : vm_state) (cause tval : Z) :
  (priv_mode vm <= PRIVILEGE_MACHINE)%nat ->
  let vm' := riscv32_trap vm cause tval in
  let T := priv_mode vm' in
  (priv_mode vm <= T <= PRIVILEGE_MACHINE)%nat /\
  registers vm' = registers vm /\ tlb vm' = tlb vm /\
  csr_edeleg (csr vm') = csr_edeleg (csr vm) /\
  csr_ideleg (csr vm') = csr_ideleg (csr vm) /\
  csr_tvec (csr vm') = csr_tvec (csr vm) /\
  (forall p, p <> T ->
     csr_epc (csr vm') p = csr_epc (csr vm) p /\
     csr_cause (csr vm') p = csr_cause (csr vm) p /\
     csr_tval (csr vm') p = csr_tval (csr vm) p) /\
  (forall i, 0 <= i < 32 ->
     (T = PRIVILEGE_MACHINE -> i <> 3 -> i <> 7 -> i <> 11 -> i <> 12 ->
      Z.testbit (csr_status (csr vm')) i = Z.testbit (csr_status (csr vm)) i) /\
     (T = PRIVILEGE_SUPERVISOR -> i <> 1 -> i <> 5 -> i <> 8 ->
      Z.testbit (csr_status (csr vm')) i = Z.testbit (csr_status (csr vm)) i) /\
     (T <> PRIVILEGE_MACHINE -> T <> PRIVILEGE_SUPERVISOR ->
      Z.testbit (csr_status (csr vm')) i = Z.testbit (csr_status (csr vm)) i)).
Proof.
  intros Hpm vm' T.
  assert (HT : T = trap_target vm cause) by reflexivity.
  assert (Hst : csr_status (csr vm') =
                trap_status (csr_status (csr vm)) (priv_mode vm) T)
    by reflexivity.
  split.
  { rewrite HT. unfold trap_target. apply trap_walk_bounds. exact Hpm. }
  do 5 (split; [reflexivity|]).
  split.
  { intros p Hp. unfold vm', riscv32_trap, riscv32_break, set_wait_event.
    cbn [csr csr_epc csr_cause csr_tval]. fold T in Hp. unfold store.
    change (trap_target vm cause) with T.
    destruct (Nat.eqb_spec p T) as [->|_]; [contradiction|].
    repeat split. }
  intros i Hi. rewrite Hst. clear Hst HT. unfold trap_status.
  split; [|split].
  - intros -> H3 H7 H11 H12. cbn [Nat.eqb PRIVILEGE_MACHINE].
    rewrite mask_clear_bit3. unfold replace_bits, cut_bits.
    Z.bitblast_core.
  - intros -> H1 H5 H8. cbn [Nat.eqb PRIVILEGE_MACHINE PRIVILEGE_SUPERVISOR].
    rewrite mask_clear_bit1. unfold replace_bits, cut_bits.
    Z.bitblast_core.
  - intros HM HS.
    destruct (Nat.eqb_spec T PRIVILEGE_MACHINE); [contradiction|].
    destruct (Nat.eqb_spec T PRIVILEGE_SUPERVISOR); [contradiction|].
    reflexivity.
Qed.

Lemma trap_frame_witness :
  priv_mode (riscv32_trap vm_user_delegated 8 0) = PRIVILEGE_SUPERVISOR
  /\ registers (riscv32_trap vm_user_delegated 8 0)
     = registers vm_user_delegated.
Proof.
  pose proof (trap_frame vm_user_delegated 8 0 ltac:(vm_compute; lia)) as H.
  split; [reflexivity | exact (proj1 (proj2 H))].
Defined.

Lemma run_till_event_done
    (i_emu c_emu : vm_state -> Z -> vm_state) (hash : Z -> Z)
    (check : tlb_entry -> Z -> Z -> bool) (inside : Z -> Z -> bool)
    (mmu : vm_state -> Z -> Z -> Z -> vm_state * option (list Z))
    (fuel : nat) (vm : vm_state) :
  wait_event vm = 0 ->
  riscv32_run_till_event i_emu c_emu hash check inside mmu fuel vm = Some vm.
Proof. intros H. destruct fuel; cbn [riscv32_run_till_event]; rewrite H; reflexivity. Qed.

(** X9. One iteration of riscv32_run on a hart whose next instruction is
    fetched through the TLB, is a 32-bit encoding and is dispatched to the
    illegal-instruction handler: the hot loop stops after that one
    instruction, and the iteration ends in the privilege level T the
    delegation walk chose for cause 2, with the PC at the base of tvec[T]
    (low two bits cleared, never the vectored entry), epc[T] the address of
    the offending instruction, cause[T] = 2 and tval[T] the instruction
    word. *)
Theorem illegal_instruction_enters_handler
    (i_emu c_emu : vm_state -> Z -> vm_state) (hash : Z -> Z)
    (check : tlb_entry -> Z -> Z -> bool) (inside : Z -> Z -> bool)
    (mmu : vm_state -> Z -> Z -> Z -> vm_state * option (list Z))
    (fuel : nat) (vm : vm_state) :
  let pc := registers vm REGISTER_PC in
  let p := tlb_ptr (tlb vm (hash pc)) in
  let off := Z.land pc 0xFFF in
  let instruction := read_uint32_le [p off; p (off + 1); p (off + 2); p (off + 3)] in
  let T := trap_target vm TRAP_ILL_INSTR in
  check (tlb vm (hash pc)) pc MMU_EXEC && inside pc 4 = true ->
  Z.land instruction RISCV32I_OPCODE_MASK = RISCV32I_OPCODE_MASK ->
  (forall s, i_emu s instruction = riscv32_illegal_insn s instruction) ->
  exists vm',
    riscv32_run_iteration i_emu c_emu hash check inside mmu (S fuel) vm = Some vm' /\
    priv_mode vm' = T /\
    registers vm' REGISTER_PC = wrap32 (Z.land (csr_tvec (csr vm) T) (Z.lnot 3)) /\
    csr_epc (csr vm') T = pc /\
    csr_cause (csr vm') T = TRAP_ILL_INSTR /\
    csr_tval (csr vm') T = instruction.
Proof.
  intros pc p off instruction T Hhit Hop Hill.
  set (vm0 := set_wait_event vm 1).
  set (vm1 := pc_advance
                (riscv32_illegal_insn (riscv32i_write_register_u vm0 REGISTER_ZERO 0)
                                      instruction) 4).
  assert (Hstep : hot_step i_emu c_emu hash check inside mmu vm0 = vm1).
  { unfold hot_step, hot_fetch. cbv zeta.
    change (registers (riscv32i_write_register_u vm0 REGISTER_ZERO 0) REGISTER_PC)
      with pc.
    change (tlb (riscv32i_write_register_u vm0 REGISTER_ZERO 0)) with (tlb vm).
    rewrite Hhit. fold p. fold off. fold instruction.
    unfold riscv32_exec_instruction. rewrite Hop, Z.eqb_refl. cbn [negb].
    rewrite Hill. reflexivity. }
  assert (Hpriv : priv_mode vm1 = T) by reflexivity.
  assert (Hcsr : csr vm1 = csr (riscv32_trap vm TRAP_ILL_INSTR instruction))
    by reflexivity.
  assert (Hwait : wait_event vm1 = 0) by reflexivity.
  exists (run_vector vm1). split.
  { unfold riscv32_run_iteration. fold vm0. cbn [riscv32_run_till_event].
    change (wait_event vm0 =? 0) with false. cbv iota. rewrite Hstep.
    rewrite run_till_event_done by exact Hwait. reflexivity. }
  destruct (run_vector_keeps vm1) as [Hp Hc].
  pose proof (run_vector_pc vm1) as Hpc. cbv zeta in Hpc.
  rewrite Hp, Hc, Hpriv, Hcsr. rewrite Hpc, Hpriv, Hcsr. clear Hpc.
  unfold riscv32_trap, riscv32_break, set_wait_event.
  cbn [csr csr_epc csr_cause csr_tval csr_tvec].
  change (trap_target vm TRAP_ILL_INSTR) with T.
  rewrite !store_same.
  change (Z.testbit TRAP_ILL_INSTR 31) with false. cbn [andb].
  repeat split; reflexivity.
Qed.

Lemma illegal_instruction_enters_handler_witness :
  exists vm',
    riscv32_run_iteration riscv32_illegal_insn riscv32c_illegal_insn
      tlb_hash0 tlb_check_hit inside_page mmu_fault 1 (vm_reset addi_x0_x0_1)
    = Some vm' /\
    priv_mode vm' = PRIVILEGE_MACHINE /\
    csr_cause (csr vm') PRIVILEGE_MACHINE = TRAP_ILL_INSTR.
Proof.
  destruct (illegal_instruction_enters_handler
              riscv32_illegal_insn riscv32c_illegal_insn
              tlb_hash0 tlb_check_hit inside_page mmu_fault 0
              (vm_reset addi_x0_x0_1) eq_refl eq_refl (fun s => eq_refl))
    as (vm' & Hrun & Hp & _ & _ & Hc & _).
  exists vm'. split; [exact Hrun|]. split; [exact Hp|exact Hc].
Defined.

End TrapFacts.

Module OpcodeFacts.
Import Riscv32 Riscv32Opcodes.

Lemma land_low_high (a b n : Z) :
  0 <= n -> Z.land (Z.land a (Z.ones n)) (Z.shiftl b n) = 0.
Proof.
  intros Hn. apply Z.bits_inj'. intros i Hi.
  rewrite !Z.land_spec, Z.bits_0.
  destruct (Z.ltb_spec i n).
  - rewrite Z.shiftl_spec_low by lia. apply andb_false_r.
  - rewrite Z.ones_spec_high by lia. rewrite andb_false_r. reflexivity.
Qed.

Lemma lor_disjoint (a b n : Z) :
  0 <= n -> 0 <= a < 2 ^ n -> Z.lor a (Z.shiftl b n) = a + Z.shiftl b n.
Proof.
  intros Hn Ha.
  assert (Hl : Z.land a (Z.shiftl b n) = 0).
  { replace a with (Z.land a (Z.ones n)) at 1
      by (rewrite Z.land_ones by lia; apply Z.mod_small; lia).
    apply land_low_high. exact Hn. }
  rewrite <- Z.lxor_lor by exact Hl. symmetry.
  apply Z.add_nocarry_lxor. exact Hl.
Qed.

Lemma lor_high_bits (opcode k : Z) :
  0 <= opcode < 32 -> 0 <= k < 16 ->
  Z.lor opcode (shl32 k 5) = opcode + 32 * k.
Proof.
  intros Ho Hk. unfold shl32, wrap32.
  rewrite (Z.mod_small (Z.shiftl k 5))
    by (rewrite Z.shiftl_mul_pow2 by lia; lia).
  rewrite (lor_disjoint opcode k 5) by lia.
  rewrite Z.shiftl_mul_pow2 by lia. lia.
Qed.

Lemma smudge_loop_spec {H} (n : nat) (tbl : Z -> H) (opcode : Z) (func : H)
    (f3 i : Z) :
  0 <= opcode < 32 -> 0 <= f3 -> f3 + Z.of_nat n <= 16 -> 0 <= i ->
  smudge_loop n tbl opcode func f3 i =
    if (i mod 32 =? opcode) && (f3 <=? i / 32) && (i / 32 <? f3 + Z.of_nat n)
    then func else tbl i.
Proof.
  intros Ho. revert tbl f3. induction n as [|n IH]; intros tbl f3 Hf Hn Hi.
  - cbn [smudge_loop].
    destruct (i mod 32 =? opcode), (Z.leb_spec f3 (i / 32)),
      (Z.ltb_spec (i / 32) (f3 + Z.of_nat 0)); cbn [andb]; try reflexivity; lia.
  - cbn [smudge_loop]. rewrite IH by lia.
    rewrite lor_high_bits by lia. unfold storeZ.
    destruct (Z.eqb_spec i (opcode + 32 * f3)) as [->|Hne].
    + replace ((opcode + 32 * f3) mod 32) with opcode
        by (rewrite Z.mul_comm, Z.mod_add by lia; symmetry; apply Z.mod_small; lia).
      replace ((opcode + 32 * f3) / 32) with f3
        by (rewrite Z.mul_comm, Z.div_add by lia; rewrite Z.div_small by lia; lia).
      rewrite Z.eqb_refl.
      destruct (Z.leb_spec (f3 + 1) f3), (Z.leb_spec f3 f3),
        (Z.ltb_spec f3 (f3 + 1 + Z.of_nat n)),
        (Z.ltb_spec f3 (f3 + Z.of_nat (S n))); cbn [andb]; try reflexivity; lia.
    + destruct (Z.eqb_spec (i mod 32) opcode) as [Hm|Hm]; cbn [andb];
        [|reflexivity].
      assert (i / 32 <> f3).
      { intros Hd. apply Hne. rewrite <- Hm, <- Hd.
        rewrite Z.add_comm. apply Z.div_mod. lia. }
      destruct (Z.leb_spec (f3 + 1) (i / 32)), (Z.leb_spec f3 (i / 32)),
        (Z.ltb_spec (i / 32) (f3 + 1 + Z.of_nat n)),
        (Z.ltb_spec (i / 32) (f3 + Z.of_nat (S n))); cbn [andb];
        try reflexivity; lia.
Qed.

(** X10. smudge_opcode_UJ with a 5-bit opcode installs the handler in
    exactly the entries of the 512-entry table whose low five index bits
    are the opcode (all sixteen settings of the four index bits above
    them), and smudge_opcode_ISB with an opcode below 0x100 in exactly the
    entries whose low eight index bits are the opcode (both settings of
    index bit 8); every other entry keeps its handler. *)
Theorem smudge_fills_opcode_class {H} (tbl : Z -> H) (opcode : Z) (func : H)
    (i : Z) :
  0 <= i < 512 ->
  (0 <= opcode < 32 ->
   smudge_opcode_UJ tbl opcode func i =
     if Z.land i 0x1F =? opcode then func else tbl i) /\
  (0 <= opcode < 256 ->
   smudge_opcode_ISB tbl opcode func i =
     if Z.land i 0xFF =? opcode then func else tbl i).
Proof.
  intros Hi. split; intros Ho.
  - unfold smudge_opcode_UJ. rewrite smudge_loop_spec by lia.
    change 0x1F with (Z.ones 5). rewrite Z.land_ones by lia.
    change (2 ^ 5) with 32.
    assert (0 <= i / 32 < 16).
    { split; [apply Z.div_pos; lia|apply Z.div_lt_upper_bound; lia]. }
    destruct (i mod 32 =? opcode), (Z.leb_spec 0 (i / 32)),
      (Z.ltb_spec (i / 32) (0 + Z.of_nat 16)); cbn [andb]; try reflexivity; lia.
  - unfold smudge_opcode_ISB, storeZ.
    change 0xFF with (Z.ones 8). rewrite Z.land_ones by lia.
    change (2 ^ 8) with 256.
    assert (Hor : Z.lor opcode 0x100 = opcode + 256).
    { change 0x100 with (Z.shiftl 1 8). rewrite (lor_disjoint opcode 1 8) by lia.
      reflexivity. }
    rewrite Hor.
    destruct (Z.eqb_spec i (opcode + 256)) as [->|H1].
    + replace ((opcode + 256) mod 256) with opcode
        by (rewrite <- (Z.mul_1_l 256) at 1; rewrite Z.mod_add by lia;
            symmetry; apply Z.mod_small; lia).
      rewrite Z.eqb_refl. reflexivity.
    + destruct (Z.eqb_spec i opcode) as [->|H0].
      * rewrite Z.mod_small by lia. rewrite Z.eqb_refl. reflexivity.
      * destruct (Z.eqb_spec (i mod 256) opcode) as [Hm|Hm]; [|reflexivity].
        exfalso. pose proof (Z.div_mod i 256 ltac:(lia)) as Hd.
        assert (0 <= i / 256 < 2).
        { split; [apply Z.div_pos; lia|apply Z.div_lt_upper_bound; lia]. }
        assert (i / 256 = 0 \/ i / 256 = 1) as [Hq|Hq] by lia; lia.
Qed.

Lemma smudge_fills_opcode_class_witness :
  smudge_opcode_UJ (opcodes_reset 0%nat) 0x0D 1%nat 0x1ED = 1%nat
  /\ smudge_opcode_ISB (opcodes_reset 0%nat) 0x13 1%nat 0x113 = 1%nat.
Proof.
  split.
  - rewrite (proj1 (smudge_fills_opcode_class (opcodes_reset 0%nat) 0x0D 1%nat
                      0x1ED ltac:(lia)) ltac:(lia)).
    reflexivity.
  - rewrite (proj2 (smudge_fills_opcode_class (opcodes_reset 0%nat) 0x13 1%nat
                      0x113 ltac:(lia)) ltac:(lia)).
    reflexivity.
Defined.

End OpcodeFacts.

(** * riscv_csr.c: what a CSR write leaves behind *)

Module CsrWriteFacts.
Import Csr CsrSamples CsrInvariants CsrFacts.

Lemma cut_replace_same (v b n r : Z) :
  0 <= b -> 0 <= n ->
  cut_bits (replace_bits v b n r) b n = Z.land r (Z.ones n).
Proof. intros Hb Hn. unfold cut_bits, replace_bits. Z.bitblast. Qed.

Lemma cut_replace_other (v b n r b' n' : Z) :
  0 <= b -> 0 <= n -> 0 <= b' -> 0 <= n' ->
  b' + n' <= b \/ b + n <= b' ->
  cut_bits (replace_bits v b n r) b' n' = cut_bits v b' n'.
Proof. intros Hb Hn Hb' Hn' Hd. unfold cut_bits, replace_bits. Z.bitblast. Qed.

Lemma replace_cut_id (v b n : Z) :
  0 <= b -> 0 <= n -> replace_bits v b n (cut_bits v b n) = v.
Proof. intros Hb Hn. unfold cut_bits, replace_bits. Z.bitblast. Qed.

Lemma cut_bits_range (v b n : Z) : 0 <= n -> 0 <= cut_bits v b n < 2 ^ n.
Proof.
  intros Hn. unfold cut_bits. rewrite Z.land_ones by lia.
  apply Z.mod_pos_bound. lia.
Qed.

Lemma status_validate_stages (E : csr_env) (vm : hart) (s : Z) :
  status_validate E vm s =
    let s3 := fix_fs E (fix_mpp (fix_xl vm s)) in
    bit_replace (fix_vs s3) 15 2 (bit_cut s3 13 2).
Proof.
  unfold status_validate. fold (fix_xl vm s). cbv zeta.
  fold (fix_mpp (fix_xl vm s)). set (s2 := fix_mpp (fix_xl vm s)).
  unfold fix_fs, fix_vs, bit_cut, bit_replace, FS_OFF, FS_DIRTY, EVAL_MAX.
  assert (Hvs : forall x f, 0 <= f ->
            (let '(vs, s4) :=
               if negb (cut_bits x 9 2 =? 0)
               then (0, replace_bits x 9 2 0) else (cut_bits x 9 2, x) in
             replace_bits s4 15 2 (if f <? vs then vs else f))
            = replace_bits (if negb (cut_bits x 9 2 =? 0)
                            then replace_bits x 9 2 0 else x) 15 2 f).
  { intros x f Hf. destruct (Z.eqb_spec (cut_bits x 9 2) 0) as [Hv|Hv];
      cbn [negb]; [rewrite Hv|];
      (destruct (Z.ltb_spec f 0); [lia|reflexivity]). }
  destruct (USE_FPU E).
  - destruct (negb (USE_PRECISE_FS E) && negb (cut_bits s2 13 2 =? 0)
              && negb (cut_bits s2 13 2 =? 3)).
    + rewrite cut_replace_same by lia. change (Z.land 3 (Z.ones 2)) with 3.
      apply Hvs. lia.
    + apply Hvs. apply cut_bits_range. lia.
  - destruct (negb (cut_bits s2 13 2 =? 0)) eqn:Hfs.
    + rewrite cut_replace_same by lia. change (Z.land 0 (Z.ones 2)) with 0.
      apply Hvs. lia.
    + apply Hvs. apply cut_bits_range. lia.
Qed.

Ltac field_simpl_bits :=
  repeat first
    [ rewrite cut_replace_same by lia
    | rewrite cut_replace_other by lia ].

Lemma fix_keep (s : Z) (c : bool) (b n r b' n' : Z) :
  0 <= b -> 0 <= n -> 0 <= b' -> 0 <= n' ->
  b' + n' <= b \/ b + n <= b' ->
  cut_bits (if c then replace_bits s b n r else s) b' n' = cut_bits s b' n'.
Proof.
  intros. destruct c; [apply cut_replace_other; assumption|reflexivity].
Qed.

Lemma fix_xl_field (s b : Z) :
  0 <= b ->
  let s' := if negb (cut_bits s b 2 =? 1) && negb (cut_bits s b 2 =? 2)
            then replace_bits s b 2 2 else s in
  cut_bits s' b 2 = 1 \/ cut_bits s' b 2 = 2.
Proof.
  intros Hb. cbv zeta.
  destruct (Z.eqb_spec (cut_bits s b 2) 1) as [H1|H1]; cbn [negb andb];
    [left; exact H1|].
  destruct (Z.eqb_spec (cut_bits s b 2) 2) as [H2|H2]; cbn [negb andb];
    [right; exact H2|].
  right. rewrite cut_replace_same by lia. reflexivity.
Qed.

Lemma fix_xl_fields (vm : hart) (s : Z) :
  (machine_rv64 vm = true ->
   (cut_bits (fix_xl vm s) 32 2 = 1 \/ cut_bits (fix_xl vm s) 32 2 = 2) /\
   (cut_bits (fix_xl vm s) 34 2 = 1 \/ cut_bits (fix_xl vm s) 34 2 = 2)).
Proof.
  intros Hm. unfold fix_xl, bit_cut, bit_replace. rewrite Hm. cbv zeta.
  split.
  - rewrite fix_keep by lia. apply fix_xl_field. lia.
  - apply fix_xl_field. lia.
Qed.

Lemma fix_mpp_keeps (s b n : Z) :
  0 <= b -> 0 <= n -> b + n <= 11 \/ 13 <= b ->
  cut_bits (fix_mpp s) b n = cut_bits s b n.
Proof. intros. unfold fix_mpp, bit_replace. apply fix_keep; lia. Qed.

Lemma fix_fs_keeps (E : csr_env) (s b n : Z) :
  0 <= b -> 0 <= n -> b + n <= 13 \/ 15 <= b ->
  cut_bits (fix_fs E s) b n = cut_bits s b n.
Proof.
  intros. unfold fix_fs, bit_replace.
  destruct (USE_FPU E); apply fix_keep; lia.
Qed.

Lemma fix_vs_keeps (s b n : Z) :
  0 <= b -> 0 <= n -> b + n <= 9 \/ 11 <= b ->
  cut_bits (fix_vs s) b n = cut_bits s b n.
Proof. intros. unfold fix_vs, bit_replace. apply fix_keep; lia. Qed.

Lemma fix_mpp_field (s : Z) : cut_bits (fix_mpp s) 11 2 <> 2.
Proof.
  unfold fix_mpp, bit_cut, bit_replace.
  destruct (Z.eqb_spec (cut_bits s 11 2) 2); [|assumption].
  rewrite cut_replace_same by lia. discriminate.
Qed.

Lemma fix_vs_field (s : Z) : cut_bits (fix_vs s) 9 2 = 0.
Proof.
  unfold fix_vs, bit_cut, bit_replace, FS_OFF.
  destruct (Z.eqb_spec (cut_bits s 9 2) 0); cbn [negb]; [assumption|].
  rewrite cut_replace_same by lia. reflexivity.
Qed.

Lemma fix_fs_field (E : csr_env) (s : Z) :
  (USE_FPU E = false -> cut_bits (fix_fs E s) 13 2 = 0) /\
  (USE_FPU E = true -> USE_PRECISE_FS E = false ->
   cut_bits (fix_fs E s) 13 2 = 0 \/ cut_bits (fix_fs E s) 13 2 = 3).
Proof.
  unfold fix_fs, bit_cut, bit_replace, FS_OFF, FS_DIRTY.
  split.
  - intros ->. destruct (Z.eqb_spec (cut_bits s 13 2) 0); cbn [negb];
      [assumption|]. rewrite cut_replace_same by lia. reflexivity.
  - intros -> ->. cbn [negb andb].
    destruct (Z.eqb_spec (cut_bits s 13 2) 0); cbn [negb andb]; [left; assumption|].
    destruct (Z.eqb_spec (cut_bits s 13 2) 3); cbn [negb andb]; [right; assumption|].
    right. rewrite cut_replace_same by lia. reflexivity.
Qed.

Lemma status_validate_valid (E : csr_env) (vm : hart) (s : Z) :
  status_valid E vm (status_validate E vm s).
Proof.
  rewrite status_validate_stages. cbv zeta.
  set (s1 := fix_xl vm s). set (s2 := fix_mpp s1). set (s3 := fix_fs E s2).
  unfold status_valid, bit_cut, bit_replace, FS_OFF, FS_DIRTY.
  assert (Hk : forall b n, 0 <= b -> 0 <= n -> b + n <= 15 \/ 17 <= b ->
             cut_bits (replace_bits (fix_vs s3) 15 2 (cut_bits s3 13 2)) b n
             = cut_bits (fix_vs s3) b n).
  { intros. apply cut_replace_other; lia. }
  split; [|split; [|split; [|split; [|split]]]].
  - intros Hm. rewrite !Hk by lia. rewrite !fix_vs_keeps by lia.
    unfold s3. rewrite !fix_fs_keeps by lia.
    unfold s2. rewrite !fix_mpp_keeps by lia.
    apply fix_xl_fields. exact Hm.
  - rewrite Hk by lia. rewrite fix_vs_keeps by lia.
    unfold s3. rewrite fix_fs_keeps by lia. apply fix_mpp_field.
  - rewrite Hk by lia. apply fix_vs_field.
  - rewrite cut_replace_same by lia. rewrite Hk by lia.
    rewrite fix_vs_keeps by lia.
    unfold cut_bits at 1. rewrite <- Z.land_assoc, Z.land_diag. reflexivity.
  - intros Hf. rewrite Hk by lia. rewrite fix_vs_keeps by lia.
    apply (proj1 (fix_fs_field E s2)). exact Hf.
  - intros Hf Hp. rewrite Hk by lia. rewrite fix_vs_keeps by lia.
    apply (proj2 (fix_fs_field E s2)); assumption.
Qed.

Lemma status_valid_fixpoint (E : csr_env) (vm : hart) (s : Z) :
  status_valid E vm s -> status_validate E vm s = s.
Proof.
  unfold status_valid, bit_cut, FS_OFF, FS_DIRTY.
  intros (Hxl & Hmpp & Hvs & Hxs & Hnofpu & Hfpu).
  rewrite status_validate_stages. cbv zeta.
  assert (H1 : fix_xl vm s = s).
  { unfold fix_xl, bit_cut. destruct (machine_rv64 vm); [|reflexivity].
    destruct (Hxl eq_refl) as [Hu Hs]. cbv zeta.
    assert (Hc : negb (cut_bits s 32 2 =? 1) && negb (cut_bits s 32 2 =? 2) = false).
    { destruct Hu as [-> | ->]; reflexivity. }
    rewrite Hc.
    assert (Hd : negb (cut_bits s 34 2 =? 1) && negb (cut_bits s 34 2 =? 2) = false).
    { destruct Hs as [-> | ->]; reflexivity. }
    rewrite Hd. reflexivity. }
  rewrite H1.
  assert (H2 : fix_mpp s = s).
  { unfold fix_mpp, bit_cut.
    destruct (Z.eqb_spec (cut_bits s 11 2) 2); [contradiction|reflexivity]. }
  rewrite H2.
  assert (H3 : fix_fs E s = s).
  { unfold fix_fs, bit_cut, FS_OFF, FS_DIRTY. destruct (USE_FPU E).
    - destruct (USE_PRECISE_FS E); [reflexivity|]. cbn [negb andb].
      destruct (Hfpu eq_refl eq_refl) as [-> | ->]; reflexivity.
    - rewrite (Hnofpu eq_refl). reflexivity. }
  rewrite H3.
  assert (H4 : fix_vs s = s).
  { unfold fix_vs, bit_cut, FS_OFF. rewrite Hvs. reflexivity. }
  rewrite H4. unfold bit_replace, bit_cut. rewrite <- Hxs.
  apply replace_cut_id; lia.
Qed.

Lemma status_op_result (E : csr_env) (vm : hart) (c v : Z) (op : csr_op_kind) :
  c = CSR_MSTATUS \/ c = CSR_SSTATUS ->
  (forall h, csr (riscv_hart_check_interrupts E h) = csr h) ->
  exists s0,
    status (csr (hart_of (riscv_csr_op_internal E vm c v op)))
      = status_validate E vm s0 /\
    ok (riscv_csr_op_internal E vm c v op) = true /\
    (v = 0 -> op = CSR_SETBITS -> s0 = status (csr vm)).
Proof.
  intros Hc Hci.
  assert (Hst : forall m, exists s0,
             status (csr (hart_of (riscv_csr_status E vm v m op)))
               = status_validate E vm s0 /\
             ok (riscv_csr_status E vm v m op) = true /\
             (v = 0 -> op = CSR_SETBITS -> s0 = status (csr vm))).
  { intros m. unfold riscv_csr_status.
    exists (fst (riscv_csr_helper_masked (rv64 vm) (status (csr vm)) v m op)).
    destruct (riscv_csr_helper_masked (rv64 vm) (status (csr vm)) v m op)
      as [s0 d0] eqn:Hh.
    cbv zeta. cbn [fst].
    split; [|split].
    - destruct (negb _); cbn [hart_of ret]; rewrite ?Hci; reflexivity.
    - reflexivity.
    - intros -> ->. unfold riscv_csr_helper_masked in Hh.
      injection Hh as <- _. rewrite Z.land_0_l. apply Z.lor_0_r. }
  destruct Hc as [-> | ->]; apply Hst.
Qed.

(** X11. After a successful riscv_csr_op on mstatus or sstatus, whatever
    the operation and operand, the status word of the hart is valid: on a
    64-bit machine UXL and SXL are 1 or 2, MPP is never 2 (the hypervisor
    level), VS is 0, XS equals FS, FS is 0 in a build without FPU and 0 or 3
    (off or dirty) in a build with FPU and without precise FS tracking.
    (The interrupt check of the hart is assumed to leave the CSR file
    alone.) *)
Theorem status_write_is_validated (E : csr_env) (vm : hart) (c v : Z)
    (op : csr_op_kind) :
  c = CSR_MSTATUS \/ c = CSR_SSTATUS ->
  (forall h, csr (riscv_hart_check_interrupts E h) = csr h) ->
  riscv_csr_privilege c <= priv_mode vm ->
  let r := riscv_csr_op E vm c v op in
  ok r = true /\ status_valid E vm (status (csr (hart_of r))).
Proof.
  intros Hc Hci Hp r.
  assert (Hro : riscv_csr_readonly c && (is_swap op || negb (v =? 0)) = false)
    by (destruct Hc as [-> | ->]; reflexivity).
  pose proof (csr_op_granted E vm c v op Hro Hp) as Hg. cbv zeta in Hg.
  destruct (status_op_result E vm c v op Hc Hci) as (s0 & Hs & Hok & _).
  unfold r. rewrite Hg.
  destruct (negb (rv64 (hart_of (riscv_csr_op_internal E vm c v op))));
    cbn [ok hart_of ret]; rewrite Hs; (split; [exact Hok|]);
    apply status_validate_valid.
Qed.

Lemma status_write_is_validated_witness :
  let r := riscv_csr_op env_plain hart_machine CSR_MSTATUS 0x1000 CSR_SWAP in
  ok r = true /\ status_valid env_plain hart_machine (status (csr (hart_of r))).
Proof.
  apply (status_write_is_validated env_plain hart_machine CSR_MSTATUS 0x1000
           CSR_SWAP).
  - left. reflexivity.
  - intros h. reflexivity.
  - vm_compute. congruence.
Defined.

(** X12. The validation of the status word is idempotent, so a valid status
    word is stable under reads: a plain read (CSRRS with zero) of mstatus or
    sstatus on a hart whose status is valid leaves the status word exactly
    as it was. *)
Theorem status_read_keeps_valid_status (E : csr_env) (vm : hart) (c : Z) :
  c = CSR_MSTATUS \/ c = CSR_SSTATUS ->
  (forall h, csr (riscv_hart_check_interrupts E h) = csr h) ->
  riscv_csr_privilege c <= priv_mode vm ->
  (forall s, status_validate E vm (status_validate E vm s)
             = status_validate E vm s) /\
  (status_valid E vm (status (csr vm)) ->
   status (csr (hart_of (csr_read E vm c))) = status (csr vm)).
Proof.
  intros Hc Hci Hp. split.
  - intros s. apply status_valid_fixpoint, status_validate_valid.
  - intros Hv. unfold csr_read.
    assert (Hro : riscv_csr_readonly c
                  && (is_swap CSR_SETBITS || negb (0 =? 0)) = false)
      by (destruct Hc as [-> | ->]; reflexivity).
    pose proof (csr_op_granted E vm c 0 CSR_SETBITS Hro Hp) as Hg.
    cbv zeta in Hg. rewrite Hg.
    destruct (status_op_result E vm c 0 CSR_SETBITS Hc Hci) as (s0 & Hs & _ & H0).
    rewrite (H0 eq_refl eq_refl) in Hs.
    destruct (negb (rv64 (hart_of (riscv_csr_op_internal E vm c 0 CSR_SETBITS))));
      cbn [hart_of ret]; rewrite Hs; apply status_valid_fixpoint; exact Hv.
Qed.

Lemma status_read_keeps_valid_status_witness :
  status (csr (hart_of (csr_read env_plain hart_machine CSR_MSTATUS)))
  = status (csr hart_machine).
Proof.
  apply (proj2 (status_read_keeps_valid_status env_plain hart_machine CSR_MSTATUS
                  ltac:(left; reflexivity) ltac:(intros h; reflexivity)
                  ltac:(vm_compute; congruence))).
  unfold status_valid. vm_compute.
  repeat split; intros; try congruence; auto.
Defined.

Lemma direct_csr_write (E : csr_env) (vm : hart) (c v : Z) (op : csr_op_kind)
    get p :
  direct_csr c = Some (get, p) ->
  let r := riscv_csr_op_internal E vm c v op in
  ok r = true /\
  get (csr (hart_of r)) p = fst (riscv_csr_helper (rv64 vm) (get (csr vm) p) v op) /\
  rv64 (hart_of r) = rv64 vm /\ priv_mode (hart_of r) = priv_mode vm.
Proof.
  unfold direct_csr.
  repeat (match goal with
          | |- context [?a =? ?b] =>
              destruct (Z.eqb_spec a b) as [->|?];
              [intros [= <- <-];
               cbv beta iota zeta delta [riscv_csr_op_internal csr_direct];
               destruct (riscv_csr_helper _ _ _ _) as [x d];
               cbn [ok hart_of ret csr with_csr rv64 priv_mode fst
                    tvec scratch epc cause tval csr_set_tvec csr_set_scratch
                    csr_set_epc csr_set_cause csr_set_tval];
               rewrite store_same; repeat split|]
          end).
  discriminate.
Qed.

(** X13. Write then read on the directly stored CSRs (stvec, sscratch,
    sepc, scause, stval, mtvec, mscratch, mepc, mcause, mtval): after a
    CSRRW of v at sufficient privilege, a plain read of the same CSR
    succeeds and returns v on an RV64 hart and the sign extension of the low
    32 bits of v on an RV32 hart. *)
Theorem direct_csr_write_then_read (E : csr_env) (vm : hart) (c v : Z) get p :
  direct_csr c = Some (get, p) ->
  Z.of_nat p <= priv_mode vm ->
  let r := riscv_csr_op E vm c v CSR_SWAP in
  ok r = true /\
  ok (csr_read E (hart_of r) c) = true /\
  dest_of (csr_read E (hart_of r) c) = if rv64 vm then v else sext32 v.
Proof.
  intros Hd Hp r.
  destruct (direct_csr_dispatch E vm c v CSR_SWAP get p Hd) as (Hro & Hpr & _).
  assert (Hg : forall h x op, priv_mode h = priv_mode vm ->
            riscv_csr_op E h c x op =
              let r0 := riscv_csr_op_internal E h c x op in
              if negb (rv64 (hart_of r0))
              then ret (ok r0) (hart_of r0) (sext32 (dest_of r0)) else r0).
  { intros h x op Hh. apply csr_op_granted; [rewrite Hro; reflexivity|].
    rewrite Hpr, Hh. exact Hp. }
  destruct (direct_csr_write E vm c v CSR_SWAP get p Hd) as (Hok & Hcell & H64 & Hpm).
  assert (Hr : hart_of r = hart_of (riscv_csr_op_internal E vm c v CSR_SWAP)
               /\ ok r = true).
  { unfold r. rewrite (Hg vm v CSR_SWAP eq_refl). cbv zeta.
    destruct (negb _); cbn [hart_of ok ret]; auto. }
  destruct Hr as [Hh Hokr]. split; [exact Hokr|].
  set (vm1 := hart_of r) in *.
  assert (Hpm1 : priv_mode vm1 = priv_mode vm) by (rewrite Hh; exact Hpm).
  assert (H641 : rv64 vm1 = rv64 vm) by (rewrite Hh; exact H64).
  unfold csr_read. rewrite (Hg vm1 0 CSR_SETBITS Hpm1). cbv zeta.
  destruct (direct_csr_dispatch E vm1 c 0 CSR_SETBITS get p Hd) as (_ & _ & set & Hi).
  rewrite Hi.
  destruct (csr_direct_result get set p vm1 0 CSR_SETBITS) as (Hok2 & Hx & Hdest).
  rewrite Hx, H641.
  assert (Hcell1 : get (csr vm1) p
                   = fst (riscv_csr_helper (rv64 vm) (get (csr vm) p) v CSR_SWAP))
    by (rewrite Hh; exact Hcell).
  rewrite H641, Hcell1 in Hdest. clear Hcell Hcell1 Hh Hi Hx.
  destruct (rv64 vm); cbn [negb ok dest_of ret]; rewrite ?Hok2, ?Hdest.
  - split; reflexivity.
  - split; [reflexivity|].
    unfold riscv_csr_helper, riscv_csr_helper_masked, maxlen_max. cbn [fst].
    rewrite <- (sext32_land v). f_equal.
    change 0xFFFFFFFF with (Z.ones 32).
    change (2 ^ 64 - 1) with (Z.ones 64). Z.bitblast.
Qed.

Lemma direct_csr_write_then_read_witness :
  dest_of (csr_read env_plain
             (hart_of (riscv_csr_op env_plain hart_machine CSR_MEPC 0x80000004
                         CSR_SWAP)) CSR_MEPC) = 0x80000004.
Proof.
  exact (proj2 (proj2 (direct_csr_write_then_read env_plain hart_machine
                         CSR_MEPC 0x80000004 epc PRIVILEGE_MACHINE eq_refl
                         ltac:(vm_compute; congruence)))).
Defined.

Lemma masked_outside (is64 : bool) (c d m : Z) (op : csr_op_kind) (i : Z) :
  0 <= i ->
  Z.testbit m i = false \/ (is64 = false /\ 32 <= i) ->
  Z.testbit (fst (riscv_csr_helper_masked is64 c d m op)) i = Z.testbit c i.
Proof.
  intros Hi Hm. unfold riscv_csr_helper_masked. cbn [fst].
  assert (Hmask : Z.testbit (if is64 then m else Z.land m 0xFFFFFFFF) i = false).
  { destruct Hm as [Hm | [-> Hm]].
    - destruct is64; [exact Hm|]. rewrite Z.land_spec, Hm. reflexivity.
    - rewrite Z.land_spec. change 0xFFFFFFFF with (Z.ones 32).
      rewrite Z.ones_spec_high by lia. apply andb_false_r. }
  destruct op; rewrite ?Z.lor_spec, ?Z.land_spec, ?Z.lnot_spec, ?Z.land_spec by lia;
    rewrite Hmask; rewrite ?andb_false_r, ?orb_false_r, ?andb_true_r; reflexivity.
Qed.

Lemma machine_csr_granted (E : csr_env) (vm : hart) (c v : Z) (op : csr_op_kind) :
  riscv_csr_readonly c = false -> riscv_csr_privilege c <= priv_mode vm ->
  ok (riscv_csr_op E vm c v op) = ok (riscv_csr_op_internal E vm c v op) /\
  hart_of (riscv_csr_op E vm c v op) = hart_of (riscv_csr_op_internal E vm c v op).
Proof.
  intros Hro Hp. rewrite csr_op_granted by (rewrite ?Hro; auto). cbv zeta.
  destruct (negb _); split; reflexivity.
Qed.

(** X14. A write to medeleg or mideleg changes only bits inside the write
    mask of that CSR: every bit outside the mask (and, on an RV32 hart,
    every bit from 32 up) of the machine-level delegation word is as before,
    the other delegation word and the delegation words of the other levels
    are untouched, and the operation succeeds. *)
Theorem delegation_write_respects_mask (E : csr_env) (vm : hart) (v : Z)
    (op : csr_op_kind) :
  3 <= priv_mode vm ->
  let re := riscv_csr_op E vm CSR_MEDELEG v op in
  let ri := riscv_csr_op E vm CSR_MIDELEG v op in
  (ok re = true /\
   ideleg (csr (hart_of re)) = ideleg (csr vm) /\
   (forall p, p <> PRIVILEGE_MACHINE ->
              edeleg (csr (hart_of re)) p = edeleg (csr vm) p) /\
   (forall i, 0 <= i ->
      Z.testbit (CSR_MEDELEG_MASK E) i = false \/ (rv64 vm = false /\ 32 <= i) ->
      Z.testbit (edeleg (csr (hart_of re)) PRIVILEGE_MACHINE) i
      = Z.testbit (edeleg (csr vm) PRIVILEGE_MACHINE) i)) /\
  (ok ri = true /\
   edeleg (csr (hart_of ri)) = edeleg (csr vm) /\
   (forall p, p <> PRIVILEGE_MACHINE ->
              ideleg (csr (hart_of ri)) p = ideleg (csr vm) p) /\
   (forall i, 0 <= i ->
      Z.testbit (CSR_MIDELEG_MASK E) i = false \/ (rv64 vm = false /\ 32 <= i) ->
      Z.testbit (ideleg (csr (hart_of ri)) PRIVILEGE_MACHINE) i
      = Z.testbit (ideleg (csr vm) PRIVILEGE_MACHINE) i)).
Proof.
  intros Hp re ri.
  destruct (machine_csr_granted E vm CSR_MEDELEG v op eq_refl Hp) as [Hoke Hhe].
  destruct (machine_csr_granted E vm CSR_MIDELEG v op eq_refl Hp) as [Hoki Hhi].
  unfold re, ri. rewrite Hoke, Hhe, Hoki, Hhi.
  cbv beta iota zeta delta [riscv_csr_op_internal csr_masked].
  split.
  - pose proof (masked_outside (rv64 vm) (edeleg (csr vm) PRIVILEGE_MACHINE) v
                  (CSR_MEDELEG_MASK E) op) as Hout.
    destruct (riscv_csr_helper_masked (rv64 vm) (edeleg (csr vm) PRIVILEGE_MACHINE)
                v (CSR_MEDELEG_MASK E) op) as [x d].
    cbn [ok hart_of ret csr with_csr edeleg ideleg csr_set_edeleg fst] in *.
    split; [reflexivity|]. split; [reflexivity|]. split.
    + intros p Hne. unfold store.
      destruct (Nat.eqb_spec p PRIVILEGE_MACHINE); [contradiction|reflexivity].
    + intros i Hi Hm. rewrite store_same. apply Hout; assumption.
  - pose proof (masked_outside (rv64 vm) (ideleg (csr vm) PRIVILEGE_MACHINE) v
                  (CSR_MIDELEG_MASK E) op) as Hout.
    destruct (riscv_csr_helper_masked (rv64 vm) (ideleg (csr vm) PRIVILEGE_MACHINE)
                v (CSR_MIDELEG_MASK E) op) as [x d].
    cbn [ok hart_of ret csr with_csr edeleg ideleg csr_set_ideleg fst] in *.
    split; [reflexivity|]. split; [reflexivity|]. split.
    + intros p Hne. unfold store.
      destruct (Nat.eqb_spec p PRIVILEGE_MACHINE); [contradiction|reflexivity].
    + intros i Hi Hm. rewrite store_same. apply Hout; assumption.
Qed.

Lemma delegation_write_respects_mask_witness :
  Z.testbit (edeleg (csr (hart_of (riscv_csr_op env_plain hart_machine
                                     CSR_MEDELEG 0xFFFF CSR_SWAP)))
               PRIVILEGE_MACHINE) 11 = false.
Proof.
  pose proof (delegation_write_respects_mask env_plain hart_machine 0xFFFF
                CSR_SWAP ltac:(vm_compute; congruence)) as H.
  cbv zeta in H. destruct H as [(_ & _ & _ & H) _].
  rewrite (H 11 ltac:(lia) ltac:(left; reflexivity)). reflexivity.
Defined.

(** X15. A CSR id that is not one of the case labels of the dispatch is
    refused: riscv_csr_op returns false and leaves the hart exactly as it
    was, for every operation and operand. *)
Theorem unimplemented_csr_is_refused (E : csr_env) (vm : hart) (c v : Z)
    (op : csr_op_kind) :
  implemented c = false ->
  ok (riscv_csr_op E vm c v op) = false /\
  hart_of (riscv_csr_op E vm c v op) = vm.
Proof.
  intros Hc. destruct (internal_default E vm c) as [Hi|Hd]; [congruence|].
  unfold riscv_csr_op. rewrite Hd.
  destruct (riscv_csr_readonly c && _); [split; reflexivity|].
  destruct (riscv_csr_privilege c >? priv_mode vm); [split; reflexivity|].
  cbn [hart_of ret ok]. destruct (negb (rv64 vm)); split; reflexivity.
Qed.

Lemma unimplemented_csr_is_refused_witness :
  ok (riscv_csr_op env_plain hart_machine 0x7C0 5 CSR_SWAP) = false
  /\ hart_of (riscv_csr_op env_plain hart_machine 0x7C0 5 CSR_SWAP)
     = hart_machine.
Proof.
  exact (unimplemented_csr_is_refused env_plain hart_machine 0x7C0 5 CSR_SWAP
           eq_refl).
Defined.

Lemma helper_l_high (c d m : Z) (op : csr_op_kind) (i : Z) :
  32 <= i ->
  Z.testbit (fst (riscv_csr_helper_l false c d m op)) i = Z.testbit c i.
Proof.
  intros Hi. unfold riscv_csr_helper_l.
  destruct (riscv_csr_helper_masked false c d m op) as [tmp d'].
  cbn [fst]. unfold bit_replace, replace_bits.
  assert (0 <= i) by lia. Z.bitblast_core.
Qed.

Lemma helper_h_low (c d m : Z) (op : csr_op_kind) (i : Z) :
  0 <= i < 32 ->
  exists x d', riscv_csr_helper_h false c d m op = Some (x, d')
               /\ Z.testbit x i = Z.testbit c i.
Proof.
  intros Hi. unfold riscv_csr_helper_h. cbn [negb].
  destruct (riscv_csr_helper_masked false (Z.shiftr c 32) d (Z.shiftr m 32) op)
    as [tmp d'].
  exists (bit_replace c 32 32 tmp), d'. split; [reflexivity|].
  unfold bit_replace, replace_bits.
  assert (0 <= i) by lia. Z.bitblast_core.
Qed.

(** X16. The split configuration CSRs on an RV32 hart: an operation on
    menvcfg or mseccfg leaves bits 32..63 of the 64-bit word as they were,
    and an operation on menvcfgh or mseccfgh succeeds and leaves bits 0..31
    as they were.  On an RV64 hart menvcfgh and mseccfgh do not exist: the
    operation fails and the hart is unchanged. *)
Theorem config_halves (E : csr_env) (vm : hart) (v : Z) (op : csr_op_kind) :
  3 <= priv_mode vm ->
  (rv64 vm = false ->
   (forall i, 32 <= i ->
      Z.testbit (envcfg (csr (hart_of (riscv_csr_op E vm CSR_MENVCFG v op)))
                   PRIVILEGE_MACHINE) i
      = Z.testbit (envcfg (csr vm) PRIVILEGE_MACHINE) i) /\
   (forall i, 32 <= i ->
      Z.testbit (mseccfg (csr (hart_of (riscv_csr_op E vm CSR_MSECCFG v op)))) i
      = Z.testbit (mseccfg (csr vm)) i) /\
   ok (riscv_csr_op E vm CSR_MENVCFGH v op) = true /\
   (forall i, 0 <= i < 32 ->
      Z.testbit (envcfg (csr (hart_of (riscv_csr_op E vm CSR_MENVCFGH v op)))
                   PRIVILEGE_MACHINE) i
      = Z.testbit (envcfg (csr vm) PRIVILEGE_MACHINE) i) /\
   ok (riscv_csr_op E vm CSR_MSECCFGH v op) = true /\
   (forall i, 0 <= i < 32 ->
      Z.testbit (mseccfg (csr (hart_of (riscv_csr_op E vm CSR_MSECCFGH v op)))) i
      = Z.testbit (mseccfg (csr vm)) i)) /\
  (rv64 vm = true ->
   ok (riscv_csr_op E vm CSR_MENVCFGH v op) = false /\
   hart_of (riscv_csr_op E vm CSR_MENVCFGH v op) = vm /\
   ok (riscv_csr_op E vm CSR_MSECCFGH v op) = false /\
   hart_of (riscv_csr_op E vm CSR_MSECCFGH v op) = vm).
Proof.
  intros Hp.
  destruct (machine_csr_granted E vm CSR_MENVCFG v op eq_refl Hp) as [_ H1].
  destruct (machine_csr_granted E vm CSR_MSECCFG v op eq_refl Hp) as [_ H2].
  destruct (machine_csr_granted E vm CSR_MENVCFGH v op eq_refl Hp) as [H3o H3].
  destruct (machine_csr_granted E vm CSR_MSECCFGH v op eq_refl Hp) as [H4o H4].
  rewrite H1, H2, H3, H4, H3o, H4o. clear H1 H2 H3 H4 H3o H4o.
  cbv beta iota zeta delta [riscv_csr_op_internal csr_envcfg_l csr_envcfg_h
                            csr_mseccfg_l csr_mseccfg_h].
  split; intros H64; rewrite H64.
  - split; [|split; [|split; [|split; [|split]]]].
    + intros i Hi.
      pose proof (helper_l_high (envcfg (csr vm) PRIVILEGE_MACHINE) v
                    (CSR_MENVCFG_MASK E) op i Hi) as Hh.
      destruct (riscv_csr_helper_l false _ _ _ _) as [x d'].
      cbn [hart_of ret csr with_csr envcfg csr_set_envcfg fst] in *.
      rewrite store_same. exact Hh.
    + intros i Hi.
      pose proof (helper_l_high (mseccfg (csr vm)) v
                    (CSR_MSECCFG_MASK E) op i Hi) as Hh.
      destruct (riscv_csr_helper_l false _ _ _ _) as [x d'].
      cbn [hart_of ret csr with_csr mseccfg csr_set_mseccfg fst] in *.
      exact Hh.
    + destruct (helper_h_low (envcfg (csr vm) PRIVILEGE_MACHINE) v
                  (CSR_MENVCFG_MASK E) op 0 ltac:(lia)) as (x & d' & -> & _).
      reflexivity.
    + intros i Hi.
      destruct (helper_h_low (envcfg (csr vm) PRIVILEGE_MACHINE) v
                  (CSR_MENVCFG_MASK E) op i Hi) as (x & d' & -> & Hx).
      cbn [hart_of ret csr with_csr envcfg csr_set_envcfg].
      rewrite store_same. exact Hx.
    + destruct (helper_h_low (mseccfg (csr vm)) v
                  (CSR_MSECCFG_MASK E) op 0 ltac:(lia)) as (x & d' & -> & _).
      reflexivity.
    + intros i Hi.
      destruct (helper_h_low (mseccfg (csr vm)) v
                  (CSR_MSECCFG_MASK E) op i Hi) as (x & d' & -> & Hx).
      cbn [hart_of ret csr with_csr mseccfg csr_set_mseccfg]. exact Hx.
  - unfold riscv_csr_helper_h. cbn [negb ok hart_of ret]. repeat split.
Qed.

Lemma config_halves_witness :
  ok (riscv_csr_op env_plain hart_machine CSR_MENVCFGH 1 CSR_SETBITS) = false
  /\ hart_of (riscv_csr_op env_plain hart_machine CSR_MENVCFGH 1 CSR_SETBITS)
     = hart_machine.
Proof.
  destruct (proj2 (config_halves env_plain hart_machine 1 CSR_SETBITS
                     ltac:(vm_compute; congruence)) eq_refl)
    as (H1 & H2 & _).
  split; [exact H1|exact H2].
Defined.

Lemma wrap64_id (x : Z) : 0 <= x < 2 ^ 64 -> wrap64 x = x.
Proof. intros H. unfold wrap64. apply Z.mod_small. exact H. Qed.

Lemma wrap64_shift_small (m n : Z) :
  0 <= n -> 0 <= m -> m * 2 ^ n < 2 ^ 64 ->
  wrap64 (Z.shiftl m n) = Z.shiftl m n.
Proof.
  intros Hn Hm Hb. unfold wrap64. rewrite Z.shiftl_mul_pow2 by lia.
  apply Z.mod_small. split; [|exact Hb]. apply Z.mul_nonneg_nonneg; lia.
Qed.

Lemma satp_op_result (E : csr_env) (vm : hart) (v : Z) (op : csr_op_kind) :
  env_keeps_hart E ->
  Z.testbit (status (csr vm)) 20 = false ->
  1 <= priv_mode vm ->
  let satp0 :=
    Z.lor (wrap64 (Z.shiftl (mmu_mode vm) (if rv64 vm then 60 else 31)))
          (Z.shiftr (root_page_table vm) MMU_PAGE_SHIFT) in
  let satp := fst (riscv_csr_helper (rv64 vm) satp0 v op) in
  let r := riscv_csr_op E vm CSR_SATP v op in
  ok r = true /\
  dest_of r = (if rv64 vm then satp0 else sext32 (Z.land satp0 0xFFFFFFFF)) /\
  mmu_mode (hart_of r) =
    (if rv64 vm then satp_mode64 E (bit_cut satp 60 4) else bit_cut satp 31 1) /\
  root_page_table (hart_of r) =
    wrap64 (Z.shiftl (Z.land satp (bit_mask (if rv64 vm then 44 else 22)))
                     MMU_PAGE_SHIFT) /\
  csr (hart_of r) = csr vm /\ rv64 (hart_of r) = rv64 vm /\
  priv_mode (hart_of r) = priv_mode vm.
Proof.
  intros [_ Hfl] Htvm Hp satp0 satp r.
  assert (Hg : riscv_csr_op E vm CSR_SATP v op =
               let r0 := riscv_csr_op_internal E vm CSR_SATP v op in
               if negb (rv64 (hart_of r0))
               then ret (ok r0) (hart_of r0) (sext32 (dest_of r0)) else r0)
    by (apply csr_op_granted; [reflexivity|exact Hp]).
  assert (Hint : let r0 := riscv_csr_op_internal E vm CSR_SATP v op in
            ok r0 = true /\
            dest_of r0 = (if rv64 vm then satp0 else Z.land satp0 0xFFFFFFFF) /\
            mmu_mode (hart_of r0) =
              (if rv64 vm then satp_mode64 E (bit_cut satp 60 4)
               else bit_cut satp 31 1) /\
            root_page_table (hart_of r0) =
              wrap64 (Z.shiftl (Z.land satp (bit_mask (if rv64 vm then 44 else 22)))
                               MMU_PAGE_SHIFT) /\
            csr (hart_of r0) = csr vm /\ rv64 (hart_of r0) = rv64 vm /\
            priv_mode (hart_of r0) = priv_mode vm).
  { cbv beta iota zeta delta [riscv_csr_op_internal riscv_csr_satp].
    rewrite tvm_test, Htvm. cbn [negb].
    pose proof (helper_snd (rv64 vm) satp0 v op) as Hsnd.
    unfold satp, satp0 in *. clear satp satp0 r Hg.
    destruct (rv64 vm) eqn:H64;
      destruct (riscv_csr_helper _ _ v op) as [x d]; cbn [fst snd] in *;
      subst d;
      match goal with
      | |- context [if ?c then ret true (riscv_tlb_flush E ?h) _ else _] =>
          destruct (Hfl h) as (F1 & F2 & F3 & F4 & F5); destruct c;
          cbn [ok dest_of hart_of ret]; rewrite ?F1, ?F2, ?F3, ?F4, ?F5;
          cbn [with_mmu mmu_mode root_page_table csr rv64 priv_mode];
          rewrite ?H64; repeat split
      end. }
  cbv zeta in Hint, Hg. destruct Hint as (I1 & I2 & I3 & I4 & I5 & I6 & I7).
  unfold r. rewrite Hg, I6.
  destruct (rv64 vm); cbn [negb ok dest_of hart_of ret];
    rewrite ?I1, ?I2, ?I3, ?I4, ?I5, ?I7; repeat split; exact I6.
Qed.

Lemma shiftl12_range (x n : Z) :
  0 <= n ->
  0 <= Z.shiftl (Z.land x (Z.ones n)) 12 < 2 ^ (n + 12)
  /\ Z.shiftl (Z.land x (Z.ones n)) 12 mod 4096 = 0.
Proof.
  intros Hn. rewrite Z.shiftl_mul_pow2 by lia. rewrite Z.land_ones by lia.
  pose proof (Z.mod_pos_bound x (2 ^ n) ltac:(lia)) as Hb.
  rewrite Z.pow_add_r by lia. change (2 ^ 12) with 4096.
  split; [nia|]. apply Z.mod_mul. lia.
Qed.

(** X17. After a successful write to satp the translation state of the
    hart is well formed: the root of the page table is a multiple of 4096,
    below 2^56 on RV64 and below 2^34 on RV32; on RV64 the mode is BARE,
    Sv39, Sv48 or Sv57, with Sv48 and Sv57 only when the corresponding
    command-line switch is given (any other mode written selects BARE); on
    RV32 the mode is 0 or 1.  (The TLB flush routine is assumed to keep
    the translation fields and the CSR file.) *)
Theorem satp_write_well_formed (E : csr_env) (vm : hart) (v : Z)
    (op : csr_op_kind) :
  env_keeps_hart E ->
  Z.testbit (status (csr vm)) 20 = false ->
  1 <= priv_mode vm ->
  let vm' := hart_of (riscv_csr_op E vm CSR_SATP v op) in
  ok (riscv_csr_op E vm CSR_SATP v op) = true /\
  root_page_table vm' mod 4096 = 0 /\
  (rv64 vm = true ->
   0 <= root_page_table vm' < 2 ^ 56 /\
   (mmu_mode vm' = CSR_SATP_MODE_PHYS \/ mmu_mode vm' = CSR_SATP_MODE_SV39 \/
    (mmu_mode vm' = CSR_SATP_MODE_SV48 /\ rvvm_has_arg E "sv48" = true) \/
    (mmu_mode vm' = CSR_SATP_MODE_SV57 /\ rvvm_has_arg E "sv57" = true))) /\
  (rv64 vm = false ->
   0 <= root_page_table vm' < 2 ^ 34 /\
   (mmu_mode vm' = 0 \/ mmu_mode vm' = 1)).
Proof.
  intros HE Htvm Hp vm'.
  destruct (satp_op_result E vm v op HE Htvm Hp) as (Hok & _ & Hm & Hr & _).
  cbv zeta in Hm, Hr. fold vm' in Hm, Hr.
  set (satp := fst (riscv_csr_helper (rv64 vm) _ v op)) in *.
  unfold bit_mask, MMU_PAGE_SHIFT in Hr.
  split; [exact Hok|]. split; [|split].
  - rewrite Hr.
    destruct (shiftl12_range satp (if rv64 vm then 44 else 22)
                ltac:(destruct (rv64 vm); lia)) as [Hb Hmod].
    rewrite wrap64_id; [exact Hmod|].
    destruct (rv64 vm);
      [change (2 ^ (44 + 12)) with (2 ^ 56) in Hb
      |change (2 ^ (22 + 12)) with (2 ^ 34) in Hb]; lia.
  - intros H64. rewrite H64 in Hm, Hr. split.
    + rewrite Hr. destruct (shiftl12_range satp 44 ltac:(lia)) as [Hb _].
      change (2 ^ (44 + 12)) with (2 ^ 56) in Hb.
      rewrite wrap64_id; lia.
    + rewrite Hm. unfold satp_mode64, bit_cut, CSR_SATP_MODE_PHYS,
        CSR_SATP_MODE_SV39, CSR_SATP_MODE_SV48, CSR_SATP_MODE_SV57.
      set (m := cut_bits satp 60 4).
      destruct (Z.ltb_spec m 8); cbn [orb]; [left; reflexivity|].
      destruct (Z.gtb_spec m 10); cbn [orb]; [left; reflexivity|].
      destruct (Z.eqb_spec m 9) as [H9|H9]; cbn [andb orb].
      * destruct (rvvm_has_arg E "sv48"); cbn [negb orb];
          [|left; reflexivity].
        destruct (Z.eqb_spec m 10); [lia|]. cbn [andb].
        right; right; left. split; [exact H9|reflexivity].
      * destruct (Z.eqb_spec m 10) as [H10|H10]; cbn [andb orb].
        -- destruct (rvvm_has_arg E "sv57"); cbn [negb];
             [|left; reflexivity].
           right; right; right. split; [exact H10|reflexivity].
        -- right; left. lia.
  - intros H64. rewrite H64 in Hm, Hr. split.
    + rewrite Hr. destruct (shiftl12_range satp 22 ltac:(lia)) as [Hb _].
      change (2 ^ (22 + 12)) with (2 ^ 34) in Hb.
      rewrite wrap64_id; lia.
    + rewrite Hm. pose proof (cut_bits_range satp 31 1 ltac:(lia)) as Hb.
      unfold bit_cut. change (2 ^ 1) with 2 in Hb. lia.
Qed.

Lemma env_plain_keeps_hart : env_keeps_hart env_plain.
Proof. split; intros vm; repeat split. Qed.

Lemma satp_write_well_formed_witness :
  mmu_mode (hart_of (riscv_csr_op env_plain hart_supervisor CSR_SATP
                       (9 * 2 ^ 60 + 0x80000) CSR_SWAP)) = CSR_SATP_MODE_PHYS.
Proof.
  destruct (satp_write_well_formed env_plain hart_supervisor
              (9 * 2 ^ 60 + 0x80000) CSR_SWAP env_plain_keeps_hart eq_refl
              ltac:(vm_compute; congruence)) as (_ & _ & H & _).
  destruct (H eq_refl) as [_ [Hm|[Hm|[[_ Hm]|[_ Hm]]]]];
    [exact Hm | vm_compute in Hm; discriminate Hm
     | discriminate Hm | discriminate Hm].
Defined.

Lemma helper32_swap_low (c v : Z) :
  bit_cut (fst (riscv_csr_helper false c v CSR_SWAP)) 31 1 = bit_cut v 31 1 /\
  Z.land (fst (riscv_csr_helper false c v CSR_SWAP)) (Z.ones 22)
  = Z.land v (Z.ones 22).
Proof.
  unfold riscv_csr_helper, riscv_csr_helper_masked, maxlen_max, bit_cut, cut_bits.
  cbn [fst]. change 0xFFFFFFFF with (Z.ones 32).
  change (2 ^ 64 - 1) with (Z.ones 64). split; Z.bitblast.
Qed.

(** X18. Write then read of satp on an RV64 hart: after a CSRRW of v, a
    plain read returns the page number written (the low 44 bits of v) under
    the mode that was kept (the mode field of v, or BARE if that mode is
    not supported); the ASID field, bits 44..59, reads as zero.  On an
    RV32 hart the read returns the sign extension of bit 31 and bits 0..21
    of v, the ASID field 22..30 reading as zero. *)
Theorem satp_write_then_read (E : csr_env) (vm : hart) (v : Z) :
  env_keeps_hart E ->
  Z.testbit (status (csr vm)) 20 = false ->
  1 <= priv_mode vm ->
  let vm' := hart_of (riscv_csr_op E vm CSR_SATP v CSR_SWAP) in
  ok (csr_read E vm' CSR_SATP) = true /\
  dest_of (csr_read E vm' CSR_SATP) =
    if rv64 vm
    then Z.lor (Z.shiftl (satp_mode64 E (bit_cut v 60 4)) 60)
               (Z.land v (Z.ones 44))
    else sext32 (Z.lor (Z.shiftl (bit_cut v 31 1) 31) (Z.land v (Z.ones 22))).
Proof.
  intros HE Htvm Hp vm'.
  destruct (satp_op_result E vm v CSR_SWAP HE Htvm Hp)
    as (_ & _ & Hm & Hr & Hc & H64 & Hpm).
  cbv zeta in Hm, Hr. fold vm' in Hm, Hr, Hc, H64, Hpm.
  assert (Htvm' : Z.testbit (status (csr vm')) 20 = false) by (rewrite Hc; exact Htvm).
  assert (Hp' : 1 <= priv_mode vm') by (rewrite Hpm; exact Hp).
  destruct (satp_op_result E vm' 0 CSR_SETBITS HE Htvm' Hp') as (Hok & Hd & _).
  cbv zeta in Hd. unfold csr_read. split; [exact Hok|]. rewrite Hd, H64.
  unfold MMU_PAGE_SHIFT, bit_mask in *.
  destruct (rv64 vm) eqn:Hx.
  - rewrite Hm, Hr. unfold riscv_csr_helper. cbn [fst].
    assert (Hmode : 0 <= satp_mode64 E (bit_cut v 60 4) < 16).
    { unfold satp_mode64, bit_cut, CSR_SATP_MODE_PHYS.
      pose proof (cut_bits_range v 60 4 ltac:(lia)) as Hb.
      change (2 ^ 4) with 16 in Hb. destruct (_ || _); lia. }
    destruct (shiftl12_range v 44 ltac:(lia)) as [Hb _].
    change (2 ^ (44 + 12)) with (2 ^ 56) in Hb.
    rewrite (wrap64_shift_small _ 60) by lia.
    rewrite (wrap64_id (Z.shiftl (Z.land v (Z.ones 44)) 12)) by lia.
    rewrite Z.shiftr_shiftl_l by lia. reflexivity.
  - rewrite Hm, Hr. f_equal.
    destruct (helper32_swap_low
                (Z.lor (wrap64 (Z.shiftl (mmu_mode vm) 31))
                       (Z.shiftr (root_page_table vm) 12)) v) as [Hbit Hlow].
    rewrite Hbit, Hlow.
    destruct (shiftl12_range v 22 ltac:(lia)) as [Hb _].
    change (2 ^ (22 + 12)) with (2 ^ 34) in Hb.
    pose proof (cut_bits_range v 31 1 ltac:(lia)) as Hb1.
    change (2 ^ 1) with 2 in Hb1. unfold bit_cut in *.
    rewrite (wrap64_shift_small _ 31) by lia.
    rewrite (wrap64_id (Z.shiftl (Z.land v (Z.ones 22)) 12)) by lia.
    rewrite Z.shiftr_shiftl_l by lia.
    change (Z.shiftl (Z.land v (Z.ones 22)) (12 - 12))
      with (Z.land v (Z.ones 22)).
    change 0xFFFFFFFF with (Z.ones 32). unfold cut_bits. Z.bitblast.
Qed.

Lemma satp_write_then_read_witness :
  dest_of (csr_read env_plain
             (hart_of (riscv_csr_op env_plain hart_supervisor CSR_SATP
                         (8 * 2 ^ 60 + 5 * 2 ^ 44 + 0x80000) CSR_SWAP))
             CSR_SATP) = 8 * 2 ^ 60 + 0x80000.
Proof.
  rewrite (proj2 (satp_write_then_read env_plain hart_supervisor
                    (8 * 2 ^ 60 + 5 * 2 ^ 44 + 0x80000) env_plain_keeps_hart
                    eq_refl ltac:(vm_compute; congruence))).
  reflexivity.
Defined.

Lemma fpu_exceptions_range (f : host_fenv) : 0 <= fpu_get_exceptions f < 32.
Proof.
  unfold fpu_get_exceptions.
  destruct (fe_inexact f), (fe_underflow f), (fe_overflow f),
    (fe_divbyzero f), (fe_invalid f); vm_compute; split; congruence.
Qed.

Lemma fpu_exceptions_cleared (f : host_fenv) :
  fpu_get_exceptions (feclearexcept_all f) = 0.
Proof. reflexivity. Qed.

Lemma fpu_set_rm_exceptions (f : host_fenv) (rm : Z) :
  fpu_get_exceptions (fpu_set_rm f rm) = fpu_get_exceptions f.
Proof.
  unfold fpu_set_rm.
  destruct rm as [|p|p]; try reflexivity;
    do 3 (destruct p as [p|p|]; try reflexivity).
Qed.

Lemma fpu_set_rm_round (f : host_fenv) (rm : Z) :
  fe_round (fpu_set_rm f rm) = default (fe_round f) (host_round_of rm).
Proof.
  unfold fpu_set_rm, host_round_of, RM_RNE, RM_RTZ, RM_RDN, RM_RUP, RM_RMM.
  destruct rm as [|p|p]; try reflexivity;
    do 3 (destruct p as [p|p|]; try reflexivity).
Qed.

Lemma sext32_small (x : Z) : 0 <= x < 2 ^ 31 -> sext32 x = x.
Proof.
  intros H. unfold sext32. rewrite Z.mod_small by lia.
  destruct (Z.ltb_spec x (2 ^ 31)); [reflexivity|lia].
Qed.

Lemma user_csr_granted (E : csr_env) (vm : hart) (c v : Z) (op : csr_op_kind) :
  riscv_csr_readonly c = false -> riscv_csr_privilege c <= priv_mode vm ->
  riscv_csr_op E vm c v op =
    let r := riscv_csr_op_internal E vm c v op in
    if negb (rv64 (hart_of r)) then ret (ok r) (hart_of r) (sext32 (dest_of r))
    else r.
Proof. intros Hro Hp. apply csr_op_granted; [rewrite Hro; reflexivity|exact Hp]. Qed.

Lemma frm_cell (is64 : bool) (f v : Z) :
  bit_replace f 5 3
    (fst (riscv_csr_helper_masked is64 (Z.shiftr f 5) v 0x7 CSR_SWAP))
  = bit_replace f 5 3 (Z.land v 7).
Proof.
  unfold riscv_csr_helper_masked, bit_replace, replace_bits. cbn [fst].
  replace (if is64 then 7 else Z.land 7 0xFFFFFFFF) with (Z.ones 3)
    by (destruct is64; reflexivity).
  change 7 with (Z.ones 3). Z.bitblast.
Qed.

Lemma set_fcsr_fields (vm : hart) (f : Z) :
  fcsr (csr (riscv_csr_set_fcsr vm f)) = f /\
  (f = fcsr (csr vm) -> riscv_csr_set_fcsr vm f = vm) /\
  (f <> fcsr (csr vm) ->
   fenv (riscv_csr_set_fcsr vm f) =
     let f1 := if negb (Z.land (Z.lnot (bit_cut f 0 5))
                               (fpu_get_exceptions (fenv vm)) =? 0)
               then feclearexcept_all (fenv vm) else fenv vm in
     if negb (bit_cut f 5 3 =? bit_cut (fcsr (csr vm)) 5 3)
     then fpu_set_rm f1 (bit_cut f 5 3) else f1).
Proof.
  unfold riscv_csr_set_fcsr.
  destruct (Z.eqb_spec f (fcsr (csr vm))) as [->|Hne]; cbn [negb].
  - repeat split. intros H. contradiction.
  - split; [reflexivity|]. split; [intros H; contradiction|]. reflexivity.
Qed.

(** X19. A CSRRW of v to frm on a hart with the FPU enabled succeeds,
    stores v & 7 in the rounding-mode field of fcsr (bits 5..7) and keeps
    the accrued flags (bits 0..4).  If v & 7 is the rounding mode already
    in fcsr the hart is left exactly as it was; otherwise the host rounding
    direction becomes to-nearest for RNE and RMM, toward-zero for RTZ,
    downward for RDN, upward for RUP, and stays what it was for the
    reserved encodings 5, 6 and 7. *)
Theorem frm_write_selects_host_rounding (E : csr_env) (vm : hart) (v : Z) :
  USE_FPU E = true -> fpu_is_enabled E vm = true -> 0 <= priv_mode vm ->
  let r := riscv_csr_op E vm CSR_FRM v CSR_SWAP in
  let vm' := hart_of r in
  let old := bit_cut (fcsr (csr vm)) 5 3 in
  ok r = true /\
  bit_cut (fcsr (csr vm')) 5 3 = Z.land v 7 /\
  bit_cut (fcsr (csr vm')) 0 5 = bit_cut (fcsr (csr vm)) 0 5 /\
  (Z.land v 7 = old -> vm' = vm) /\
  (Z.land v 7 <> old ->
   fe_round (fenv vm') =
     default (fe_round (fenv vm)) (host_round_of (Z.land v 7))).
Proof.
  intros Hfpu Hen Hp r vm' old.
  assert (Hr : ok r = true /\
               vm' = riscv_csr_set_fcsr vm
                       (bit_replace (fcsr (csr vm)) 5 3 (Z.land v 7))).
  { unfold vm', r. rewrite user_csr_granted by (try reflexivity; exact Hp).
    cbv beta iota zeta delta [riscv_csr_op_internal riscv_csr_frm].
    rewrite Hfpu, Hen. cbn [negb].
    pose proof (frm_cell (rv64 vm) (fcsr (csr vm)) v) as Hcell.
    destruct (riscv_csr_helper_masked (rv64 vm) (Z.shiftr (fcsr (csr vm)) 5) v
                0x7 CSR_SWAP) as [x d].
    cbn [fst] in Hcell. rewrite Hcell. cbn [hart_of ret ok].
    destruct (negb _); cbn [hart_of ret ok]; split; reflexivity. }
  destruct Hr as [Hok Hvm']. split; [exact Hok|].
  set (f := bit_replace (fcsr (csr vm)) 5 3 (Z.land v 7)) in *.
  destruct (set_fcsr_fields vm f) as (Hf & Hsame & Hdiff).
  assert (Hfrm : bit_cut f 5 3 = Z.land v 7).
  { unfold f, bit_cut, bit_replace. rewrite cut_replace_same by lia.
    change 7 with (Z.ones 3). rewrite <- Z.land_assoc, Z.land_diag. reflexivity. }
  assert (Hfl : bit_cut f 0 5 = bit_cut (fcsr (csr vm)) 0 5).
  { unfold f, bit_cut, bit_replace. apply cut_replace_other; lia. }
  rewrite Hvm', Hf. split; [exact Hfrm|]. split; [exact Hfl|]. split.
  - intros Heq. apply Hsame. unfold f, bit_replace. rewrite Heq.
    apply replace_cut_id; lia.
  - intros Hne.
    assert (Hfne : f <> fcsr (csr vm)).
    { intros Heq. apply Hne. rewrite <- Hfrm, Heq. reflexivity. }
    rewrite (Hdiff Hfne). cbv zeta. rewrite Hfrm.
    destruct (Z.eqb_spec (Z.land v 7) (bit_cut (fcsr (csr vm)) 5 3));
      [contradiction|].
    cbn [negb]. rewrite fpu_set_rm_round.
    destruct (negb _); reflexivity.
Qed.

Lemma frm_write_selects_host_rounding_witness :
  fe_round (fenv (hart_of (riscv_csr_op env_plain hart_user CSR_FRM 2 CSR_SWAP)))
  = FE_DOWNWARD.
Proof.
  destruct (frm_write_selects_host_rounding env_plain hart_user 2 eq_refl
              eq_refl ltac:(vm_compute; congruence)) as (_ & _ & _ & _ & H).
  rewrite H; [reflexivity|]. vm_compute. congruence.
Defined.

Lemma lor_absorb (f e : Z) :
  Z.land (Z.lnot (bit_cut f 0 5)) e = 0 -> 0 <= e < 32 ->
  Z.land (Z.lor f e) (Z.ones 5) = Z.land f (Z.ones 5).
Proof.
  intros H He. apply Z.bits_inj'. intros i Hi.
  pose proof (f_equal (fun x => Z.testbit x i) H) as Hb. cbv beta in Hb.
  unfold bit_cut, cut_bits in Hb.
  rewrite Z.land_spec, Z.lnot_spec, Z.land_spec, Z.shiftr_spec, Z.bits_0 in Hb
    by lia.
  rewrite Z.add_0_r in Hb.
  rewrite !Z.land_spec, Z.lor_spec.
  destruct (Z.ltb_spec i 5).
  - rewrite Z.ones_spec_low in * by lia.
    destruct (Z.testbit f i), (Z.testbit e i); cbn in *; congruence.
  - rewrite Z.ones_spec_high by lia. rewrite !andb_false_r. reflexivity.
Qed.

Lemma fflags_cell (is64 : bool) (c v : Z) :
  let f := fst (riscv_csr_helper_masked is64 c v 0x1F CSR_SWAP) in
  Z.land f (Z.ones 5) = Z.land v (Z.ones 5) /\
  bit_cut f 5 3 = bit_cut c 5 3 /\
  (f = c <-> Z.land c (Z.ones 5) = Z.land v (Z.ones 5)).
Proof.
  unfold riscv_csr_helper_masked, bit_cut, cut_bits. cbn [fst].
  replace (if is64 then 31 else Z.land 31 0xFFFFFFFF) with (Z.ones 5)
    by (destruct is64; reflexivity).
  split; [Z.bitblast|]. split; [Z.bitblast|]. split.
  - intros H. rewrite <- H at 1. Z.bitblast.
  - intros H.
    replace (Z.land v (Z.ones 5)) with (Z.land c (Z.ones 5)) by exact H.
    Z.bitblast.
Qed.

Lemma fflags_read_value (E : csr_env) (h : hart) :
  USE_FPU E = true -> fpu_is_enabled E h = true -> 0 <= priv_mode h ->
  ok (csr_read E h CSR_FFLAGS) = true /\
  dest_of (csr_read E h CSR_FFLAGS)
  = Z.land (Z.lor (fcsr (csr h)) (fpu_get_exceptions (fenv h))) (Z.ones 5).
Proof.
  intros Hfpu Hen Hp. unfold csr_read.
  rewrite user_csr_granted by (try reflexivity; exact Hp).
  cbv beta iota zeta delta [riscv_csr_op_internal riscv_csr_fflags].
  rewrite Hfpu, Hen. cbn [negb].
  pose proof (masked_snd (rv64 (fcsr_merge_host h)) (fcsr (csr (fcsr_merge_host h)))
                0 0x1F CSR_SETBITS) as Hsnd.
  destruct (riscv_csr_helper_masked _ _ 0 0x1F CSR_SETBITS) as [x d].
  cbn [snd] in Hsnd. subst d. cbn [hart_of ret]. rewrite set_fcsr_xlen.
  replace (if rv64 (fcsr_merge_host h) then 31 else Z.land 31 0xFFFFFFFF)
    with (Z.ones 5) by (destruct (rv64 (fcsr_merge_host h)); reflexivity).
  change (fcsr (csr (fcsr_merge_host h)))
    with (Z.lor (fcsr (csr h)) (fpu_get_exceptions (fenv h))).
  destruct (negb (rv64 (fcsr_merge_host h))); cbn [ok dest_of ret];
    (split; [reflexivity|]); [|reflexivity].
  apply sext32_small.
  rewrite Z.land_ones by lia.
  pose proof (Z.mod_pos_bound (Z.lor (fcsr (csr h)) (fpu_get_exceptions (fenv h)))
                (2 ^ 5) ltac:(lia)). lia.
Qed.

(** X20. Write then read of fflags: when [fpu_is_enabled] holds of the
    hart at the write, the CSRRW of v succeeds; when it also holds of the
    hart the write leaves, the plain read of fflags that follows succeeds
    and returns v & 0x1F, whatever exception flags the host FPU had raised
    before the write.  (Flags the host had raised that are not in v are
    cleared on the host by the write, so they do not come back.)  With
    [fpu_is_enabled] false of the hart the write is refused and the hart is
    left as it was. *)
Theorem fflags_write_then_read (E : csr_env) (vm : hart) (v : Z) :
  USE_FPU E = true -> 0 <= priv_mode vm ->
  let r := riscv_csr_op E vm CSR_FFLAGS v CSR_SWAP in
  (fpu_is_enabled E vm = false -> ok r = false /\ hart_of r = vm) /\
  (fpu_is_enabled E vm = true ->
   ok r = true /\
   (fpu_is_enabled E (hart_of r) = true ->
    ok (csr_read E (hart_of r) CSR_FFLAGS) = true /\
    dest_of (csr_read E (hart_of r) CSR_FFLAGS) = Z.land v 0x1F)).
Proof.
  intros Hfpu Hp r. split.
  { intros Hoff. unfold r.
    rewrite user_csr_granted by (try reflexivity; exact Hp).
    cbv beta iota zeta delta [riscv_csr_op_internal riscv_csr_fflags].
    rewrite Hfpu, Hoff. cbn [negb ret ok hart_of dest_of].
    destruct (negb (rv64 vm)); split; reflexivity. }
  intros Hen.
  set (vm1 := fcsr_merge_host vm).
  set (f := fst (riscv_csr_helper_masked (rv64 vm1) (fcsr (csr vm1)) v 0x1F
                   CSR_SWAP)).
  assert (Hr : ok r = true /\ hart_of r = riscv_csr_set_fcsr vm1 f).
  { unfold r. rewrite user_csr_granted by (try reflexivity; exact Hp).
    cbv beta iota zeta delta [riscv_csr_op_internal riscv_csr_fflags].
    rewrite Hfpu, Hen. cbn [negb]. fold vm1. unfold f.
    destruct (riscv_csr_helper_masked (rv64 vm1) (fcsr (csr vm1)) v 0x1F
                CSR_SWAP) as [x d].
    cbn [fst hart_of ret ok]. destruct (negb _); split; reflexivity. }
  destruct Hr as [Hok Hh]. split; [exact Hok|]. rewrite Hh.
  set (vm' := riscv_csr_set_fcsr vm1 f). intros Hen'.
  assert (Hp' : 0 <= priv_mode vm').
  { unfold vm', riscv_csr_set_fcsr. destruct (negb _); exact Hp. }
  destruct (fflags_read_value E vm' Hfpu Hen' Hp') as [Hok' Hd].
  split; [exact Hok'|]. rewrite Hd. change 0x1F with (Z.ones 5).
  destruct (fflags_cell (rv64 vm1) (fcsr (csr vm1)) v) as (Hlow & Hfrm & Hsame).
  fold f in Hlow, Hfrm, Hsame.
  destruct (set_fcsr_fields vm1 f) as (Hf & Heq & Hne). fold vm' in Hf, Heq, Hne.
  rewrite Hf.
  pose proof (fpu_exceptions_range (fenv vm)) as He.
  destruct (Z.eq_dec f (fcsr (csr vm1))) as [Hc|Hc].
  - rewrite (Heq Hc). change (fenv vm1) with (fenv vm). rewrite <- Hlow, Hc.
    change (fcsr (csr vm1))
      with (Z.lor (fcsr (csr vm)) (fpu_get_exceptions (fenv vm))).
    rewrite <- Z.lor_assoc, Z.lor_diag. reflexivity.
  - rewrite (Hne Hc). cbv zeta. rewrite Hfrm, Z.eqb_refl. cbn [negb].
    change (fenv vm1) with (fenv vm).
    destruct (Z.eqb_spec (Z.land (Z.lnot (bit_cut f 0 5))
                                 (fpu_get_exceptions (fenv vm))) 0) as [Hz|Hz];
      cbn [negb].
    + rewrite (lor_absorb f _ Hz He). exact Hlow.
    + rewrite fpu_exceptions_cleared, Z.lor_0_r. exact Hlow.
Qed.

Lemma fflags_write_then_read_witness :
  fpu_is_enabled env_fs hart_fs_inexact = true
  /\ fpu_get_exceptions (fenv hart_fs_inexact) = 1
  /\ dest_of (csr_read env_fs
                (hart_of (riscv_csr_op env_fs hart_fs_inexact CSR_FFLAGS 0x24
                            CSR_SWAP))
                CSR_FFLAGS) = 4
  /\ fpu_is_enabled env_fs hart_fs_off = false
  /\ ok (riscv_csr_op env_fs hart_fs_off CSR_FFLAGS 0x24 CSR_SWAP) = false.
Proof.
  destruct (fflags_write_then_read env_fs hart_fs_inexact 0x24 eq_refl
              ltac:(vm_compute; congruence)) as [_ Hon].
  destruct (Hon eq_refl) as [_ Hread].
  destruct (Hread eq_refl) as [_ Hd].
  destruct (fflags_write_then_read env_fs hart_fs_off 0x24 eq_refl
              ltac:(vm_compute; congruence)) as [Hoff _].
  destruct (Hoff eq_refl) as [Hno _].
  split; [reflexivity|]. split; [reflexivity|].
  split; [rewrite Hd; reflexivity|]. split; [reflexivity|exact Hno].
Defined.

(** X21. On a hart of which [fpu_is_enabled] holds, a write to frm that
    changes the rounding mode while the host FPU has raised an exception
    flag that fcsr has not accrued yet clears the host flags without
    accruing them: after the write the host has no flag raised and the flag
    field of fcsr is what it was, so the pending flag is lost.  When
    [fpu_is_enabled] also holds of the hart the write leaves, a read of
    fflags there returns the old flag field of fcsr, where a read before
    the write returns it with the pending flags. *)
Theorem frm_write_discards_pending_flags (E : csr_env) (vm : hart) (v : Z) :
  USE_FPU E = true -> fpu_is_enabled E vm = true ->
  0 <= priv_mode vm ->
  Z.land v 7 <> bit_cut (fcsr (csr vm)) 5 3 ->
  Z.land (Z.lnot (bit_cut (fcsr (csr vm)) 0 5)) (fpu_get_exceptions (fenv vm)) <> 0 ->
  let vm' := hart_of (riscv_csr_op E vm CSR_FRM v CSR_SWAP) in
  ok (riscv_csr_op E vm CSR_FRM v CSR_SWAP) = true /\
  fpu_get_exceptions (fenv vm') = 0 /\
  bit_cut (fcsr (csr vm')) 0 5 = bit_cut (fcsr (csr vm)) 0 5 /\
  dest_of (csr_read E vm CSR_FFLAGS)
  = Z.land (Z.lor (fcsr (csr vm)) (fpu_get_exceptions (fenv vm))) 0x1F /\
  (fpu_is_enabled E vm' = true ->
   ok (csr_read E vm' CSR_FFLAGS) = true /\
   dest_of (csr_read E vm' CSR_FFLAGS) = bit_cut (fcsr (csr vm)) 0 5 /\
   dest_of (csr_read E vm CSR_FFLAGS) <> dest_of (csr_read E vm' CSR_FFLAGS)).
Proof.
  intros Hfpu Hen Hp Hrm Hpend vm'.
  assert (Hokw : ok (riscv_csr_op E vm CSR_FRM v CSR_SWAP) = true).
  { rewrite user_csr_granted by (try reflexivity; exact Hp).
    cbv beta iota zeta delta [riscv_csr_op_internal riscv_csr_frm].
    rewrite Hfpu, Hen. cbn [negb].
    destruct (riscv_csr_helper_masked (rv64 vm) (Z.shiftr (fcsr (csr vm)) 5) v
                0x7 CSR_SWAP) as [x d].
    cbn [hart_of ret ok]. destruct (negb _); reflexivity. }
  assert (Hvm' : vm' = riscv_csr_set_fcsr vm
                         (bit_replace (fcsr (csr vm)) 5 3 (Z.land v 7))).
  { unfold vm'. rewrite user_csr_granted by (try reflexivity; exact Hp).
    cbv beta iota zeta delta [riscv_csr_op_internal riscv_csr_frm].
    rewrite Hfpu, Hen. cbn [negb].
    pose proof (frm_cell (rv64 vm) (fcsr (csr vm)) v) as Hcell.
    destruct (riscv_csr_helper_masked (rv64 vm) (Z.shiftr (fcsr (csr vm)) 5) v
                0x7 CSR_SWAP) as [x d].
    cbn [fst] in Hcell. rewrite Hcell. cbn [hart_of ret ok].
    destruct (negb _); reflexivity. }
  set (f := bit_replace (fcsr (csr vm)) 5 3 (Z.land v 7)) in *.
  assert (Hfrm : bit_cut f 5 3 = Z.land v 7).
  { unfold f, bit_cut, bit_replace. rewrite cut_replace_same by lia.
    change 7 with (Z.ones 3). rewrite <- Z.land_assoc, Z.land_diag. reflexivity. }
  assert (Hfl : bit_cut f 0 5 = bit_cut (fcsr (csr vm)) 0 5).
  { unfold f, bit_cut, bit_replace. apply cut_replace_other; lia. }
  assert (Hfne : f <> fcsr (csr vm)).
  { intros Heq. apply Hrm. rewrite <- Hfrm, Heq. reflexivity. }
  destruct (set_fcsr_fields vm f) as (Hf & _ & Hdiff).
  rewrite <- Hvm' in Hf, Hdiff. specialize (Hdiff Hfne). cbv zeta in Hdiff.
  rewrite Hfl, Hfrm in Hdiff.
  destruct (Z.eqb_spec (Z.land (Z.lnot (bit_cut (fcsr (csr vm)) 0 5))
                               (fpu_get_exceptions (fenv vm))) 0) as [Hz|_];
    [contradiction|].
  destruct (Z.eqb_spec (Z.land v 7) (bit_cut (fcsr (csr vm)) 5 3));
    [contradiction|].
  cbn [negb] in Hdiff.
  assert (Hexc : fpu_get_exceptions (fenv vm') = 0).
  { rewrite Hdiff, fpu_set_rm_exceptions. reflexivity. }
  assert (Hp' : 0 <= priv_mode vm').
  { rewrite Hvm'. unfold riscv_csr_set_fcsr. destruct (negb _); exact Hp. }
  destruct (fflags_read_value E vm Hfpu Hen Hp) as [_ Hd].
  assert (Hcut : forall x, Z.land x (Z.ones 5) = bit_cut x 0 5).
  { intros x. unfold bit_cut, cut_bits. rewrite Z.shiftr_0_r. reflexivity. }
  split; [exact Hokw|]. split; [exact Hexc|].
  split; [rewrite Hf; exact Hfl|].
  split; [rewrite Hd; reflexivity|].
  intros Hen'.
  destruct (fflags_read_value E vm' Hfpu Hen' Hp') as [Hok' Hd'].
  split; [exact Hok'|].
  rewrite Hd', Hd, Hexc, Hf, Z.lor_0_r.
  rewrite !Hcut, Hfl.
  split; [reflexivity|].
  intros Heq. apply Hpend.
  rewrite <- Heq. unfold bit_cut, cut_bits. rewrite Z.shiftr_0_r.
  pose proof (fpu_exceptions_range (fenv vm)) as He.
  set (e := fpu_get_exceptions (fenv vm)) in *.
  replace e with (Z.land e (Z.ones 5))
    by (rewrite Z.land_ones by lia; apply Z.mod_small; lia).
  Z.bitblast.
Qed.

Lemma frm_write_discards_pending_flags_witness :
  fpu_is_enabled env_fs hart_fs_inexact = true
  /\ dest_of (csr_read env_fs hart_fs_inexact CSR_FFLAGS) = 1
  /\ dest_of (csr_read env_fs
                (hart_of (riscv_csr_op env_fs hart_fs_inexact CSR_FRM 1 CSR_SWAP))
                CSR_FFLAGS) = 0.
Proof.
  destruct (frm_write_discards_pending_flags env_fs hart_fs_inexact 1 eq_refl
              eq_refl ltac:(vm_compute; congruence)
              ltac:(vm_compute; congruence) ltac:(vm_compute; congruence))
    as (_ & _ & _ & H2 & H1).
  destruct (H1 eq_refl) as (_ & H3 & _).
  split; [reflexivity|].
  split; [rewrite H2; reflexivity|rewrite H3; reflexivity].
Defined.

End CsrWriteFacts.

(** * src/rvjit/rvjit.c: the code cache as its users see it *)

Module RvjitCacheFacts.
Import Rvjit RvjitSamples RvjitFacts.

Section Cache.

Context {emit_t : Type}.
Implicit Types b : rvjit_block emit_t.

(** A lookup on a page whose dirty bit is clear is a plain read of the
    block registry. *)
Lemma lookup_clean b (a : Z) :
  dirty b a = false ->
  rvjit_block_lookup b a = (hashmap_get (blocks (heap b)) a, b).
Proof.
  unfold dirty, page_flag, rvjit_block_lookup, rvjit_page_needs_flush.
  intros H. destruct (dirty_pages (heap b)); [|reflexivity].
  rewrite H. reflexivity.
Qed.

Lemma memcpy_heap_lookup (src : list Z) (bytes : gmap Z Z) (dest a : Z) :
  memcpy_heap bytes dest src !! a =
    if decide (dest <= a < dest + Z.of_nat (length src))
    then src !! Z.to_nat (a - dest) else bytes !! a.
Proof.
  revert bytes dest. induction src as [|x rest IH]; intros bytes dest.
  - cbn [memcpy_heap length]. rewrite decide_False by lia. reflexivity.
  - cbn [memcpy_heap length]. rewrite IH.
    destruct (decide (dest + 1 <= a < dest + 1 + Z.of_nat (length rest))) as [Hin|Hout].
    + rewrite decide_True by lia.
      replace (Z.to_nat (a - dest)) with (S (Z.to_nat (a - (dest + 1)))) by lia.
      reflexivity.
    + destruct (decide (a = dest)) as [->|Hne].
      * rewrite decide_True by lia. rewrite lookup_insert_eq.
        replace (Z.to_nat (dest - dest)) with 0%nat by lia. reflexivity.
      * rewrite decide_False by lia. apply lookup_insert_ne. congruence.
Qed.

(** The heap a successful [rvjit_block_finalize] leaves, field by field. *)
Lemma finalize_heap b :
  heap_curr (heap b) + size _ b <= heap_size (heap b) ->
  let h := heap b in
  let r := rvjit_block_finalize b in
  let h' := heap (snd r) in
  fst r = Some (heap_code h + heap_curr h) /\
  blocks h' = <[phys_pc _ b := heap_code h + heap_curr h]> (blocks h) /\
  block_links h' = block_links h /\
  dirty_pages h' = dirty_pages h /\ dirty_mask h' = dirty_mask h /\
  heap_curr h' = heap_curr h + size _ b /\ heap_size h' = heap_size h /\
  heap_data h' = heap_data h /\ heap_code h' = heap_code h /\
  heap_bytes h' = memcpy_heap (heap_bytes h) (heap_data h + heap_curr h)
                    (take (Z.to_nat (size _ b)) (code _ b)) /\
  jited_pages h' =
    match jited_pages h with
    | None => None
    | Some _ =>
        word_set (jited_pages h) (page_offset h (phys_pc _ b))
          (Z.lor (word_at (jited_pages h) (page_offset h (phys_pc _ b)))
                 (page_bit (phys_pc _ b)))
    end.
Proof.
  intros Hfit. cbv zeta. unfold rvjit_block_finalize.
  destruct (Z.gtb_spec (heap_curr (heap b) + size _ b) (heap_size (heap b))); [lia|].
  unfold rvjit_mark_jited_page.
  cbv beta iota zeta delta [with_heap heap jited_pages].
  destruct b as [h c s lk ls pc r64 e].
  destruct h as [hd hc hs cur bytes bl ln dp jp dm].
  cbv beta iota zeta delta
    [heap code size linkage links phys_pc rv64 emit
     heap_data heap_code heap_size heap_curr heap_bytes blocks block_links
     dirty_pages jited_pages dirty_mask].
  destruct jp as [j|]; cbv beta iota zeta delta
    [fst snd with_heap heap_set_jited heap code size linkage links phys_pc rv64 emit
     heap_data heap_code heap_size heap_curr heap_bytes blocks block_links
     dirty_pages jited_pages dirty_mask page_offset];
    repeat split.
Qed.

(** X22. Install then look up: when the emitted code fits the heap and the
    page of the block's physical PC is not marked dirty,
    rvjit_block_finalize returns the entry point heap.code + heap.curr, and
    the next rvjit_block_lookup at that physical PC returns this entry point
    and changes nothing; the registry entries of all other physical PCs are
    as before the install. *)
Theorem finalize_then_lookup b :
  heap_curr (heap b) + size _ b <= heap_size (heap b) ->
  dirty b (phys_pc _ b) = false ->
  let entry := heap_code (heap b) + heap_curr (heap b) in
  let b' := snd (rvjit_block_finalize b) in
  fst (rvjit_block_finalize b) = Some entry /\
  rvjit_block_lookup b' (phys_pc _ b) = (entry, b') /\
  (forall pc, pc <> phys_pc _ b ->
     blocks (heap b') !! pc = blocks (heap b) !! pc).
Proof.
  intros Hfit Hclean entry b'.
  destruct (finalize_heap b Hfit)
    as (Hres & Hbl & _ & Hdp & Hdm & _). fold b' in Hbl, Hdp, Hdm.
  split; [exact Hres|]. split.
  - rewrite lookup_clean.
    + unfold hashmap_get. rewrite Hbl, lookup_insert_eq. reflexivity.
    + unfold dirty, page_flag, page_offset in *. rewrite Hdp, Hdm. exact Hclean.
  - intros pc Hne. rewrite Hbl. apply lookup_insert_ne. congruence.
Qed.

Lemma flush_cache_heap (init : emit_t) b :
  let h' := heap (rvjit_flush_cache init b) in
  blocks h' = ∅ /\ block_links h' = ∅ /\ heap_curr h' = 0 /\
  dirty_mask h' = dirty_mask (heap b) /\
  jited_pages h' = jited_pages (heap b) /\
  dirty_pages h' =
    match dirty_pages (heap b) with
    | Some l => Some (clear_words (Z.to_nat (dirty_mask (heap b) + 1)) 0 l)
    | None => None
    end.
Proof.
  destruct b as [h c s lk ls pc r64 e].
  destruct h as [hd hc hs cur bytes bl ln dp jp dm].
  cbv beta iota zeta delta
    [rvjit_flush_cache rvjit_block_init rvjit_linker_cleanup heap_set_maps
     heap_set_dirty with_heap vma_clean
     heap code size linkage links phys_pc rv64 emit
     heap_data heap_code heap_size heap_curr heap_bytes blocks block_links
     dirty_pages jited_pages dirty_mask].
  destruct (cur >? 65536); destruct dp as [d|]; cbv beta iota; repeat split.
Qed.

(** X24. After rvjit_flush_cache nothing is cached: every
    rvjit_block_lookup returns null and leaves the flushed state as it is,
    whatever was installed or marked dirty before. *)
Theorem flushed_cache_misses (init : emit_t) b (pc : Z) :
  0 <= dirty_mask (heap b) ->
  rvjit_block_lookup (rvjit_flush_cache init b) pc
  = (0, rvjit_flush_cache init b).
Proof.
  intros Hm.
  destruct (flush_cache_heap init b) as (Hbl & _ & _ & Hmask & _ & Hdp).
  assert (Hd : dirty (rvjit_flush_cache init b) pc = false).
  { unfold dirty, page_flag, page_offset. rewrite Hmask, Hdp.
    pose proof (land_mask_le (Z.shiftr pc 17) (dirty_mask (heap b)) Hm) as Ho.
    set (o := Z.land (Z.shiftr pc 17) (dirty_mask (heap b))) in *.
    assert (Hw : word_at
                   match dirty_pages (heap b) with
                   | Some l => Some (clear_words (Z.to_nat (dirty_mask (heap b) + 1)) 0 l)
                   | None => None
                   end o = 0).
    { destruct (dirty_pages (heap b)) as [l|]; [|reflexivity].
      unfold word_at. rewrite clear_words_lookup.
      rewrite decide_True by lia.
      destruct (decide (Z.to_nat o < length l)%nat); reflexivity. }
    rewrite Hw. reflexivity. }
  rewrite (lookup_clean _ _ Hd). unfold hashmap_get. rewrite Hbl.
  rewrite lookup_empty. reflexivity.
Qed.

(** What a lookup on a dirty page does to the bit matrices and the
    registry. *)
Lemma lookup_dirty_page b (a : Z) :
  tracking_ok (heap b) = true ->
  0 <= a < 2 ^ 64 ->
  dirty b a = true ->
  let r := rvjit_block_lookup b a in
  fst r = 0 /\
  tracking_ok (heap (snd r)) = true /\
  dirty_mask (heap (snd r)) = dirty_mask (heap b) /\
  jited_pages (heap (snd r)) = jited_pages (heap b) /\
  (forall q, dirty (snd r) q
             = dirty b q && negb (same_slot (dirty_mask (heap b)) a q)) /\
  blocks (heap (snd r)) !! a = None.
Proof.
  intros Hok Ha Hd r.
  destruct (tracking_ok_inv _ Hok) as (Hm & d & j & Hdp & Hjp & Hld & Hlj).
  set (o := Z.land (Z.shiftr a 17) (dirty_mask (heap b))).
  set (b1 := with_heap b (heap_set_dirty (heap b)
               (word_set (Some d) o (Z.land (word_at (Some d) o) (not32 (page_bit a)))))).
  assert (Hnf : rvjit_page_needs_flush b a = (true, b1)).
  { unfold rvjit_page_needs_flush. unfold dirty, page_flag in Hd.
    rewrite Hdp in *. rewrite Hd. reflexivity. }
  assert (Hr : r = (0, with_heap b1
                         (heap_set_maps (heap b1)
                            (fst (lookup_flush_loop 4096 (blocks (heap b1))
                                    (block_links (heap b1)) (4096 * (a / 4096)) 0))
                            (snd (lookup_flush_loop 4096 (blocks (heap b1))
                                    (block_links (heap b1)) (4096 * (a / 4096)) 0))))).
  { unfold r, rvjit_block_lookup. rewrite Hnf, page_base by exact Ha.
    destruct (lookup_flush_loop 4096 _ _ _ 0); reflexivity. }
  rewrite Hr. cbn [fst snd]. split; [reflexivity|].
  set (bl' := fst _). set (ln' := snd _).
  change (dirty_mask (heap (with_heap b1 (heap_set_maps (heap b1) bl' ln'))))
    with (dirty_mask (heap b)).
  change (jited_pages (heap (with_heap b1 (heap_set_maps (heap b1) bl' ln'))))
    with (jited_pages (heap b)).
  change (blocks (heap (with_heap b1 (heap_set_maps (heap b1) bl' ln')))) with bl'.
  split; [|split; [reflexivity|split; [reflexivity|split]]].
  - apply (tracking_ok_intro _
             (<[Z.to_nat o := Z.land (word_at (Some d) o) (not32 (page_bit a))]> d) j).
    + exact Hm.
    + reflexivity.
    + exact Hjp.
    + rewrite length_insert. exact Hld.
    + exact Hlj.
  - intros q. unfold dirty. rewrite !page_flag_flag_of.
    change (dirty_mask (heap (with_heap b1 (heap_set_maps (heap b1) bl' ln'))))
      with (dirty_mask (heap b)).
    change (dirty_pages (heap (with_heap b1 (heap_set_maps (heap b1) bl' ln'))))
      with (word_set (Some d) o (Z.land (word_at (Some d) o) (not32 (page_bit a)))).
    rewrite Hdp. apply flag_of_clear; assumption.
  - pose proof (lookup_flush_loop_spec 4096 (blocks (heap b1)) (block_links (heap b1))
                  (4096 * (a / 4096)) 0 a) as [Hs _].
    fold bl' in Hs. rewrite Hs. apply decide_True.
    apply same_page_range. reflexivity.
Qed.

Lemma same_slot_refl (m a : Z) : same_slot m a a = true.
Proof. unfold same_slot. rewrite !Z.eqb_refl. reflexivity. Qed.

(** X25. The dirty bit of a page is consumed by the lookup that finds it:
    with memory tracking allocated, a rvjit_block_lookup on an address of a
    dirty page returns null and clears that dirty bit, leaving the dirty
    bits of pages that do not share its bit alone; a second lookup at the
    same address finds the page clean and the registry entry gone, returns
    null again and changes nothing. *)
Theorem dirty_bit_consumed_by_lookup b (a : Z) :
  tracking_ok (heap b) = true ->
  0 <= a < 2 ^ 64 ->
  dirty b a = true ->
  let r := rvjit_block_lookup b a in
  fst r = 0 /\
  dirty (snd r) a = false /\
  (forall q, same_slot (dirty_mask (heap b)) a q = false ->
             dirty (snd r) q = dirty b q) /\
  rvjit_block_lookup (snd r) a = (0, snd r).
Proof.
  intros Hok Ha Hd r.
  destruct (lookup_dirty_page b a Hok Ha Hd) as (H0 & _ & _ & _ & Hdq & Hbl).
  fold r in H0, Hdq, Hbl.
  assert (Hclean : dirty (snd r) a = false).
  { rewrite Hdq, same_slot_refl. apply andb_false_r. }
  split; [exact H0|]. split; [exact Hclean|]. split.
  - intros q Hq. rewrite Hdq, Hq. apply andb_true_r.
  - rewrite (lookup_clean _ _ Hclean). unfold hashmap_get. rewrite Hbl. reflexivity.
Qed.

Lemma alias_same_slot (j k x : Z) :
  0 <= j -> same_slot (2 ^ j - 1) x (x + k * 2 ^ (17 + j)) = true.
Proof.
  intros Hj. unfold same_slot, bit_index.
  change (2 ^ j - 1) with (Z.pred (2 ^ j)). rewrite <- Z.ones_equiv.
  change 0x1F with (Z.ones 5).
  rewrite !Z.land_ones, !Z.shiftr_div_pow2 by lia.
  replace (x + k * 2 ^ (17 + j)) with (x + (k * 2 ^ j) * 2 ^ 17)
    by (rewrite Z.pow_add_r by lia; ring).
  rewrite Z.div_add by lia. rewrite Z.mod_add by lia.
  replace (x + k * 2 ^ j * 2 ^ 17) with (x + (k * 2 ^ j * 2 ^ 5) * 2 ^ 12)
    by (change (2 ^ 17) with (2 ^ 5 * 2 ^ 12); ring).
  rewrite Z.div_add by lia. rewrite Z.mod_add by lia.
  rewrite !Z.eqb_refl. reflexivity.
Qed.

(** X26. Dirty tracking works modulo the tracked window: with
    dirty_mask + 1 = 2^j words allocated, two pages whose addresses differ
    by a multiple of 2^(17+j) bytes share one bit of the matrices.  A write
    reported by rvjit_mark_dirty_mem to a jited page x therefore also marks
    every such page q dirty, and the next rvjit_block_lookup at q returns
    null and drops the registry entry of q, although q was not written. *)
Theorem aliased_page_is_flushed b (x k j : Z) :
  tracking_ok (heap b) = true ->
  0 <= j -> dirty_mask (heap b) = 2 ^ j - 1 ->
  jited b x = true ->
  let q := x + k * 2 ^ (17 + j) in
  0 <= q < 2 ^ 64 ->
  let b' := rvjit_mark_dirty_mem b x 1 in
  dirty b' q = true /\
  fst (rvjit_block_lookup b' q) = 0 /\
  blocks (heap (snd (rvjit_block_lookup b' q))) !! q = None.
Proof.
  intros Hok Hj Hmask Hjx q Hq b'.
  destruct (tracking_ok_inv _ Hok) as (Hm & d & jl & Hdp & Hjp & Hld & Hlj).
  assert (Hb' : b' = rvjit_mark_dirty_page b (x + 0)).
  { unfold b', rvjit_mark_dirty_mem. rewrite Hdp. reflexivity. }
  rewrite Z.add_0_r in Hb'.
  destruct (mark_dirty_page_spec b x Hok) as (Hok' & _ & _ & Hmask' & _).
  destruct (mark_dirty_page_heap b x) as (_ & _ & _ & Hset & _).
  destruct (Hset Hjx) as [Hd' _]. clear Hset.
  rewrite <- Hb' in Hok', Hmask', Hd'.
  assert (Hdq : dirty b' q = true).
  { unfold dirty. rewrite page_flag_flag_of, Hmask', Hd'.
    unfold page_offset. rewrite Hdp.
    rewrite flag_of_set by assumption.
    rewrite Hmask. unfold q. rewrite alias_same_slot by exact Hj.
    apply orb_true_r. }
  split; [exact Hdq|].
  destruct (lookup_dirty_page b' q Hok' Hq Hdq) as (H0 & _ & _ & _ & _ & Hbl).
  split; [exact H0|exact Hbl].
Qed.

Lemma next_pow2_from_pos (fuel : nat) (p x : Z) :
  1 <= p -> 1 <= next_pow2_from fuel p x.
Proof.
  revert p. induction fuel as [|f IH]; intros p Hp; cbn [next_pow2_from].
  - exact Hp.
  - destruct (x <=? p); [exact Hp|]. apply IH. lia.
Qed.

Lemma word_at_repeat (n : nat) (o : Z) : word_at (Some (repeat 0 n)) o = 0.
Proof.
  unfold word_at. generalize (Z.to_nat o). clear o.
  induction n as [|n IH]; intros [|i]; cbn [repeat]; try reflexivity.
  apply IH.
Qed.

(** X27. rvjit_init_memtracking allocates both bit matrices with
    dirty_mask + 1 words, all clear: right after it no page is jited or
    dirty.  A block installed afterwards by a successful
    rvjit_block_finalize has its page marked jited and not dirty, so that
    a write reported for that page by rvjit_mark_dirty_mem makes the next
    lookup of the block return null. *)
Theorem tracked_install_is_invalidated_by_write b (n : Z) :
  heap_curr (heap b) + size _ b <= heap_size (heap b) ->
  0 <= phys_pc _ b < 2 ^ 64 ->
  let b0 := rvjit_init_memtracking b n in
  let b1 := snd (rvjit_block_finalize b0) in
  (forall q, jited b0 q = false /\ dirty b0 q = false) /\
  tracking_ok (heap b1) = true /\
  jited b1 (phys_pc _ b) = true /\ dirty b1 (phys_pc _ b) = false /\
  fst (rvjit_block_lookup b1 (phys_pc _ b))
  = heap_code (heap b) + heap_curr (heap b) /\
  fst (rvjit_block_lookup (rvjit_mark_dirty_mem b1 (phys_pc _ b) 1) (phys_pc _ b))
  = 0.
Proof.
  intros Hfit Hpc b0 b1.
  set (m := bit_next_pow2 (Z.shiftr (n + 0x1FFFF) 17) - 1).
  set (z := repeat 0 (Z.to_nat (m + 1))).
  assert (Hm : 0 <= m).
  { unfold m, bit_next_pow2.
    pose proof (next_pow2_from_pos 64 1 (Z.shiftr (n + 0x1FFFF) 17) ltac:(lia)).
    lia. }
  assert (Hdp0 : dirty_pages (heap b0) = Some z) by reflexivity.
  assert (Hjp0 : jited_pages (heap b0) = Some z) by reflexivity.
  assert (Hm0 : dirty_mask (heap b0) = m) by reflexivity.
  assert (Hclean0 : forall q, jited b0 q = false /\ dirty b0 q = false).
  { intros q. unfold jited, dirty, page_flag. rewrite Hdp0, Hjp0.
    unfold z. rewrite word_at_repeat. split; reflexivity. }
  assert (Hfit0 : heap_curr (heap b0) + size _ b0 <= heap_size (heap b0))
    by exact Hfit.
  destruct (finalize_heap b0 Hfit0)
    as (_ & Hbl & _ & Hdp & Hdm & _ & _ & _ & _ & _ & Hjp).
  fold b1 in Hbl, Hdp, Hdm, Hjp.
  rewrite Hjp0 in Hjp. rewrite Hdp0 in Hdp. rewrite Hm0 in Hdm.
  change (phys_pc _ b0) with (phys_pc _ b) in *.
  set (pc := phys_pc _ b) in *.
  unfold page_offset in Hjp. rewrite Hm0 in Hjp.
  assert (Hlz : length z = Z.to_nat (m + 1)) by (unfold z; apply repeat_length).
  assert (Hok1 : tracking_ok (heap b1) = true).
  { apply (tracking_ok_intro _ z
             (<[Z.to_nat (Z.land (Z.shiftr pc 17) m) :=
                  Z.lor (word_at (Some z) (Z.land (Z.shiftr pc 17) m)) (page_bit pc)]> z)).
    - rewrite Hdm. exact Hm.
    - exact Hdp.
    - exact Hjp.
    - rewrite Hdm. exact Hlz.
    - rewrite length_insert, Hdm. exact Hlz. }
  assert (Hj1 : jited b1 pc = true).
  { unfold jited. rewrite page_flag_flag_of, Hdm, Hjp.
    rewrite flag_of_set by assumption. rewrite same_slot_refl. apply orb_true_r. }
  assert (Hd1 : dirty b1 pc = false).
  { unfold dirty, page_flag. rewrite Hdp. unfold z. rewrite word_at_repeat.
    reflexivity. }
  split; [exact Hclean0|]. split; [exact Hok1|]. split; [exact Hj1|].
  split; [exact Hd1|]. split.
  - rewrite (lookup_clean _ _ Hd1). unfold hashmap_get.
    rewrite Hbl, lookup_insert_eq. reflexivity.
  - assert (Hv : visited pc 1 pc).
    { exists 0. split; [lia|]. split; [lia|]. rewrite Z.mul_0_r, Z.add_0_r.
      reflexivity. }
    destruct (mark_dirty_mem_spec b1 pc 1 pc Hok1 Hv
                ltac:(rewrite Hj1; reflexivity)) as (Hok2 & _ & _ & Hd2).
    destruct (lookup_dirty_page _ pc Hok2 Hpc Hd2) as (H0 & _). exact H0.
Qed.

End Cache.

Lemma finalize_then_lookup_witness :
  fst (rvjit_block_finalize block_fresh) = Some 0x7F0000000000
  /\ fst (rvjit_block_lookup (snd (rvjit_block_finalize block_fresh)) 0x80001000)
     = 0x7F0000000000.
Proof.
  destruct (finalize_then_lookup block_fresh ltac:(vm_compute; congruence)
              eq_refl) as (H1 & H2 & _).
  split; [exact H1|exact (f_equal fst H2)].
Defined.

Lemma flushed_cache_misses_witness :
  fst (rvjit_block_lookup (rvjit_flush_cache tt block_tracked) 0x80001000) = 0.
Proof.
  rewrite (flushed_cache_misses tt block_tracked 0x80001000
             ltac:(vm_compute; congruence)).
  reflexivity.
Defined.

Lemma dirty_bit_consumed_by_lookup_witness :
  let b := rvjit_mark_dirty_mem block_tracked 0x80001000 1 in
  fst (rvjit_block_lookup b 0x80001000) = 0
  /\ dirty (snd (rvjit_block_lookup b 0x80001000)) 0x80001000 = false.
Proof.
  destruct (dirty_bit_consumed_by_lookup
              (rvjit_mark_dirty_mem block_tracked 0x80001000 1) 0x80001000
              eq_refl ltac:(lia) eq_refl) as (H1 & H2 & _).
  split; [exact H1|exact H2].
Defined.

Lemma aliased_page_is_flushed_witness :
  dirty (rvjit_mark_dirty_mem block_tracked 0x80001000 1) 0x81001000 = true
  /\ fst (rvjit_block_lookup (rvjit_mark_dirty_mem block_tracked 0x80001000 1)
            0x81001000) = 0.
Proof.
  destruct (aliased_page_is_flushed block_tracked 0x80001000 1 7
              eq_refl ltac:(lia) eq_refl eq_refl ltac:(lia)) as (H1 & H2 & _).
  split; [exact H1|exact H2].
Defined.

Lemma tracked_install_is_invalidated_by_write_witness :
  jited block_tracked 0x80001000 = true
  /\ fst (rvjit_block_lookup (rvjit_mark_dirty_mem block_tracked 0x80001000 1)
            0x80001000) = 0.
Proof.
  destruct (tracked_install_is_invalidated_by_write block_fresh 0x1000000
              ltac:(vm_compute; congruence) ltac:(vm_compute; split; congruence))
    as (_ & _ & H1 & _ & _ & H2).
  split; [exact H1|exact H2].
Defined.

End RvjitCacheFacts.

(** * src/main.c: how the command line is read *)

Module ArgsFacts.
Import Main MainSamples MainNotions.

Local Open Scope string_scope.

(** X28. cmp_arg accepts an option name exactly when the text of the
    argument before its first '=' is a prefix of that name: options may be
    abbreviated (-m for -mem), the text after '=' plays no part, and an
    empty name is accepted for every option. *)
Theorem cmp_arg_is_prefix_test (arg name : string) :
  cmp_arg arg name = String.prefix (before_equals arg) name.
Proof.
  revert name. induction arg as [|c rest IH]; intros name.
  - destruct name; reflexivity.
  - cbn [cmp_arg before_equals].
    destruct (Ascii.eqb c "="%char) eqn:Heq.
    + destruct name; reflexivity.
    + destruct name as [|d nrest]; [reflexivity|].
      cbn [String.prefix].
      destruct (Ascii.eqb_spec c d) as [->|Hne].
      * destruct (ascii_dec d d) as [_|Hn]; [apply IH|contradiction].
      * destruct (ascii_dec c d) as [He|_]; [contradiction|reflexivity].
Qed.

Lemma parse_one_smp_bound (arg_name arg_val : string) (args args' : vm_args_t)
    (out : list output) :
  0 <= smp args <= 1024 ->
  parse_one arg_name arg_val args = Continue args' out ->
  0 <= smp args' <= 1024.
Proof.
  intros Hb. unfold parse_one.
  repeat match goal with
         | |- (let n := _ in _) = _ -> _ => cbv zeta
         | |- (if ?x >? ?y then _ else _) = _ -> _ => destruct (Z.gtb_spec x y)
         | |- (if ?c then _ else _) = _ -> _ => destruct c
         end;
    intros Hres; try discriminate Hres; injection Hres as <- _; try exact Hb.
  cbn [smp set_smp]. split; [|assumption].
  unfold wrap32. apply Z.mod_pos_bound. lia.
Qed.

Lemma parse_loop_smp_bound (n : nat) :
  forall (rest : list string) (args : vm_args_t),
    (length rest <= n)%nat ->
    0 <= smp args <= 1024 ->
    fst (fst (parse_loop rest args)) = true ->
    0 <= smp (snd (fst (parse_loop rest args))) <= 1024.
Proof.
  induction n as [|n IH]; intros rest args Hlen Hb.
  - destruct rest; [|cbn in Hlen; lia]. intros _. exact Hb.
  - destruct rest as [|a tl]; [intros _; exact Hb|].
    cbn [length] in Hlen. cbn [parse_loop].
    destruct (get_arg a (head tl)) as [[k arg_name] arg_val].
    destruct (parse_one arg_name arg_val args) as [args' out|args' out] eqn:Hone;
      [|cbn; discriminate].
    pose proof (parse_one_smp_bound _ _ _ _ _ Hb Hone) as Hb'.
    assert (Hnext : exists next, (length next <= n)%nat /\
               match k, tl with
               | 2%nat, _ :: tl' => parse_loop tl' args'
               | _, _ => parse_loop tl args'
               end = parse_loop next args').
    { destruct k as [|[|[|k]]]; try (exists tl; split; [lia|reflexivity]).
      destruct tl as [|w tl']; [exists []; split; [cbn; lia|reflexivity]|].
      exists tl'. split; [cbn [length] in Hlen; lia|reflexivity]. }
    destruct Hnext as (next & Hln & ->).
    specialize (IH next args' Hln Hb').
    destruct (parse_loop next args') as [[r args''] out'].
    cbn [fst snd] in *. exact IH.
Qed.

Lemma parse_one_smp_value (arg_name arg_val : string) (args args' : vm_args_t)
    (out : list output) :
  parse_one arg_name arg_val args = Continue args' out ->
  smp args' = (if selects_smp arg_name then smp_value arg_val else smp args)
  /\ (selects_smp arg_name = true -> smp_value arg_val <= 1024).
Proof.
  unfold parse_one, selects_smp, smp_value.
  repeat match goal with
         | |- (let n := _ in _) = _ -> _ => cbv zeta
         | |- (if ?x >? ?y then _ else _) = _ -> _ => destruct (Z.gtb_spec x y)
         | |- (if ?c then _ else _) = _ -> _ => destruct c
         end;
    intros Hres; try discriminate Hres; injection Hres as <- _;
    cbn [negb andb smp set_dtb set_image set_bootrom set_kernel set_mem set_smp
         set_rv64];
    (split; [reflexivity|intros Hsel; try discriminate Hsel; lia]).
Qed.

Lemma parse_loop_smp_value (n : nat) :
  forall (rest : list string) (args : vm_args_t),
    (length rest <= n)%nat ->
    (fst (fst (parse_loop rest args)) = true ->
     smp (snd (fst (parse_loop rest args))) = smp_asked (arg_pairs rest) (smp args))
    /\ (Exists smp_too_large (arg_pairs rest) ->
        fst (fst (parse_loop rest args)) = false).
Proof.
  induction n as [|n IH]; intros rest args Hlen.
  - destruct rest; [|cbn in Hlen; lia].
    split; [reflexivity|]. cbn [arg_pairs]. intros Hex. inversion Hex.
  - destruct rest as [|a tl].
    { split; [reflexivity|]. cbn [arg_pairs]. intros Hex. inversion Hex. }
    cbn [length] in Hlen. cbn [parse_loop arg_pairs].
    destruct (get_arg a (head tl)) as [[k arg_name] arg_val].
    assert (Hnext : exists next, (length next <= n)%nat /\
               (forall args', match k, tl with
                              | 2%nat, _ :: tl' => parse_loop tl' args'
                              | _, _ => parse_loop tl args'
                              end = parse_loop next args') /\
               match k, tl with
               | 2%nat, _ :: tl' => arg_pairs tl'
               | _, _ => arg_pairs tl
               end = arg_pairs next).
    { destruct k as [|[|[|k]]];
        try (exists tl; split; [lia|split; [intros; reflexivity|reflexivity]]).
      destruct tl as [|w tl'].
      - exists []. split; [cbn; lia|split; [intros; reflexivity|reflexivity]].
      - exists tl'. split; [cbn [length] in Hlen; lia|].
        split; [intros; reflexivity|reflexivity]. }
    destruct Hnext as (next & Hln & Hloop & ->).
    destruct (parse_one arg_name arg_val args) as [args' out|args' out] eqn:Hone.
    + rewrite Hloop.
      destruct (parse_one_smp_value _ _ _ _ _ Hone) as [Hsmp Hle].
      destruct (IH next args' Hln) as [IHv IHx].
      destruct (parse_loop next args') as [[r args''] out'].
      cbn [fst snd smp_asked] in *. split.
      * intros Hr. rewrite (IHv Hr), Hsmp. reflexivity.
      * intros Hex. inversion Hex as [x l Hbad|x l Hrest]; subst.
        -- destruct Hbad as (Hsel & _ & Hgt). cbn [fst snd] in Hsel, Hgt.
           specialize (Hle Hsel). lia.
        -- apply IHx. exact Hrest.
    + cbn [fst snd]. split; [discriminate|reflexivity].
Qed.

(** X29. The core count parse_args leaves in the arguments.  Whenever
    parse_args succeeds the count is between 0 and 1024.  On a command line
    whose smp options all have a value that atoi is defined on, a success
    leaves the value of the last option that reaches the smp branch, as
    stored in the uint32_t, and 1 when no option reaches that branch.  A
    command line with an option that reaches the smp branch with a value
    above 1024 once stored (a negative one included) makes parse_args
    fail. *)
Theorem parse_args_bounds_smp (argv : list string) (args : vm_args_t) :
  let r := parse_args argv args in
  (fst (fst r) = true -> 0 <= smp (snd (fst r)) <= 1024) /\
  (smp_values_defined (arg_pairs (tail argv)) -> fst (fst r) = true ->
   smp (snd (fst r)) = smp_asked (arg_pairs (tail argv)) 1) /\
  (Forall (fun nv => selects_smp (fst nv) = false) (arg_pairs (tail argv)) ->
   fst (fst r) = true -> smp (snd (fst r)) = 1) /\
  (Exists smp_too_large (arg_pairs (tail argv)) -> fst (fst r) = false).
Proof.
  cbv zeta. unfold parse_args.
  set (args0 := set_mem (set_smp args 1) (Z.shiftl 256 20)).
  destruct (parse_loop_smp_value (length (tail argv)) (tail argv) args0
              ltac:(lia)) as [Hval Hbad].
  change (smp args0) with 1 in Hval.
  split; [|split; [|split]].
  - apply (parse_loop_smp_bound (length (tail argv))); [lia|].
    unfold args0. cbn [smp set_mem set_smp]. lia.
  - intros _. exact Hval.
  - intros Hnone Hok. rewrite (Hval Hok).
    assert (Hd : forall d, smp_asked (arg_pairs (tail argv)) d = d).
    { clear Hval Hbad Hok.
      induction Hnone as [|[nm v] l Hsel _ IHl]; intros d.
      - reflexivity.
      - cbn [smp_asked]. cbn [fst] in Hsel. rewrite Hsel. apply IHl. }
    apply Hd.
  - exact Hbad.
Qed.

Lemma parse_args_bounds_smp_witness :
  fst (fst (parse_args ["rvvm"; "-smp"; "4"; "boot.bin"] args_zero)) = true
  /\ smp (snd (fst (parse_args ["rvvm"; "-smp"; "4"; "boot.bin"] args_zero))) = 4
  /\ smp (snd (fst (parse_args ["rvvm"; "-mem"; "64M"; "boot.bin"] args_zero))) = 1
  /\ fst (fst (parse_args ["rvvm"; "-smp"; "2000"; "boot.bin"] args_zero)) = false
  /\ fst (fst (parse_args ["rvvm"; "-smp=-1"; "boot.bin"] args_zero)) = false.
Proof.
  destruct (parse_args_bounds_smp ["rvvm"; "-smp"; "4"; "boot.bin"] args_zero)
    as (_ & H4 & _ & _).
  destruct (parse_args_bounds_smp ["rvvm"; "-mem"; "64M"; "boot.bin"] args_zero)
    as (_ & _ & H1 & _).
  destruct (parse_args_bounds_smp ["rvvm"; "-smp"; "2000"; "boot.bin"] args_zero)
    as (_ & _ & _ & Hbig).
  destruct (parse_args_bounds_smp ["rvvm"; "-smp=-1"; "boot.bin"] args_zero)
    as (_ & _ & _ & Hneg).
  change (arg_pairs (tail ["rvvm"; "-smp"; "4"; "boot.bin"]))
    with [("smp", "4"); ("bootrom", "boot.bin")] in H4.
  change (arg_pairs (tail ["rvvm"; "-mem"; "64M"; "boot.bin"]))
    with [("mem", "64M"); ("bootrom", "boot.bin")] in H1.
  change (arg_pairs (tail ["rvvm"; "-smp"; "2000"; "boot.bin"]))
    with [("smp", "2000"); ("bootrom", "boot.bin")] in Hbig.
  change (arg_pairs (tail ["rvvm"; "-smp=-1"; "boot.bin"]))
    with [("smp=-1", "-1"); ("bootrom", "boot.bin")] in Hneg.
  split; [reflexivity|].
  split.
  { rewrite H4; [reflexivity| |reflexivity].
    constructor; [intros _; vm_compute; split; congruence|].
    constructor; [intros H; vm_compute in H; discriminate H|].
    constructor. }
  split.
  { apply H1; [|reflexivity].
    constructor; [reflexivity|]. constructor; [reflexivity|].
    constructor. }
  split.
  { apply Hbig. apply Exists_cons_hd.
    split; [reflexivity|]. split; vm_compute; [split; congruence|reflexivity]. }
  apply Hneg. apply Exists_cons_hd.
  split; [reflexivity|]. split; vm_compute; [split; congruence|reflexivity].
Defined.

Lemma cmp_arg_append_equals (n v name : string) :
  has_equals n = false -> cmp_arg (n ++ "=" ++ v) name = cmp_arg n name.
Proof.
  revert name. induction n as [|c r IH]; intros name Hn.
  - reflexivity.
  - cbn [has_equals] in Hn. apply orb_false_elim in Hn. destruct Hn as [Hc Hr].
    change (String c r ++ "=" ++ v) with (String c (r ++ "=" ++ v)).
    cbn [cmp_arg]. rewrite Hc.
    destruct name as [|d nrest]; [reflexivity|].
    destruct (Ascii.eqb c d); [apply IH; exact Hr|reflexivity].
Qed.

Lemma after_equals_append (n v : string) :
  has_equals n = false ->
  after_equals (n ++ "=" ++ v) = Some v /\ after_equals n = None.
Proof.
  induction n as [|c r IH]; intros Hn.
  - split; reflexivity.
  - cbn [has_equals] in Hn. apply orb_false_elim in Hn. destruct Hn as [Hc Hr].
    change (String c r ++ "=" ++ v) with (String c (r ++ "=" ++ v)).
    cbn [after_equals]. rewrite Hc. apply IH. exact Hr.
Qed.

(** The two spellings reach the chain of [parse_args] with names that it
    treats alike. *)
Lemma parse_one_equals_form (n v : string) (args : vm_args_t) :
  has_equals n = false ->
  match parse_one (n ++ "=" ++ v) v args, parse_one n v args with
  | Continue a o, Continue a' o' => a = a' /\ o = o'
  | Stop a _, Stop a' _ => a = a'
  | _, _ => False
  end.
Proof.
  intros Hn. destruct n as [|c r]; [cbn; split; reflexivity|].
  unfold parse_one. rewrite !cmp_arg_append_equals by exact Hn.
  change (String c r ++ "=" ++ v) with (String c (r ++ "=" ++ v)).
  cbn [nonempty].
  repeat match goal with
         | |- context [if ?b then _ else _] => destruct b
         end; try (split; reflexivity); reflexivity.
Qed.

(** X30. An option may be spelled -name=value or -name value: when the
    name holds no '=' and the value does not begin with '-', parse_args
    reaches the same verdict and the same arguments from a command line
    with one spelling as from the command line with the other (what it
    prints differs only in the name shown for an unknown option). *)
Theorem equals_form_same_as_separate (name value : string) (tl : list string)
    (args : vm_args_t) :
  has_equals name = false -> is_dash value = false ->
  fst (parse_loop (("-" ++ name ++ "=" ++ value) :: tl) args)
  = fst (parse_loop (("-" ++ name) :: value :: tl) args).
Proof.
  intros Hn Hv.
  set (n := if is_dash name
            then match name with String _ r => r | EmptyString => name end
            else name).
  assert (Hn' : has_equals n = false).
  { unfold n. destruct name as [|c r]; [reflexivity|].
    cbn [has_equals] in Hn. apply orb_false_elim in Hn.
    destruct (is_dash (String c r)); [exact (proj2 Hn)|].
    cbn [has_equals]. rewrite (proj1 Hn), (proj2 Hn). reflexivity. }
  assert (Hg1 : get_arg ("-" ++ name ++ "=" ++ value) (head tl)
                = (1%nat, n ++ "=" ++ value, value)).
  { change ("-" ++ name ++ "=" ++ value)
      with (String "-"%char (name ++ "=" ++ value)).
    cbn [get_arg]. change (Ascii.eqb "-"%char "-"%char) with true. cbv iota.
    assert (Hname : (if is_dash (name ++ "=" ++ value)
                     then match name ++ "=" ++ value with
                          | String _ r => r
                          | EmptyString => name ++ "=" ++ value
                          end
                     else name ++ "=" ++ value) = n ++ "=" ++ value).
    { unfold n. destruct name as [|c r]; [reflexivity|].
      change (String c r ++ "=" ++ value) with (String c (r ++ "=" ++ value)).
      cbn [is_dash]. destruct (Ascii.eqb c "-"%char); reflexivity. }
    rewrite Hname. rewrite (proj1 (after_equals_append n value Hn')).
    reflexivity. }
  assert (Hg2 : get_arg ("-" ++ name) (head (value :: tl)) = (2%nat, n, value)).
  { change ("-" ++ name) with (String "-"%char name).
    cbn [get_arg head]. change (Ascii.eqb "-"%char "-"%char) with true. cbv iota.
    fold n. rewrite (proj2 (after_equals_append n value Hn')), Hv.
    reflexivity. }
  cbn [parse_loop]. rewrite Hg1, Hg2.
  pose proof (parse_one_equals_form n value args Hn') as Hone.
  destruct (parse_one (n ++ "=" ++ value) value args) as [a o|a o];
    destruct (parse_one n value args) as [a' o'|a' o']; try contradiction.
  - destruct Hone as [-> ->].
    destruct (parse_loop tl a') as [[r a''] out']. reflexivity.
  - subst a'. reflexivity.
Qed.

Lemma equals_form_same_as_separate_witness :
  fst (parse_loop ["-mem=64M"; "boot.bin"] args_zero)
  = fst (parse_loop ["-mem"; "64M"; "boot.bin"] args_zero).
Proof.
  exact (equals_form_same_as_separate "mem" "64M" ["boot.bin"] args_zero
           eq_refl eq_refl).
Defined.

End ArgsFacts.

(** * src/rvjit/rvjit.c: a write to a page, then lookups *)

Module RvjitSequenceFacts.
Import Rvjit RvjitSamples RvjitFacts RvjitCacheFacts.

Section Sequences.

Context {emit_t : Type}.
Implicit Types b : rvjit_block emit_t.

Lemma mark_dirty_loop_mask (n : nat) b (addr i : Z) :
  dirty_mask (heap (mark_dirty_loop n b addr i)) = dirty_mask (heap b).
Proof.
  revert b i. induction n as [|n IH]; intros b i; cbn [mark_dirty_loop].
  - reflexivity.
  - rewrite IH. destruct (mark_dirty_page_heap b (addr + i)) as (_ & _ & Hm & _).
    exact Hm.
Qed.

Lemma mark_dirty_mem_mask b (p n : Z) :
  dirty_mask (heap (rvjit_mark_dirty_mem b p n)) = dirty_mask (heap b).
Proof.
  unfold rvjit_mark_dirty_mem. destruct (dirty_pages (heap b)); [|reflexivity].
  apply mark_dirty_loop_mask.
Qed.

(** A lookup at an address that does not share the bit of [a] leaves
    tracking allocated, the mask, and the dirty bit of [a] as they were. *)
Lemma lookup_keeps_other_slot b (x a : Z) :
  tracking_ok (heap b) = true ->
  other_slot (dirty_mask (heap b)) a x ->
  let b' := snd (rvjit_block_lookup b x) in
  tracking_ok (heap b') = true /\
  dirty_mask (heap b') = dirty_mask (heap b) /\
  dirty b' a = dirty b a.
Proof.
  intros Hok [Hx Hslot] b'.
  destruct (dirty b x) eqn:Hdx.
  - destruct (lookup_dirty_page b x Hok Hx Hdx) as (_ & Hok' & Hm & _ & Hd & _).
    fold b' in Hok', Hm, Hd.
    split; [exact Hok'|]. split; [exact Hm|].
    rewrite Hd, Hslot. apply andb_true_r.
  - unfold b'. rewrite (lookup_clean b x Hdx). cbn [snd].
    split; [exact Hok|]. split; reflexivity.
Qed.

Lemma lookups_keep_other_slot (l : list Z) b (a : Z) :
  tracking_ok (heap b) = true ->
  Forall (other_slot (dirty_mask (heap b)) a) l ->
  tracking_ok (heap (lookups b l)) = true /\
  dirty_mask (heap (lookups b l)) = dirty_mask (heap b) /\
  dirty (lookups b l) a = dirty b a.
Proof.
  revert b. induction l as [|x rest IH]; intros b Hok Hall; cbn [lookups].
  - split; [exact Hok|]. split; reflexivity.
  - inversion Hall as [|x' l' Hx Hrest]; subst.
    destruct (lookup_keeps_other_slot b x a Hok Hx) as (Hok1 & Hm1 & Hd1).
    destruct (IH (snd (rvjit_block_lookup b x)) Hok1) as (Hok2 & Hm2 & Hd2).
    { rewrite Hm1. exact Hrest. }
    split; [exact Hok2|]. split; congruence.
Qed.

(** C5, as the code has it.  With memory tracking allocated, for every
    page the loop of [rvjit_mark_dirty_mem(p, n)] visits (the pages of
    [p], [p + 4096], ... below [p + n]; all pages of the range when [p]
    is page-aligned) and whose jited or dirty bit is set: after any run of
    lookups at addresses that do not share the bit of the page in the
    dirty matrix, the first [rvjit_block_lookup] on an address [a] of that
    page returns null, leaves no block-registry entry and no pending link
    list for any physical PC of the page, and leaves the entries of other
    pages as it found them. *)
Theorem first_lookup_in_written_page b (p n a : Z) (between : list Z) :
  tracking_ok (heap b) = true ->
  0 <= a < 2 ^ 64 ->
  visited p n a ->
  jited b a || dirty b a = true ->
  Forall (other_slot (dirty_mask (heap b)) a) between ->
  let b1 := lookups (rvjit_mark_dirty_mem b p n) between in
  let r := rvjit_block_lookup b1 a in
  fst r = 0 /\
  (forall pc, Z.shiftr pc 12 = Z.shiftr a 12 ->
              blocks (heap (snd r)) !! pc = None /\
              block_links (heap (snd r)) !! pc = None) /\
  (forall pc, Z.shiftr pc 12 <> Z.shiftr a 12 ->
              blocks (heap (snd r)) !! pc = blocks (heap b1) !! pc /\
              block_links (heap (snd r)) !! pc = block_links (heap b1) !! pc).
Proof.
  intros Hok Ha Hv Hq Hbetween b1 r.
  destruct (mark_dirty_mem_spec b p n a Hok Hv Hq) as (Hok' & _ & _ & Hdirty).
  destruct (lookups_keep_other_slot between (rvjit_mark_dirty_mem b p n) a Hok')
    as (Hok1 & _ & Hd1).
  { rewrite mark_dirty_mem_mask. exact Hbetween. }
  fold b1 in Hok1, Hd1. rewrite Hdirty in Hd1.
  exact (lookup_flushes_dirty_page b1 a Hok1 Ha Hd1).
Qed.

End Sequences.

(** A store to the page of an installed block, lookups on the next page
    and on the page 128 KiB above, then a lookup of the block: null, and
    the entry is gone. *)
Lemma first_lookup_in_written_page_witness :
  let b1 := lookups (rvjit_mark_dirty_mem block_tracked 0x80001234 1)
              [0x80002000; 0x80021000] in
  let r := rvjit_block_lookup b1 0x80001000 in
  blocks (heap block_tracked) !! 0x80001000 = Some 0x7F0000000000 /\
  fst r = 0 /\
  blocks (heap (snd r)) !! 0x80001000 = None.
Proof.
  cbv zeta. split; [reflexivity|].
  destruct (first_lookup_in_written_page block_tracked 0x80001234 1 0x80001000
              [0x80002000; 0x80021000])
    as (Hnull & Hgone & _).
  - reflexivity.
  - lia.
  - exists 0. repeat split; lia.
  - reflexivity.
  - constructor; [split; [lia|reflexivity]|].
    constructor; [split; [lia|reflexivity]|]. constructor.
  - split; [exact Hnull|]. apply Hgone. reflexivity.
Defined.

End RvjitSequenceFacts.

(** * src/rvjit/rvjit.c: what rvjit_block_finalize leaves in the heap *)

Module RvjitLinkerFacts.
Import Rvjit RvjitSamples RvjitLinker.

Section Layout.

Context {emit_t : Type}.
Implicit Types b : rvjit_block emit_t.

Variable emit_end : rvjit_block emit_t -> linkage_t -> rvjit_block emit_t.
Variable linker : bool.
Variable patch : gmap Z Z -> Z -> Z -> gmap Z Z.

Lemma mark_jited_page_fields b (x : Z) :
  let h' := heap (rvjit_mark_jited_page b x) in
  heap_curr h' = heap_curr (heap b) /\ heap_size h' = heap_size (heap b) /\
  heap_bytes h' = heap_bytes (heap b) /\ blocks h' = blocks (heap b) /\
  block_links h' = block_links (heap b).
Proof.
  cbv zeta. unfold rvjit_mark_jited_page.
  destruct (jited_pages (heap b)); repeat split.
Qed.

(** The result of a finalize that passes the capacity test. *)
Lemma finalize_accepts b :
  let b1 := emit_end b (linkage _ b) in
  let h := heap b1 in
  let dest := heap_data (heap b) + heap_curr (heap b) in
  (wrap64 (heap_curr h + size _ b1) >? heap_size h) = false ->
  let r := rvjit_block_finalize emit_end linker patch b in
  let h' := heap (snd r) in
  let bytes1 := memcpy_heap (heap_bytes h) dest
                  (take (Z.to_nat (size _ b1)) (code _ b1)) in
  fst r = Some (heap_code (heap b) + heap_curr (heap b)) /\
  heap_curr h' = wrap64 (heap_curr h + size _ b1) /\
  heap_size h' = heap_size h /\
  blocks h' = <[phys_pc _ b1 := heap_code (heap b) + heap_curr (heap b)]> (blocks h) /\
  (linker = false -> heap_bytes h' = bytes1 /\ block_links h' = block_links h) /\
  (linker = true ->
   match pending_sites b1 with
   | Some sites =>
       heap_bytes h' = patch_sites patch bytes1 dest sites /\
       block_links h' =
         delete (phys_pc _ b1)
           (fold_left link_register (links _ b1) (block_links h))
   | None =>
       heap_bytes h' = bytes1 /\
       block_links h' = fold_left link_register (links _ b1) (block_links h)
   end).
Proof.
  intros b1 h dest Htest r h' bytes1.
  unfold h', r. clear h' r. unfold rvjit_block_finalize. fold b1. fold h.
  rewrite Htest. cbn [fst snd].
  match goal with
  | |- context [rvjit_mark_jited_page ?blk ?x] =>
      destruct (mark_jited_page_fields blk x) as (Hc & Hs & Hb & Hbl & Hln)
  end.
  cbv zeta in Hc, Hs, Hb, Hbl, Hln. rewrite Hc, Hs, Hb, Hbl, Hln.
  cbn [heap with_heap heap_curr heap_size heap_bytes blocks block_links].
  fold dest. fold bytes1. unfold pending_sites. fold h.
  split; [reflexivity|]. split; [reflexivity|]. split; [reflexivity|].
  split; [reflexivity|]. split.
  - intros ->. split; reflexivity.
  - intros ->.
    destruct (fold_left link_register (links _ b1) (block_links h) !! phys_pc _ b1);
      split; reflexivity.
Qed.

(** X23. Layout of the code heap.  rvjit_block_finalize first lets
    rvjit_emit_end close the block; provided the emitter leaves the heap
    of the block alone and heap.curr plus the size it leaves does not
    overflow size_t: a block that does not fit (heap.curr + size >
    heap.size) is refused, with a null result and the block as the emitter
    left it, heap unchanged; a block that fits, exactly or with room, gets
    the entry point heap.code + heap.curr, the cursor advances by its size
    and stays within the heap, and, in a build without the native linker
    or when no patch site is pending for its physical PC, the heap reads
    back the emitted bytes at heap.data + heap.curr and every byte outside
    that range is what it was.  In a build with the native linker and
    sites pending for the block, the bytes are those of the copy with
    rvjit_linker_patch_jmp applied at each site, and the pending list is
    removed. *)
Theorem finalize_heap_layout b :
  let b1 := emit_end b (linkage _ b) in
  heap b1 = heap b ->
  0 <= heap_curr (heap b) ->
  0 <= size _ b1 <= Z.of_nat (length (code _ b1)) ->
  heap_curr (heap b) + size _ b1 < 2 ^ 64 ->
  let h := heap b in
  let dest := heap_data h + heap_curr h in
  let r := rvjit_block_finalize emit_end linker patch b in
  let h' := heap (snd r) in
  (heap_size h < heap_curr h + size _ b1 -> r = (None, b1)) /\
  (heap_curr h + size _ b1 <= heap_size h ->
   fst r = Some (heap_code h + heap_curr h) /\
   heap_curr h' = heap_curr h + size _ b1 /\
   heap_curr h' <= heap_size h' /\
   (linker = false \/ pending_sites b1 = None ->
    (forall i, 0 <= i < size _ b1 ->
       heap_bytes h' !! (dest + i) = code _ b1 !! Z.to_nat i) /\
    (forall a, a < dest \/ dest + size _ b1 <= a ->
       heap_bytes h' !! a = heap_bytes h !! a)) /\
   (linker = true ->
    forall sites, pending_sites b1 = Some sites ->
      heap_bytes h' =
        patch_sites patch
          (memcpy_heap (heap_bytes h) dest (take (Z.to_nat (size _ b1)) (code _ b1)))
          dest sites /\
      block_links h' !! phys_pc _ b1 = None)).
Proof.
  intros b1 Hheap Hcur Hsize Hno h dest r h'.
  assert (Hw : wrap64 (heap_curr (heap b1) + size _ b1) = heap_curr h + size _ b1).
  { rewrite Hheap. unfold wrap64, h. apply Z.mod_small. lia. }
  split.
  - intros Hfull. unfold r, rvjit_block_finalize. fold b1. rewrite Hw, Hheap.
    fold h. destruct (Z.gtb_spec (heap_curr h + size _ b1) (heap_size h)) as [_|Hle];
      [reflexivity|exfalso; apply (Z.lt_irrefl (heap_size h)); lia].
  - intros Hfit.
    assert (Htest : (wrap64 (heap_curr (heap b1) + size _ b1) >? heap_size (heap b1))
                    = false).
    { rewrite Hw, Hheap. fold h.
      destruct (Z.gtb_spec (heap_curr h + size _ b1) (heap_size h)); [lia|reflexivity]. }
    destruct (finalize_accepts b Htest) as (Hres & Hc & Hs & _ & Hoff & Hon).
    fold b1 r h' in Hres, Hc, Hs, Hoff, Hon.
    rewrite Hw in Hc. rewrite Hheap in Hs, Hoff, Hon. fold h dest in Hs, Hoff, Hon.
    set (bytes1 := memcpy_heap (heap_bytes h) dest
                     (take (Z.to_nat (size _ b1)) (code _ b1))) in *.
    assert (Hlen : Z.of_nat (length (take (Z.to_nat (size _ b1)) (code _ b1)))
                   = size _ b1).
    { rewrite length_take. lia. }
    assert (Hcopy : (forall i, 0 <= i < size _ b1 ->
                       bytes1 !! (dest + i) = code _ b1 !! Z.to_nat i) /\
                    (forall a, a < dest \/ dest + size _ b1 <= a ->
                       bytes1 !! a = heap_bytes h !! a)).
    { split.
      - intros i Hi. unfold bytes1.
        rewrite RvjitCacheFacts.memcpy_heap_lookup, Hlen.
        rewrite decide_True by lia.
        replace (dest + i - dest) with i by lia.
        apply lookup_take_lt. lia.
      - intros a Ha. unfold bytes1.
        rewrite RvjitCacheFacts.memcpy_heap_lookup, Hlen.
        rewrite decide_False by lia. reflexivity. }
    split; [exact Hres|]. split; [exact Hc|].
    split; [rewrite Hc, Hs; exact Hfit|]. split.
    + intros [Hl|Hp].
      * destruct (Hoff Hl) as [Hb _]. rewrite Hb. exact Hcopy.
      * destruct linker.
        -- specialize (Hon eq_refl). rewrite Hp in Hon. destruct Hon as [Hb _].
           rewrite Hb. exact Hcopy.
        -- destruct (Hoff eq_refl) as [Hb _]. rewrite Hb. exact Hcopy.
    + intros Hl sites Hp. specialize (Hon Hl). rewrite Hp in Hon.
      destruct Hon as [Hb Hln]. split; [exact Hb|].
      rewrite Hln. apply lookup_delete_eq.
Qed.

(** Without the native linker, on a block the emitter has closed already
    and below the end of [size_t], this is the finalize of [Rvjit]. *)
Lemma finalize_closed_block b :
  0 <= heap_curr (heap b) + size _ b < 2 ^ 64 ->
  rvjit_block_finalize (fun b0 _ => b0) false patch b = Rvjit.rvjit_block_finalize b.
Proof.
  intros Hr. unfold rvjit_block_finalize, Rvjit.rvjit_block_finalize.
  cbv zeta. unfold wrap64. rewrite Z.mod_small by exact Hr. reflexivity.
Qed.

End Layout.

Lemma finalize_heap_layout_witness :
  (let r := rvjit_block_finalize emit_ret false patch_byte block_fresh in
   fst r = Some 0x7F0000000000
   /\ heap_curr (heap (snd r)) = 2
   /\ heap_bytes (heap (snd r)) !! 0x7F0000000001 = Some 0xC3)
  /\ rvjit_block_finalize emit_ret true patch_byte block_heap_full
     = (None, emit_ret block_heap_full LINKAGE_JMP)
  /\ (let r := rvjit_block_finalize emit_ret true patch_byte block_awaited in
      heap_bytes (heap (snd r)) !! 0x7F0000000010 = Some 0x10
      /\ block_links (heap (snd r)) !! 0x80001000 = None).
Proof.
  cbv zeta.
  destruct (finalize_heap_layout emit_ret false patch_byte block_fresh eq_refl
              ltac:(vm_compute; congruence) ltac:(vm_compute; split; congruence)
              ltac:(vm_compute; reflexivity)) as [_ Hfit].
  destruct (Hfit ltac:(vm_compute; congruence)) as (Hres & Hcur & _ & Hoff & _).
  destruct (Hoff (or_introl eq_refl)) as [Hcopy _].
  destruct (finalize_heap_layout emit_ret true patch_byte block_heap_full eq_refl
              ltac:(vm_compute; congruence) ltac:(vm_compute; split; congruence)
              ltac:(vm_compute; reflexivity)) as [Hfull _].
  destruct (finalize_heap_layout emit_ret true patch_byte block_awaited eq_refl
              ltac:(vm_compute; congruence) ltac:(vm_compute; split; congruence)
              ltac:(vm_compute; reflexivity)) as [_ Hfit2].
  destruct (Hfit2 ltac:(vm_compute; congruence)) as (_ & _ & _ & _ & Hon).
  destruct (Hon eq_refl [0x7F0000000010] eq_refl) as [Hb Hln].
  split; [|split].
  - split; [exact Hres|]. split; [exact Hcur|].
    exact (Hcopy 1 ltac:(vm_compute; split; congruence)).
  - apply Hfull. vm_compute. reflexivity.
  - split; [rewrite Hb; reflexivity|exact Hln].
Defined.

End RvjitLinkerFacts.
